(** * PharmaScan: GS1 barcode parsing, catalogue matching, expiry status

    A shallow embedding of the barcode interpretation core of the
    repository:

    - [GS1]     : [GS1.parse], [GS1._varEnd], [GS1._expiry], [GS1.status]
                  of [app.js];
    - [Master]  : [Master.build], [Master.find] of [app.js];
    - [Unified] : the class [UnifiedBarcodeParser] of
                  [enhanced_pharmacy_app.js];
    - [OCR]     : the text normalisation of [extractDateFromOCR] of [app.js];
    - [EnhancedPharmacyUI] : [calculateExpiryStatus] of
                  [enhanced_pharmacy_app.js];
    - [App]     : [onBarcode], [refreshStats], [refreshHistory] and [esc]
                  of [app.js];
    - [PharmacyDatabase] : [lookupProduct] and [getByIndex] of
                  [enhanced_pharmacy_app.js], over the object stores that
                  [init] creates;
    - [Upload]  : the reading of the master file in [uploadMaster], and
                  [DB.bulkMaster], of [app.js].

    The models come first, then the vocabulary of the statements, then the
    lemmas and the theorems C1 to C10, then further properties of the
    code, X1 to X28.

    JavaScript strings are modelled by [string]: one [ascii] per code unit,
    so the model covers the inputs whose code units are below 256.  The two
    global [Map]s of [app.js] are [gmap string string]. *)

From Stdlib Require Import ZArith Ascii String List Bool Lia.
From Stdlib Require Import DecimalString Sorted Permutation.
From stdpp Require Import base option strings gmap.

Local Open Scope Z_scope.

#[local] Arguments String.append !s1 s2 : simpl nomatch.

(** ** JavaScript string and number primitives used by the sources *)

Module JS.

Definition code (c : ascii) : Z := Z.of_N (N_of_ascii c).

(** [\d], and its complement [\D] *)
Definition is_digit (c : ascii) : bool :=
  (48 <=? code c) && (code c <=? 57).

(** White space and line terminators of ECMAScript below 256:
    TAB, LF, VT, FF, CR, SP, NBSP.  Used by [trim] and [parseInt]. *)
Definition is_space (c : ascii) : bool :=
  let n := code c in
  ((9 <=? n) && (n <=? 13)) || (n =? 32) || (n =? 160).

(** [[\x20-\x7E]] *)
Definition is_printable (c : ascii) : bool :=
  (32 <=? code c) && (code c <=? 126).

Definition GS : ascii := ascii_of_nat 29.

Fixpoint length (s : string) : nat :=
  match s with
  | EmptyString => 0
  | String _ s' => S (length s')
  end.

(** [s.replace(/[class]/g, '')], given the complement [keep] of the class *)
Fixpoint keep_chars (keep : ascii -> bool) (s : string) : string :=
  match s with
  | EmptyString => EmptyString
  | String c s' =>
      if keep c then String c (keep_chars keep s') else keep_chars keep s'
  end.

(** [s.replace(/[class]/g, r)] for a one-character replacement *)
Fixpoint map_chars (f : ascii -> ascii) (s : string) : string :=
  match s with
  | EmptyString => EmptyString
  | String c s' => String (f c) (map_chars f s')
  end.

Fixpoint trimStart (s : string) : string :=
  match s with
  | EmptyString => EmptyString
  | String c s' => if is_space c then trimStart s' else s
  end.

Fixpoint trimEnd (s : string) : string :=
  match s with
  | EmptyString => EmptyString
  | String c s' =>
      match trimEnd s' with
      | EmptyString => if is_space c then EmptyString else String c EmptyString
      | t => String c t
      end
  end.

Definition trim (s : string) : string := trimEnd (trimStart s).

Fixpoint take (n : nat) (s : string) : string :=
  match n, s with
  | S n', String c s' => String c (take n' s')
  | _, _ => EmptyString
  end.

Fixpoint drop (n : nat) (s : string) : string :=
  match n, s with
  | S n', String _ s' => drop n' s'
  | _, _ => s
  end.

(** [s.substring(a, b)]: the arguments are swapped when [a > b] and
    clamped to the length. *)
Definition substring (a b : nat) (s : string) : string :=
  take (Nat.max a b - Nat.min a b) (drop (Nat.min a b) s).

(** [s.slice(1)] *)
Definition slice1 (s : string) : string := drop 1 s.

(** [s.slice(-n)] *)
Definition slice_last (n : nat) (s : string) : string :=
  drop (length s - n) s.

(** [s[i]], [None] standing for [undefined] *)
Fixpoint charAt (i : nat) (s : string) : option ascii :=
  match s, i with
  | EmptyString, _ => None
  | String c _, O => Some c
  | String _ s', S i' => charAt i' s'
  end.

Fixpoint startsWith (p s : string) : bool :=
  match p, s with
  | EmptyString, _ => true
  | String a p', String b s' => Ascii.eqb a b && startsWith p' s'
  | String _ _, EmptyString => false
  end.

(** [s.includes(p)] *)
Fixpoint includes (p s : string) : bool :=
  startsWith p s ||
  match s with
  | EmptyString => false
  | String _ s' => includes p s'
  end.

Fixpoint all_chars (p : ascii -> bool) (s : string) : bool :=
  match s with
  | EmptyString => true
  | String c s' => p c && all_chars p s'
  end.

Fixpoint repeat (c : ascii) (n : nat) : string :=
  match n with
  | O => EmptyString
  | S n' => String c (repeat c n')
  end.

(** [s.padStart(n, c)] for a one-character filler *)
Definition padStart (n : nat) (c : ascii) (s : string) : string :=
  String.append (repeat c (n - length s)) s.

(** Longest prefix whose characters satisfy [p] *)
Fixpoint take_while (p : ascii -> bool) (s : string) : string :=
  match s with
  | EmptyString => EmptyString
  | String c s' => if p c then String c (take_while p s') else EmptyString
  end.

(** [\d{n}] anchored at the start of [s] *)
Definition digits_here (n : nat) (s : string) : option string :=
  let d := take n s in
  if (length d =? n)%nat && all_chars is_digit d then Some d else None.

(** Numbers are integers or [NaN] ([None]). *)
Definition num : Type := option Z.

Definition digit_val (radix : Z) (c : ascii) : option Z :=
  let n := code c in
  let v := if is_digit c then Some (n - 48)
           else if (97 <=? n) && (n <=? 122) then Some (n - 87)
           else if (65 <=? n) && (n <=? 90) then Some (n - 55)
           else None in
  match v with
  | Some d => if d <? radix then Some d else None
  | None => None
  end.

Fixpoint parse_digits (radix : Z) (acc : num) (s : string) : num :=
  match s with
  | EmptyString => acc
  | String c s' =>
      match digit_val radix c with
      | Some d =>
          parse_digits radix (Some (radix * default 0 acc + d)) s'
      | None => acc
      end
  end.

(** [parseInt(s)] with no radix argument: leading white space, a sign,
    a [0x] prefix, then the longest run of digits; [NaN] when that run
    is empty. *)
Definition parseInt (s : string) : num :=
  let s1 := trimStart s in
  let '(sign, s2) :=
    match s1 with
    | String "-" r => (-1, r)
    | String "+" r => (1, r)
    | _ => (1, s1)
    end in
  let '(radix, s3) :=
    match s2 with
    | String "0" (String "x" r) => (16, r)
    | String "0" (String "X" r) => (16, r)
    | _ => (10, s2)
    end in
  match parse_digits radix None s3 with
  | Some v => Some (sign * v)
  | None => None
  end.

(** [String(n)] and template interpolation of a number *)
Definition toString (n : num) : string :=
  match n with
  | Some z => NilZero.string_of_int (Z.to_int z)
  | None => "NaN"
  end.

Definition is_leap (y : Z) : bool :=
  (y mod 4 =? 0) && (negb (y mod 100 =? 0) || (y mod 400 =? 0)).

(** Days of month [m] (1 to 12) of year [y] *)
Definition days_in_month (y m : Z) : Z :=
  if m =? 2 then (if is_leap y then 29 else 28)
  else if (m =? 4) || (m =? 6) || (m =? 9) || (m =? 11) then 30
  else 31.

(** [new Date(yr, mm, 0).getDate()]: day 0 of month index [mm] is the
    last day of month index [mm - 1]; month indices outside 0..11 carry
    into the year; years 0..99 mean 1900..1999. *)
Definition Date_day0_getDate (yr mm : num) : num :=
  match yr, mm with
  | Some y, Some m =>
      let y' := if (0 <=? y) && (y <=? 99) then 1900 + y else y in
      Some (days_in_month (y' + (m - 1) / 12) ((m - 1) mod 12 + 1))
  | _, _ => None
  end.

(** A regular expression search without the [g] flag: the matcher [m],
    anchored at the start of its argument, is tried at every position
    from left to right; the first success gives capture group 1. *)
Fixpoint search (m : string -> option string) (s : string) : option string :=
  match m s with
  | Some d => Some d
  | None =>
      match s with
      | EmptyString => None
      | String _ s' => search m s'
      end
  end.

(** A lazy group [([cls]+?)] followed by [(?:stop1|stop2|...|$)]: the
    shortest non-empty run of [cls] characters after which one of the
    stops, or the end of the input, follows. *)
Definition at_stop (stops : list string) (s : string) : bool :=
  existsb (fun p => startsWith p s) stops || String.eqb s "".

Fixpoint lazy_group (cls : ascii -> bool) (stops : list string) (s : string)
  : option string :=
  match s with
  | EmptyString => None
  | String c s' =>
      if cls c then
        if at_stop stops s' then Some (String c EmptyString)
        else match lazy_group cls stops s' with
             | Some run => Some (String c run)
             | None => None
             end
      else None
  end.

(** [s.match(/tag(\d{n})/)], group 1 of the first match *)
Definition match_digits (tag : string) (n : nat) : string -> option string :=
  search (fun s => if startsWith tag s
                   then digits_here n (drop (length tag) s) else None).

Definition not_paren (c : ascii) : bool := negb (Ascii.eqb c "(").

(** [s.match(/tag([^(]+)/)], group 1 of the first match *)
Definition match_to_paren (tag : string) : string -> option string :=
  search (fun s => if startsWith tag s
                   then match take_while not_paren (drop (length tag) s) with
                        | EmptyString => None
                        | run => Some run
                        end
                   else None).

(** *** Time values: milliseconds since 1970-01-01T00:00Z *)

Definition msPerDay : Z := 86400000.

(** ECMAScript's [DayFromYear] *)
Definition DayFromYear (y : Z) : Z :=
  365 * (y - 1970) + (y - 1969) / 4 - (y - 1901) / 100 + (y - 1601) / 400.

(** Days of year [y] before month [m] (1 to 12) *)
Definition days_before_month (y m : Z) : Z :=
  fold_right Z.add 0
    (map (days_in_month y) (map Z.of_nat (seq 1 (Z.to_nat (m - 1))))).

(** Day number of the calendar date [y]-[m]-[d] *)
Definition day_number (y m d : Z) : Z :=
  DayFromYear y + days_before_month y m + (d - 1).

Definition digit_of (c : ascii) : Z := code c - 48.

(** [new Date(s)] for [s] a calendar date in ECMAScript's date-only form
    YYYY-MM-DD, which is read as midnight UTC.  What engines make of any
    other string (a text with a time of day, a day beyond the end of its
    month) differs from engine to engine and is not modelled: such
    strings are given the time value [NaN] here, and what is proved of
    the time value of a text is proved of the texts read here. *)
Definition Date_parse (s : string) : num :=
  match s with
  | String y1 (String y2 (String y3 (String y4 (String "-"
    (String m1 (String m2 (String "-"
    (String d1 (String d2 EmptyString))))))))) =>
      if all_chars is_digit
           (String y1 (String y2 (String y3 (String y4
           (String m1 (String m2 (String d1 (String d2 EmptyString))))))))
      then
        let y := 1000 * digit_of y1 + 100 * digit_of y2
                 + 10 * digit_of y3 + digit_of y4 in
        let m := 10 * digit_of m1 + digit_of m2 in
        let d := 10 * digit_of d1 + digit_of d2 in
        if (1 <=? m) && (m <=? 12) && (1 <=? d) && (d <=? days_in_month y m)
        then Some (msPerDay * day_number y m d)
        else None
      else None
  | _ => None
  end.

(** [d.setHours(0,0,0,0)] on the time value [t], in a zone that is
    [tz] minutes east of UTC all year round.  A zone with daylight
    saving, where two local midnights need not be whole days apart, is
    not of this form. *)
Definition setHours0 (tz t : Z) : Z :=
  (t + tz * 60000) / msPerDay * msPerDay - tz * 60000.

End JS.


(** ** [GS1]: the parser of [app.js] *)

Module GS1.
Import JS.

(** The object literal built at the head of [GS1.parse] *)
Record result : Type := mkResult {
  raw : string;
  gtin : string;
  expiry : string;
  expiryISO : string;
  expiryDisplay : string;
  batch : string;
  serial : string;
  qty : Z;
  isGS1 : bool
}.

Definition set_gtin (v : string) (r : result) : result :=
  mkResult (raw r) v (expiry r) (expiryISO r) (expiryDisplay r)
           (batch r) (serial r) (qty r) (isGS1 r).
Definition set_expiry (v iso disp : string) (r : result) : result :=
  mkResult (raw r) (gtin r) v iso disp
           (batch r) (serial r) (qty r) (isGS1 r).
Definition set_batch (v : string) (r : result) : result :=
  mkResult (raw r) (gtin r) (expiry r) (expiryISO r) (expiryDisplay r)
           v (serial r) (qty r) (isGS1 r).
Definition set_serial (v : string) (r : result) : result :=
  mkResult (raw r) (gtin r) (expiry r) (expiryISO r) (expiryDisplay r)
           (batch r) v (qty r) (isGS1 r).
Definition set_isGS1 (v : bool) (r : result) : result :=
  mkResult (raw r) (gtin r) (expiry r) (expiryISO r) (expiryDisplay r)
           (batch r) (serial r) (qty r) v.

(** [String(n).padStart(2,'0')] *)
Definition pad2 (n : num) : string := padStart 2 "0" (toString n).

(** [_expiry(yymmdd, r)], which mutates [r] *)
Definition _expiry (yymmdd : string) (r : result) : result :=
  if negb (length yymmdd =? 6)%nat then r
  else
    let yy := parseInt (substring 0 2 yymmdd) in
    let mm := parseInt (substring 2 4 yymmdd) in
    let dd := parseInt (substring 4 6 yymmdd) in
    let yr := match yy with Some y => Some (2000 + y) | None => None end in
    let dd := match dd with
              | Some 0 => Date_day0_getDate yr mm
              | _ => dd
              end in
    set_expiry yymmdd
      (toString yr +:+ "-" +:+ pad2 mm +:+ "-" +:+ pad2 dd)
      (pad2 dd +:+ "/" +:+ pad2 mm +:+ "/" +:+ toString yr)
      r.

(** The [for] loop of [_varEnd], run over the characters from [i] on *)
Fixpoint varEnd_from (s : string) (i : nat) : nat :=
  match s with
  | EmptyString => i
  | String c s' => if Ascii.eqb c GS then i else varEnd_from s' (S i)
  end.

Definition _varEnd (code : string) (start : nat) : nat :=
  if (length code <? start)%nat then length code
  else varEnd_from (drop start code) start.

(** [v.replace(/[^\x20-\x7E]/g,'').trim().substring(0,20)] *)
Definition clean (v : string) : string :=
  substring 0 20 (trim (keep_chars is_printable v)).

(** The [while] loop of the raw concatenated branch.  Every iteration
    moves [pos] forward, so [fuel] bounds the number of iterations;
    [None] means the fuel ran out. *)
Fixpoint scan (fuel : nat) (code : string) (pos : nat) (r : result)
  : option result :=
  match fuel with
  | O => None
  | S fuel' =>
      if negb (pos <? length code)%nat then Some r
      else if bool_decide (charAt pos code = Some GS)
      then scan fuel' code (pos + 1)%nat r
      else
        let ai := substring pos (pos + 2) code in
        if String.eqb ai "01" then
          scan fuel' code (pos + 16)%nat
               (set_gtin (substring (pos + 2) (pos + 16) code) r)
        else if String.eqb ai "17" then
          scan fuel' code (pos + 8)%nat
               (_expiry (substring (pos + 2) (pos + 8) code) r)
        else if String.eqb ai "10" then
          let pos := (pos + 2)%nat in
          let e := _varEnd code pos in
          scan fuel' code e (set_batch (clean (substring pos e code)) r)
        else if String.eqb ai "21" then
          let pos := (pos + 2)%nat in
          let e := _varEnd code pos in
          scan fuel' code e (set_serial (clean (substring pos e code)) r)
        else scan fuel' code (pos + 1)%nat r
  end.

Definition not_crlftab (c : ascii) : bool :=
  negb ((code c =? 13) || (code c =? 10) || (code c =? 9)).

Definition init (raw : string) : result :=
  mkResult raw "" "" "" "" "" "" 1 false.

Definition opt_apply {A} (o : option A) (f : A -> result -> result)
  (r : result) : result :=
  match o with Some a => f a r | None => r end.

(** [raw.trim().replace(/[\r\n\t]/g,'')], the variable [code] of [parse] *)
Definition code_of (raw : string) : string :=
  keep_chars not_crlftab (trim raw).

(** [GS1.parse(raw)] for a string [raw] *)
Definition parse (raw : string) : result :=
  let result := init raw in
  if String.eqb raw "" then result
  else
    let code := code_of raw in
    let hasParens := includes "(" code in
    let hasRawGS1 :=
      startsWith "01" code && bool_decide (is_Some (digits_here 14 (drop 2 code))) in
    if negb hasParens && negb hasRawGS1 then
      let d := keep_chars is_digit code in
      if (8 <=? length d)%nat && (length d <=? 14)%nat
      then set_gtin (padStart 14 "0" d) result
      else result
    else
      let result := set_isGS1 true result in
      if hasParens then
        let result := opt_apply (match_digits "(01)" 14 code) set_gtin result in
        let result := opt_apply (match_digits "(17)" 6 code) _expiry result in
        let result := opt_apply (match_to_paren "(10)" code)
                                (fun b => set_batch (clean b)) result in
        let result := opt_apply (match_to_paren "(21)" code)
                                (fun s => set_serial (clean s)) result in
        result
      else
        match scan (S (length code)) code 0 result with
        | Some r => r
        | None => result
        end.

Inductive Status : Set := unknown | expired | expiring | ok.

(** [GS1.status(isoDate)].  The function reads its surroundings, which
    are arguments here: [SOON_DAYS] is [CFG.SOON_DAYS], [now] the time
    value of [new Date()], [tz] the offset of the local zone in minutes
    east of UTC.  An absent or empty [isoDate] is [""].  With a [NaN]
    difference both comparisons fail. *)
Definition status (SOON_DAYS tz now : Z) (isoDate : string) : Status :=
  if String.eqb isoDate "" then unknown
  else
    let today := setHours0 tz now in
    match Date_parse isoDate with
    | Some e =>
        let exp := setHours0 tz e in
        let diff := (exp - today) / msPerDay in
        if diff <? 0 then expired
        else if diff <=? SOON_DAYS then expiring
        else ok
    | None => ok
    end.

End GS1.

Module CFG.
Definition SOON_DAYS : Z := 90.
End CFG.


(** ** [Master]: the catalogue index of [app.js] *)

Module Master.
Import JS.

(** A row of the master list; an absent [name] or [rms] is [""]. *)
Record item : Type := mkItem {
  barcode : string;
  name : string;
  rms : string
}.

(** The two maps [S.masterIndex] and [S.masterRMS] *)
Record index : Type := mkIndex {
  masterIndex : gmap string string;
  masterRMS : gmap string string
}.

Definition cleared : index := mkIndex ∅ ∅.

Definition has (m : gmap string string) (k : string) : bool :=
  bool_decide (is_Some (m !! k)).

(** [.filter(Boolean)] on an array of strings *)
Definition truthy (s : string) : bool := negb (String.eqb s "").

(** The array of keys built from the stripped barcode [bc] *)
Definition keys_of (bc : string) : list string :=
  let g14 := padStart 14 "0" bc in
  List.filter truthy
    [bc; g14; if startsWith "0" g14 then slice1 g14 else ""; slice_last 8 bc].

(** The body of the [forEach] *)
Definition register (it : item) (S : index) (k : string) : index :=
  let mi := if has (masterIndex S) k then masterIndex S
            else <[k := name it]> (masterIndex S) in
  let mr := if truthy (rms it) && negb (has (masterRMS S) k)
            then <[k := rms it]> (masterRMS S)
            else masterRMS S in
  mkIndex mi mr.

(** The body of the [for ... of] loop *)
Definition build_step (S : index) (it : item) : index :=
  let bc := keep_chars is_digit (barcode it) in
  if negb (truthy bc) || (length bc <? 8)%nat then S
  else fold_left (register it) (keys_of bc) S.

Definition build (data : list item) : index :=
  fold_left build_step data cleared.

Inductive How : Set := EXACT | PARTIAL | NONE.

Record found : Type := mkFound {
  f_name : string;
  f_rms : string;
  how : How
}.

Definition candidates (gtin : string) : list string :=
  List.filter truthy
    [gtin; if startsWith "0" gtin then slice1 gtin else ""; slice_last 8 gtin].

Fixpoint find_loop (S : index) (gtin : string) (cs : list string) : found :=
  match cs with
  | [] => mkFound "" "" NONE
  | c :: cs' =>
      match masterIndex S !! c with
      | Some n =>
          mkFound n
            (match masterRMS S !! c with Some r => r | None => "" end)
            (if String.eqb c gtin then EXACT else PARTIAL)
      | None => find_loop S gtin cs'
      end
  end.

(** [Master.find(gtin)] on the index [S] *)
Definition find (S : index) (gtin : string) : found :=
  if negb (truthy gtin) then mkFound "" "" NONE
  else find_loop S gtin (candidates gtin).

End Master.

(** ** [Unified]: the class [UnifiedBarcodeParser] *)

Module Unified.
Import JS.

Inductive Format : Set :=
| GS1_PARENTHESIZED | GS1_FULL | GTIN14 | EAN13 | LEGACY12 | EAN8 | UNKNOWN.

#[global] Instance Format_eq_dec : EqDecision Format.
Proof. solve_decision. Defined.

Definition detectFormat (barcode : string) : Format :=
  let cleaned := keep_chars is_digit barcode in
  if includes "(01)" barcode then GS1_PARENTHESIZED
  else if startsWith "01" barcode && (16 <? length barcode)%nat
          && (includes "17" barcode || includes "21" barcode
              || includes "10" barcode)
  then GS1_FULL
  else if (length cleaned =? 14)%nat then GTIN14
  else if (length cleaned =? 13)%nat then EAN13
  else if (length cleaned =? 12)%nat then LEGACY12
  else if (length cleaned =? 8)%nat then EAN8
  else UNKNOWN.

(** The objects returned by the parse methods; a property that is not
    set, or is [null], is [None]. *)
Record data : Type := mkData {
  format : option Format;
  raw : option string;
  gtin : option string;
  expiryRaw : option string;
  expiry : option string;
  batch : option string;
  serial : option string;
  productionDateRaw : option string;
  productionDate : option string;
  code : option string;
  ean13 : option string;
  legacy : option string;
  error : option string
}.

Definition formatExpiry (yymmdd : string) : option string :=
  if negb (length yymmdd =? 6)%nat then None
  else
    let yy := substring 0 2 yymmdd in
    let mm := substring 2 4 yymmdd in
    let dd := substring 4 6 yymmdd in
    let year := "20" +:+ yy in
    Some (year +:+ "-" +:+ mm +:+ "-" +:+ dd).

Definition date_of (raw : option string) : option string :=
  match raw with Some d => formatExpiry d | None => None end.

Definition parseParenthesized (barcode : string) : data :=
  let gtinMatch := match_digits "(01)" 14 barcode in
  let expiryMatch := match_digits "(17)" 6 barcode in
  let batchMatch := match_to_paren "(10)" barcode in
  let serialMatch := match_to_paren "(21)" barcode in
  let prodDateMatch := match_digits "(11)" 6 barcode in
  mkData (Some GS1_PARENTHESIZED) (Some barcode)
    gtinMatch
    expiryMatch (date_of expiryMatch)
    (option_map trim batchMatch)
    (option_map trim serialMatch)
    prodDateMatch (date_of prodDateMatch)
    None None None None.

Definition is_upper_or_digit (c : ascii) : bool :=
  ((65 <=? JS.code c) && (JS.code c <=? 90)) || is_digit c.

(** [[A-Z0-9\-_/]] *)
Definition is_batch_char (c : ascii) : bool :=
  is_upper_or_digit c || Ascii.eqb c "-" || Ascii.eqb c "_" || Ascii.eqb c "/".

(** [remaining.match(/tag([cls]+?)(?:stops|$)/)], group 1 *)
Definition match_lazy (tag : string) (cls : ascii -> bool)
  (stops : list string) : string -> option string :=
  search (fun s => if startsWith tag s
                   then lazy_group cls stops (drop (length tag) s)
                   else None).

Definition parseNonParenthesized (barcode : string) : data :=
  let gtin := if startsWith "01" barcode
              then Some (substring 2 16 barcode) else None in
  let remaining := drop 16 barcode in
  let expiryMatch := match_digits "17" 6 remaining in
  let batchMatch :=
    match_lazy "10" is_batch_char ["17"; "21"; "11"; "24"; "01"] remaining in
  let serialMatch :=
    match_lazy "21" is_upper_or_digit ["17"; "10"; "11"; "24"; "01"] remaining in
  let prodDateMatch := match_digits "11" 6 remaining in
  mkData (Some GS1_FULL) (Some barcode)
    gtin
    expiryMatch (date_of expiryMatch)
    batchMatch serialMatch
    prodDateMatch (date_of prodDateMatch)
    None None None None.

Definition parseSimple (barcode : string) (format : Format) : data :=
  let cleaned := keep_chars is_digit barcode in
  mkData (Some format) (Some barcode)
    (if bool_decide (format = GTIN14) then Some cleaned else None)
    None None None None None None
    (Some cleaned)
    (if bool_decide (format = EAN13) then Some cleaned else None)
    (if bool_decide (format = LEGACY12) then Some cleaned else None)
    None.

(** [parse(barcode)]; no method called in the [try] block throws on a
    string, so the [catch] branch is not taken. *)
Definition parse (barcode : string) : data :=
  if (length (trim barcode) =? 0)%nat
  then mkData None None None None None None None None None None None None
              (Some "Empty barcode")
  else
    match detectFormat barcode with
    | GS1_PARENTHESIZED => parseParenthesized barcode
    | GS1_FULL => parseNonParenthesized barcode
    | GTIN14 => parseSimple barcode GTIN14
    | EAN13 => parseSimple barcode EAN13
    | LEGACY12 => parseSimple barcode LEGACY12
    | EAN8 => parseSimple barcode EAN8
    | UNKNOWN =>
        mkData (Some UNKNOWN) (Some barcode) None None None None None None
               None None None None (Some "Unrecognized barcode format")
    end.

(** Truthiness of a property that holds a string: an unset property,
    [null] and the empty string are falsy. *)
Definition truthy (o : option string) : bool :=
  match o with
  | Some v => negb (String.eqb v "")
  | None => false
  end.

Definition getProductId (parsedData : data) : option string :=
  if truthy (gtin parsedData) then gtin parsedData
  else if truthy (code parsedData) then code parsedData
  else if truthy (ean13 parsedData) then ean13 parsedData
  else if truthy (legacy parsedData) then legacy parsedData
  else None.

End Unified.

(** ** [OCR]: the normalisation step of [extractDateFromOCR] *)

Module OCR.
Import JS.

(** [toUpperCase] on a code unit below 128; the model leaves the other
    code units as they are. *)
Definition toUpperCase_char (c : ascii) : ascii :=
  if (97 <=? JS.code c) && (JS.code c <=? 122)
  then ascii_of_N (N_of_ascii c - 32) else c.

Definition toUpperCase : string -> string := map_chars toUpperCase_char.

(** [/[|Il]/g] replaced by ['1'] *)
Definition bar_I_l_to_1 (c : ascii) : ascii :=
  if Ascii.eqb c "|" || Ascii.eqb c "I" || Ascii.eqb c "l" then "1"%char else c.

(** [/O/g] replaced by ['0'] *)
Definition O_to_0 (c : ascii) : ascii :=
  if Ascii.eqb c "O" then "0"%char else c.

(** The constant [t] of [extractDateFromOCR(text)], the text that the
    date patterns are matched against *)
Definition normalise (text : string) : string :=
  map_chars O_to_0 (map_chars bar_I_l_to_1 (toUpperCase text)).

End OCR.

(** ** [EnhancedPharmacyUI]: the expiry badge of [enhanced_pharmacy_app.js] *)

Module EnhancedPharmacyUI.
Import JS.

Inductive Class : Set :=
| no_class | expired | short_expiry | medium_expiry | normal_expiry.

(** The [text] of the badge: its wording and the number it shows.  The
    glyph that precedes the wording is not a code unit below 256 and is
    left out. *)
Inductive Text : Set :=
| no_text | Expired | days_left (n : Z) | months_left (n : Z) | Good.

(** [Math.ceil(a / b)] for integers [a] and [b > 0] *)
Definition ceil_div (a b : Z) : Z := - (- a / b).

(** [calculateExpiryStatus(expiryDate)]; [now] is the time value of
    [new Date()], an absent [expiryDate] is [""].  With a [NaN] number of
    days every comparison fails. *)
Definition calculateExpiryStatus (now : Z) (expiryDate : string)
  : Class * Text :=
  if String.eqb expiryDate "" then (no_class, no_text)
  else
    match Date_parse expiryDate with
    | Some expiry =>
        let daysUntilExpiry := ceil_div (expiry - now) (1000 * 60 * 60 * 24) in
        if daysUntilExpiry <? 0 then (expired, Expired)
        else if daysUntilExpiry <=? 30
        then (short_expiry, days_left daysUntilExpiry)
        else if daysUntilExpiry <=? 90
        then (medium_expiry, months_left (ceil_div daysUntilExpiry 30))
        else (normal_expiry, Good)
    | None => (normal_expiry, Good)
    end.

End EnhancedPharmacyUI.

(** ** [App]: the scan flow, the history views and the helpers of [app.js] *)

Module App.
Import JS.

(** [s.replace(/c/g, r)] for one character [c] *)
Fixpoint replace_char (c : ascii) (r : string) (s : string) : string :=
  match s with
  | EmptyString => EmptyString
  | String a s' =>
      if Ascii.eqb a c then r +:+ replace_char c r s'
      else String a (replace_char c r s')
  end.

(** [esc(s)] for a string [s] *)
Definition esc (s : string) : string :=
  replace_char "034" "&quot;"
    (replace_char ">" "&gt;"
       (replace_char "<" "&lt;" (replace_char "&" "&amp;" s))).

(** A row of the history store, as [onBarcode] drafts it *)
Record entry : Type := mkEntry {
  raw : string;
  gtin : string;
  name : string;
  rms : string;
  matchHow : Master.How;
  expiry : string;
  expiryISO : string;
  expiryDisplay : string;
  batch : string;
  serial : string;
  qty : Z;
  supplier : string;
  returnable : string;
  ts : Z
}.

(** What [onBarcode] does: nothing, the toast that no barcode could be
    extracted, or the draft entry together with the argument passed to
    [showProductPanel]. *)
Inductive outcome : Type :=
| ignored
| no_barcode
| draft (e : entry) (hasExpiry : bool).

(** [onBarcode(raw)]; [S] is the index held in the global state and
    [now] the value of [Date.now()]. *)
Definition onBarcode (S : Master.index) (now : Z) (raw : string) : outcome :=
  if negb (Master.truthy raw) || negb (Master.truthy (trim raw)) then ignored
  else
    let parsed := GS1.parse (trim raw) in
    if negb (Master.truthy (GS1.gtin parsed)) then no_barcode
    else
      let match_ := Master.find S (GS1.gtin parsed) in
      let isGS1 := GS1.isGS1 parsed && Master.truthy (GS1.expiryISO parsed) in
      draft
        (mkEntry (GS1.raw parsed) (GS1.gtin parsed)
           (if Master.truthy (Master.f_name match_)
            then Master.f_name match_ else "Unknown Product")
           (Master.f_rms match_)
           (Master.how match_)
           (GS1.expiry parsed) (GS1.expiryISO parsed)
           (GS1.expiryDisplay parsed)
           (GS1.batch parsed) (GS1.serial parsed)
           1 "" "" now)
        isGS1.

(** The counters [exp], [soon] and [ok] of [refreshStats] after its loop
    over the history; the clock and the zone are those of [GS1.status]. *)
Definition refreshStats (SOON tz now : Z) (hist : list entry) : Z * Z * Z :=
  fold_left
    (fun '(exp, soon, ok) h =>
       match GS1.status SOON tz now (expiryISO h) with
       | GS1.expired => (exp + 1, soon, ok)
       | GS1.expiring => (exp, soon + 1, ok)
       | GS1.ok => (exp, soon, ok + 1)
       | GS1.unknown => (exp, soon, ok)
       end)
    hist (0, 0, 0).

(** The strings that [GS1.status] returns *)
Definition status_name (st : GS1.Status) : string :=
  match st with
  | GS1.unknown => "unknown"
  | GS1.expired => "expired"
  | GS1.expiring => "expiring"
  | GS1.ok => "ok"
  end.

(** [hist.sort((a,b)=>b.ts-a.ts)]: the sort of an array is stable, so the
    outcome is that of an insertion sort that keeps rows of equal [ts] in
    their order. *)
Fixpoint insert_by_ts (h : entry) (l : list entry) : list entry :=
  match l with
  | [] => [h]
  | x :: l' => if ts h <? ts x then x :: insert_by_ts h l' else h :: l
  end.

Definition sort_by_ts (hist : list entry) : list entry :=
  fold_right insert_by_ts [] hist.

(** [toLowerCase] on a code unit below 128; the model leaves the other
    code units as they are. *)
Definition toLowerCase_char (c : ascii) : ascii :=
  if (65 <=? JS.code c) && (JS.code c <=? 90)
  then ascii_of_N (N_of_ascii c + 32) else c.

Definition toLowerCase : string -> string := map_chars toLowerCase_char.

(** The rows that [refreshHistory] renders, for the filter [S.filter]
    and the search text [S.search] *)
Definition refreshHistory (SOON tz now : Z) (filter search : string)
  (hist : list entry) : list entry :=
  let hist := sort_by_ts hist in
  let hist :=
    if negb (String.eqb filter "all") then
      List.filter
        (fun h =>
           if String.eqb filter "unknown"
           then negb (Master.truthy (expiryISO h))
           else String.eqb (status_name (GS1.status SOON tz now (expiryISO h)))
                           filter)
        hist
    else hist in
  if Master.truthy search then
    let q := toLowerCase search in
    List.filter
      (fun h =>
         includes q (toLowerCase (name h)) || includes q (gtin h)
         || includes q (toLowerCase (batch h)) || includes q (rms h))
      hist
  else hist.

End App.

(** ** [PharmacyDatabase] of [enhanced_pharmacy_app.js]: the product lookup *)

Module PharmacyDatabase.
Import JS Unified.

Inductive Store : Set := products | inventory_units | barcode_lookup.

(** The names of the indexes that [init] creates on each object store
    of a fresh database.  The key path of a store is not an index. *)
Definition indexNames (storeName : Store) : list string :=
  match storeName with
  | products => ["gtin"; "legacy"; "ean13"; "name"]
  | inventory_units => ["product_id"; "serial"; "batch"; "expiry"; "status"]
  | barcode_lookup => ["product_id"]
  end.

(** How a promise of the database settles: with a value, or rejected
    with the [NotFoundError] that [store.index(name)] throws when the
    store has no index of that name. *)
Inductive settled (A : Type) : Type :=
| resolved (a : A)
| rejected.
Arguments resolved {A} a.
Arguments rejected {A}.

(** The content of the database, as the two requests used here see it:
    [store.get(key)] and [index.get(value)], each giving the first
    matching record or [undefined].  [product_id] reads the field of
    that name of a record. *)
Record content (R : Type) : Type := mkContent {
  by_key : Store -> string -> option R;
  by_index : Store -> string -> string -> option R;
  product_id : R -> string
}.
Arguments by_key {R} c _ _.
Arguments by_index {R} c _ _ _.
Arguments product_id {R} c _.

Definition getByIndex {R} (db : content R) (storeName : Store)
  (indexName value : string) : settled (option R) :=
  if bool_decide (indexName ∈ indexNames storeName)
  then resolved (by_index db storeName indexName value)
  else rejected.

(** One of the three direct lookups of [lookupProduct]: skipped when
    the field is not set, answered when a record is found, and
    otherwise left to what follows *)
Definition direct {R A} (db : content R) (field : option string)
  (indexName : string) (answer : R -> A) (next : settled (option A))
  : settled (option A) :=
  if truthy field then
    match getByIndex db products indexName (default "" field) with
    | rejected => rejected
    | resolved (Some found) => resolved (Some (answer found))
    | resolved None => next
    end
  else next.

(** [lookupProduct(barcode)]: [null], or the object with the fields
    [product] (which is [undefined] when the lookup row names a product
    that the store does not hold) and [parsed] *)
Definition lookupProduct {R} (db : content R) (barcode : string)
  : settled (option (option R * data)) :=
  let parsed := parse barcode in
  let productId := getProductId parsed in
  if negb (truthy productId) then resolved None
  else
    match getByIndex db barcode_lookup "barcode_value" barcode with
    | rejected => rejected
    | resolved (Some lookupResult) =>
        resolved (Some (by_key db products (product_id db lookupResult),
                        parsed))
    | resolved None =>
        direct db (gtin parsed) "gtin" (fun p => (Some p, parsed))
          (direct db (legacy parsed) "legacy" (fun p => (Some p, parsed))
             (direct db (ean13 parsed) "ean13" (fun p => (Some p, parsed))
                (resolved None)))
    end.

End PharmacyDatabase.

(** ** The master file: [uploadMaster] and [DB.bulkMaster] of [app.js] *)

Module Upload.
Import JS.

(** [s.split(d)] for a separator [d] of one character *)
Fixpoint split (d : ascii) (s : string) : list string :=
  match s with
  | EmptyString => [EmptyString]
  | String c s' =>
      if Ascii.eqb c d then EmptyString :: split d s'
      else match split d s' with
           | piece :: pieces => String c piece :: pieces
           | [] => [String c EmptyString]
           end
  end.

Definition is_newline (c : ascii) : bool :=
  (JS.code c =? 13) || (JS.code c =? 10).

(** [s.split(/[\r\n]+/)]; [in_run] tells that the character before was
    a line break, so that a run of line breaks separates once. *)
Fixpoint split_lines_from (in_run : bool) (s : string) : list string :=
  match s with
  | EmptyString => [EmptyString]
  | String c s' =>
      if is_newline c then
        if in_run then split_lines_from true s'
        else EmptyString :: split_lines_from true s'
      else match split_lines_from false s' with
           | piece :: pieces => String c piece :: pieces
           | [] => [String c EmptyString]
           end
  end.

Definition split_lines : string -> list string := split_lines_from false.

Definition not_quote (c : ascii) : bool :=
  negb (Ascii.eqb c "'" || Ascii.eqb c "034").

(** [c.trim()] followed by the [replace] that removes every single and
    every double quote *)
Definition unquote (c : string) : string := keep_chars not_quote (trim c).

Definition mem (c : string) (names : list string) : bool :=
  existsb (String.eqb c) names.

(** [cols.findIndex(c => names.includes(c))]; [None] is [-1] *)
Fixpoint findIndex (names cols : list string) : option nat :=
  match cols with
  | [] => None
  | c :: cols' =>
      if mem c names then Some 0%nat
      else option_map S (findIndex names cols')
  end.

(** [row[i]], where [undefined] is read as the empty string (both are
    falsy, and [Master.build] reads an absent name or rms as empty) *)
Definition cell (row : list string) (i : nat) : string := nth i row "".

Definition column (row : list string) (i : option nat) : string :=
  match i with Some i => cell row i | None => "" end.

(** The body of the loop over the data lines: the item pushed for a
    line, if any *)
Definition item_of (delim : ascii) (bi : nat) (ni ri : option nat)
  (line : string) : option Master.item :=
  let row := map unquote (split delim line) in
  let bc := cell row bi in
  if Master.truthy bc && (8 <=? length (keep_chars is_digit bc))%nat
  then Some (Master.mkItem bc (column row ni) (column row ri))
  else None.

Inductive outcome : Type :=
| file_too_short
| no_barcode_column
| items_stored (items : list Master.item) (n : nat).

(** [DB.bulkMaster(items)]: the number of rows put into the store *)
Definition bulkMaster (items : list Master.item) : nat :=
  List.length (List.filter (fun it => Master.truthy (Master.barcode it)) items).

(** [uploadMaster(file)] up to the call of [refreshMasterCount]: the
    toast of an early return, or the array [items] with the count that
    [DB.bulkMaster] reports for it.  [text] is the text of the file. *)
Definition uploadMaster (text : string) : outcome :=
  let lines := split_lines (trim text) in
  if (List.length lines <? 2)%nat then file_too_short
  else
    let header := nth 0 lines "" in
    let delim := if includes (String "009" "") header
                 then "009"%char else ","%char in
    let cols := map unquote (split delim (App.toLowerCase header)) in
    let bi := findIndex ["barcode"; "gtin"; "ean"; "upc"; "code"] cols in
    let ni := findIndex ["name"; "description"; "product"; "productname"] cols in
    let ri := findIndex ["rms"; "rmscode"; "rms_code"] cols in
    match bi with
    | None => no_barcode_column
    | Some bi =>
        let items := omap (item_of delim bi ni ri) (List.tl lines) in
        items_stored items (bulkMaster items)
    end.

End Upload.

(** * Vocabulary of the statements *)

Section Vocabulary.
Import JS OCR Master GS1.

(** What the three chained calls do to one character of the text *)
Definition normalise_char (c : ascii) : ascii :=
  O_to_0 (bar_I_l_to_1 (toUpperCase_char c)).

(** The barcode of a row with the non-digits removed *)
Definition stripped (it : item) : string := keep_chars is_digit (barcode it).

(** Rows that [build] does not skip *)
Definition retained (it : item) : Prop := (8 <= length (stripped it))%nat.

Definition registered (S : index) (k : string) : Prop :=
  is_Some (masterIndex S !! k).

Definition rms_at (S : index) (k : string) : string :=
  match masterRMS S !! k with Some r => r | None => "" end.

Definition name_after (it : item) (ks : list string)
  (old : option string) (k : string) : option string :=
  match old with
  | Some v => Some v
  | None => if bool_decide (k ∈ ks) then Some (name it) else None
  end.

Definition rms_after (it : item) (ks : list string)
  (old : option string) (k : string) : option string :=
  match old with
  | Some v => Some v
  | None => if truthy (rms it) && bool_decide (k ∈ ks)
            then Some (rms it) else None
  end.

Definition hasParens (raw : string) : bool := includes "(" (code_of raw).

Definition hasRawGS1 (raw : string) : bool :=
  startsWith "01" (code_of raw)
  && bool_decide (is_Some (digits_here 14 (drop 2 (code_of raw)))).

(** A position of [code] where the AI "01" stands, followed by [g] *)
Definition after_01 (code g : string) : Prop :=
  exists p, substring p (p + 2) code = "01"
            /\ g = substring (p + 2) (p + 16) code.

(** The number written by a two-digit string *)
Definition two_digits (s : string) : Z :=
  match s with
  | String a (String b EmptyString) => 10 * digit_of a + digit_of b
  | _ => 0
  end.

(** The text [y-mm-dd] that [_expiry] builds from three numbers *)
Definition iso_string (y m d : Z) : string :=
  toString (Some y) +:+ "-" +:+ pad2 (Some m) +:+ "-" +:+ pad2 (Some d).

(** The number of the local calendar day that holds the instant [t] *)
Definition local_day (tz t : Z) : Z := (t + tz * 60000) / msPerDay.

Definition not_GS (c : ascii) : bool := negb (Ascii.eqb c GS).

(** The loop of [scan] stated on what is left of [code] from [pos] on *)
Fixpoint scan_suffix (fuel : nat) (suf : string) (r : result)
  : option result :=
  match fuel with
  | O => None
  | S fuel' =>
      match suf with
      | EmptyString => Some r
      | String c _ =>
          if Ascii.eqb c GS then scan_suffix fuel' (drop 1 suf) r
          else
            let ai := take 2 suf in
            if String.eqb ai "01" then
              scan_suffix fuel' (drop 16 suf)
                          (set_gtin (take 14 (drop 2 suf)) r)
            else if String.eqb ai "17" then
              scan_suffix fuel' (drop 8 suf)
                          (_expiry (take 6 (drop 2 suf)) r)
            else if String.eqb ai "10" then
              let v := take_while not_GS (drop 2 suf) in
              scan_suffix fuel' (drop (2 + length v) suf)
                          (set_batch (clean v) r)
            else if String.eqb ai "21" then
              let v := take_while not_GS (drop 2 suf) in
              scan_suffix fuel' (drop (2 + length v) suf)
                          (set_serial (clean v) r)
            else scan_suffix fuel' (drop 1 suf) r
      end
  end.

(** What ends a variable-length field: the end of the input or a
    separator *)
Definition field_end (rest : string) : Prop :=
  match rest with
  | EmptyString => True
  | String c _ => c = GS
  end.

(** A matcher that can only succeed on an opening parenthesis *)
Definition needs_paren (m : string -> option string) : Prop :=
  m "" = None /\ forall c s, not_paren c = true -> m (String c s) = None.

Definition m_digits (tag : string) (n : nat) (s : string) : option string :=
  if startsWith tag s then digits_here n (drop (length tag) s) else None.

Definition m_to_paren (tag : string) (s : string) : option string :=
  if startsWith tag s
  then match take_while not_paren (drop (length tag) s) with
       | EmptyString => None
       | run => Some run
       end
  else None.

Definition GSs : string := String GS EmptyString.

(** The parenthesised encoding of a GTIN, an expiry, a batch and a
    serial *)
Definition parenthesized (g e b s : string) : string :=
  "(01)" +:+ g +:+ "(17)" +:+ e +:+ "(10)" +:+ b +:+ "(21)" +:+ s.

(** The positional encoding of the same values: a separator ends the
    variable-length batch; with [sep] set, one follows the GTIN and the
    expiry too. *)
Definition positional (sep : bool) (g e b s : string) : string :=
  let gs := if sep then GSs else "" in
  "01" +:+ g +:+ gs +:+ "17" +:+ e +:+ gs +:+ "10" +:+ b +:+ GSs
       +:+ "21" +:+ s.

(** Characters of a batch or serial value: no opening parenthesis and
    no separator *)
Definition field_char (c : ascii) : bool := not_paren c && not_GS c.

(** The cleaned value of a batch and of the serial that ends the input *)
Definition inner (b : string) : string := keep_chars not_crlftab b.

Definition last (s : string) : string := keep_chars not_crlftab (trimEnd s).

(** One AI and its value in the parenthesised text *)
Definition field (tag v rest : string) : string :=
  String "(" (tag +:+ v +:+ rest).

(** A batch or serial value as [GS1.clean] leaves it: at most 20
    printable characters, the first of which is not a space *)
Definition clean_token (v : string) : Prop :=
  (length v <= 20)%nat /\ all_chars is_printable v = true
  /\ match v with
     | EmptyString => True
     | String c _ => is_space c = false
     end.

Definition with_raw (x : string) (r : result) : result :=
  mkResult x (gtin r) (expiry r) (expiryISO r) (expiryDisplay r)
           (batch r) (serial r) (qty r) (isGS1 r).

(** The fields of two results other than [raw] *)
Definition same_fields (r1 r2 : result) : Prop :=
  with_raw "" r1 = with_raw "" r2.

(** How pressing a status is *)
Definition severity (st : Status) : Z :=
  match st with
  | unknown => 0
  | ok => 0
  | expiring => 1
  | expired => 2
  end.

(** A calendar date of the model is read back from its text *)
Definition iso_round_trip_ok (y m d : Z) : bool :=
  if (1 <=? d) && (d <=? days_in_month y m)
  then match Date_parse (iso_string y m d) with
       | Some t => t =? msPerDay * day_number y m d
       | None => false
       end
  else true.

Definition range (a n : nat) : list Z := map Z.of_nat (seq a n).

(** Code units on which the model of [toUpperCase] is exact *)
Definition is_ascii (c : ascii) : bool := JS.code c <? 128.

Definition is_lower (c : ascii) : bool :=
  (97 <=? JS.code c) && (JS.code c <=? 122).

(** Characters that are left in a normalised OCR text *)
Definition normalised_char (c : ascii) : bool :=
  negb (Ascii.eqb c "O") && negb (Ascii.eqb c "I") && negb (Ascii.eqb c "|")
  && negb (is_lower c).

(** What [esc] writes for one character *)
Definition esc_char (c : ascii) : string :=
  if Ascii.eqb c "&" then "&amp;"
  else if Ascii.eqb c "<" then "&lt;"
  else if Ascii.eqb c ">" then "&gt;"
  else if Ascii.eqb c "034" then "&quot;"
  else String c EmptyString.

Fixpoint concat_map (f : ascii -> string) (s : string) : string :=
  match s with
  | EmptyString => EmptyString
  | String c s' => f c +:+ concat_map f s'
  end.

(** Characters that end an HTML text or an attribute value in double
    quotes *)
Definition html_safe (c : ascii) : bool :=
  negb (Ascii.eqb c "<") && negb (Ascii.eqb c ">") && negb (Ascii.eqb c "034").

(** The rows of a history with a given status, and those with no date *)
Definition with_status (SOON tz now : Z) (st : Status) (h : App.entry) : bool :=
  String.eqb (App.status_name (status SOON tz now (App.expiryISO h)))
             (App.status_name st).

Definition without_date (h : App.entry) : bool :=
  String.eqb (App.expiryISO h) "".

Definition count (p : App.entry -> bool) (hist : list App.entry) : Z :=
  Z.of_nat (List.length (List.filter p hist)).

(** Newest first *)
Definition newer_first (a b : App.entry) : Prop := App.ts b <= App.ts a.

(** A position of [code] where the AI "17" stands, followed by [tok] *)
Definition after_17 (code tok : string) : Prop :=
  exists p, substring p (p + 2) code = "17"
            /\ tok = substring (p + 2) (p + 8) code.

(** A position of [code] where the AI [tag] stands, followed by a value
    that runs up to the next separator and is cleaned to [v] *)
Definition after_var (tag code v : string) : Prop :=
  exists p, substring p (p + 2) code = tag
            /\ v = clean (substring (p + 2) (_varEnd code (p + 2)) code).


End Vocabulary.

(** * Properties *)

(** ** Basic facts about the string primitives *)

Section StringFacts.
Import JS.

Lemma length_app (s t : string) :
  length (s +:+ t) = (length s + length t)%nat.
Proof. induction s as [|c s IH]; simpl; [reflexivity | now rewrite IH]. Qed.

Lemma app_assoc (s t u : string) : (s +:+ t) +:+ u = s +:+ (t +:+ u).
Proof. induction s as [|c s IH]; simpl; [reflexivity | now rewrite IH]. Qed.

Lemma app_empty_r (s : string) : s +:+ "" = s.
Proof. induction s as [|c s IH]; simpl; [reflexivity | now rewrite IH]. Qed.

Lemma length_zero (s : string) : length s = 0%nat -> s = "".
Proof. destruct s; [reflexivity | discriminate]. Qed.

Lemma length_repeat (c : ascii) (n : nat) : length (repeat c n) = n.
Proof. induction n as [|n IH]; simpl; [reflexivity | now rewrite IH]. Qed.

Lemma length_take (n : nat) (s : string) :
  length (take n s) = Nat.min n (length s).
Proof.
  revert s; induction n as [|n IH]; intros [|c s]; simpl; try reflexivity.
  now rewrite IH.
Qed.

Lemma length_drop (n : nat) (s : string) :
  length (drop n s) = (length s - n)%nat.
Proof.
  revert s; induction n as [|n IH]; intros [|c s]; simpl; try reflexivity.
  now rewrite IH.
Qed.

Lemma take_app_length (s t : string) : take (length s) (s +:+ t) = s.
Proof. induction s as [|c s IH]; simpl; [now destruct t | now rewrite IH]. Qed.

Lemma drop_app_length (s t : string) : drop (length s) (s +:+ t) = t.
Proof. induction s as [|c s IH]; simpl; [reflexivity | exact IH]. Qed.

Lemma drop_drop (n m : nat) (s : string) :
  drop n (drop m s) = drop (m + n) s.
Proof.
  revert s; induction m as [|m IH]; intros s; simpl; [reflexivity|].
  destruct s as [|c s]; [now destruct n | apply IH].
Qed.

Lemma take_all (n : nat) (s : string) : (length s <= n)%nat -> take n s = s.
Proof.
  revert s; induction n as [|n IH]; intros [|c s] H; simpl in *;
    try reflexivity; [lia | rewrite IH; [reflexivity | lia]].
Qed.

Lemma drop_all (n : nat) (s : string) : (length s <= n)%nat -> drop n s = "".
Proof.
  revert s; induction n as [|n IH]; intros [|c s] H; simpl in *;
    try reflexivity; [lia | apply IH; lia].
Qed.

Lemma substring_le (a b : nat) (s : string) :
  (a <= b)%nat -> substring a b s = take (b - a) (drop a s).
Proof.
  intros H. unfold substring.
  now rewrite Nat.max_r, Nat.min_l by lia.
Qed.

Lemma length_keep_chars_le (p : ascii -> bool) (s : string) :
  (length (keep_chars p s) <= length s)%nat.
Proof. induction s as [|c s IH]; simpl; [lia | destruct (p c); simpl; lia]. Qed.

Lemma keep_chars_app (p : ascii -> bool) (s t : string) :
  keep_chars p (s +:+ t) = keep_chars p s +:+ keep_chars p t.
Proof.
  induction s as [|c s IH]; simpl; [reflexivity|].
  destruct (p c); simpl; now rewrite IH.
Qed.

Lemma keep_chars_all (p : ascii -> bool) (s : string) :
  all_chars p s = true -> keep_chars p s = s.
Proof.
  induction s as [|c s IH]; simpl; [reflexivity|].
  intros [Hc Hs]%andb_true_iff. rewrite Hc. now rewrite IH.
Qed.

Lemma all_chars_keep_chars (p q : ascii -> bool) (s : string) :
  all_chars p s = true -> all_chars p (keep_chars q s) = true.
Proof.
  induction s as [|c s IH]; simpl; [reflexivity|].
  intros [Hc Hs]%andb_true_iff.
  destruct (q c); simpl; [rewrite Hc|]; auto.
Qed.

Lemma all_chars_app (p : ascii -> bool) (s t : string) :
  all_chars p (s +:+ t) = all_chars p s && all_chars p t.
Proof.
  induction s as [|c s IH]; simpl; [reflexivity|].
  now rewrite IH, andb_assoc.
Qed.

Lemma all_chars_impl (p q : ascii -> bool) (s : string) :
  (forall c, p c = true -> q c = true) ->
  all_chars p s = true -> all_chars q s = true.
Proof.
  intros Hpq. induction s as [|c s IH]; simpl; [reflexivity|].
  intros [Hc Hs]%andb_true_iff. rewrite (Hpq _ Hc). auto.
Qed.

Lemma all_chars_take (p : ascii -> bool) (n : nat) (s : string) :
  all_chars p s = true -> all_chars p (take n s) = true.
Proof.
  revert s; induction n as [|n IH]; intros [|c s]; simpl; auto.
  intros [Hc Hs]%andb_true_iff. rewrite Hc. simpl. auto.
Qed.

Lemma all_chars_drop (p : ascii -> bool) (n : nat) (s : string) :
  all_chars p s = true -> all_chars p (drop n s) = true.
Proof.
  revert s; induction n as [|n IH]; intros [|c s]; simpl; auto.
  intros [Hc Hs]%andb_true_iff. auto.
Qed.

End StringFacts.

(** ** The parenthesised example *)

(** C1: parsing "(01)00012345678905(17)260630(10)BATCH1(21)SER99" gives
    gtin "00012345678905", raw expiry token "260630", expiry date
    2026-06-30, batch "BATCH1" and serial "SER99"; this holds for
    [GS1.parse] and for [UnifiedBarcodeParser.parse], and the ISO string
    denotes the calendar day 30 June 2026. *)
Theorem C1_parenthesized_example :
  let input := "(01)00012345678905(17)260630(10)BATCH1(21)SER99" in
  let r := GS1.parse input in
  let u := Unified.parse input in
  (GS1.gtin r = "00012345678905" /\ GS1.expiry r = "260630"
   /\ GS1.expiryISO r = "2026-06-30" /\ GS1.batch r = "BATCH1"
   /\ GS1.serial r = "SER99")
  /\ (Unified.gtin u = Some "00012345678905"
      /\ Unified.expiryRaw u = Some "260630"
      /\ Unified.expiry u = Some "2026-06-30"
      /\ Unified.batch u = Some "BATCH1" /\ Unified.serial u = Some "SER99")
  /\ JS.Date_parse "2026-06-30" = Some (JS.msPerDay * JS.day_number 2026 6 30).
Proof. vm_compute. repeat split. Qed.

(** ** Normalisation of OCR text *)

Section Normalise.
Import JS OCR.

Lemma map_chars_map_chars (f g : ascii -> ascii) (s : string) :
  map_chars f (map_chars g s) = map_chars (fun c => f (g c)) s.
Proof. induction s as [|c s IH]; simpl; [reflexivity | now rewrite IH]. Qed.

Lemma normalise_map (text : string) :
  normalise text = map_chars normalise_char text.
Proof.
  unfold normalise, toUpperCase. now rewrite !map_chars_map_chars.
Qed.

(** The confusions that are corrected: the bar, both cases of I and
    both cases of O. *)
Lemma normalise_corrected :
  normalise_char "|" = "1"%char /\ normalise_char "I" = "1"%char
  /\ normalise_char "i" = "1"%char /\ normalise_char "O" = "0"%char
  /\ normalise_char "o" = "0"%char.
Proof. vm_compute. repeat split. Qed.

End Normalise.

(** C10: the text is put in upper case first, so a lower-case l reaches
    the replacement of [|Il] as "L" and is not turned into "1": on "l" the
    normalised text is "L", and "EXP 2606l5" becomes "EXP 2606L5", which
    holds no six-digit token. *)
Theorem C10_lowercase_l_not_corrected :
  OCR.normalise "l" = "L"
  /\ OCR.normalise "l" <> "1"
  /\ OCR.normalise "EXP 2606l5" = "EXP 2606L5"
  /\ OCR.normalise "|I" = "11" /\ OCR.normalise "O" = "0".
Proof. vm_compute. repeat split. discriminate. Qed.

(** ** Format detection *)

Section Detect.
Import JS Unified.

(** C4, as stated, fails: "0117000000000000999" is classified as
    positional GS1 although the remainder after the GTIN body, "999",
    holds none of the tokens (the "17" is inside the body); and
    "01(01)0123456789" has 14 digits, starts with "01" and is 16
    characters long, yet is classified as parenthesised GS1. *)
Lemma C4_counterexample :
  (let raw := "0117000000000000999" in
   detectFormat raw = GS1_FULL
   /\ includes "17" (drop 16 raw) = false
   /\ includes "21" (drop 16 raw) = false
   /\ includes "10" (drop 16 raw) = false)
  /\ (let raw := "01(01)0123456789" in
      startsWith "01" raw = true /\ length raw = 16%nat
      /\ length (keep_chars is_digit raw) = 14%nat
      /\ detectFormat raw = GS1_PARENTHESIZED).
Proof. vm_compute. repeat split. Qed.

Lemma detect_full_iff (raw : string) :
  detectFormat raw = GS1_FULL <->
    includes "(01)" raw = false /\ startsWith "01" raw = true
    /\ (16 < length raw)%nat
    /\ (includes "17" raw = true \/ includes "21" raw = true
        \/ includes "10" raw = true).
Proof.
  unfold detectFormat.
  destruct (includes "(01)" raw); [split; [discriminate | intros [? _]; discriminate]|].
  destruct (startsWith "01" raw); simpl.
  2:{ split; [|intros (_ & ? & _); discriminate].
      repeat match goal with |- context [if ?b then _ else _] => destruct b end;
        discriminate. }
  destruct (16 <? length raw)%nat eqn:Hlen; simpl.
  2:{ apply Nat.ltb_ge in Hlen. split; [|intros (_ & _ & ? & _); lia].
      repeat match goal with |- context [if ?b then _ else _] => destruct b end;
        discriminate. }
  apply Nat.ltb_lt in Hlen.
  destruct (includes "17" raw), (includes "21" raw), (includes "10" raw);
    simpl; try (split; [intros _; repeat split; auto | reflexivity]).
  split; [|intros (_ & _ & _ & [?|[?|?]]); discriminate].
  repeat match goal with |- context [if ?b then _ else _] => destruct b end;
    discriminate.
Qed.

Lemma detect_parenthesized_iff (raw : string) :
  detectFormat raw = GS1_PARENTHESIZED <-> includes "(01)" raw = true.
Proof.
  unfold detectFormat.
  destruct (includes "(01)" raw); [tauto|].
  split; [|discriminate].
  repeat match goal with |- context [if ?b then _ else _] => destruct b end;
    discriminate.
Qed.

(** C4, amended: [detectFormat] answers positional GS1 exactly when the
    input does not contain "(01)", starts with "01", is longer than 16
    characters and contains "17", "21" or "10" anywhere (the GTIN body
    included); and an input of at most 16 characters that does not
    contain "(01)" and has 14 digits is classified GTIN14. *)
Theorem C4_detect_positional (raw : string) :
  (detectFormat raw = GS1_FULL <->
     includes "(01)" raw = false /\ startsWith "01" raw = true
     /\ (16 < length raw)%nat
     /\ (includes "17" raw = true \/ includes "21" raw = true
         \/ includes "10" raw = true))
  /\ ((length raw <= 16)%nat -> includes "(01)" raw = false ->
      length (keep_chars is_digit raw) = 14%nat ->
      detectFormat raw = GTIN14).
Proof.
  split; [apply detect_full_iff|].
  intros Hlen Hpar Hdig. unfold detectFormat. rewrite Hpar.
  replace (16 <? length raw)%nat with false
    by (symmetry; apply Nat.ltb_ge; lia).
  rewrite andb_false_r. simpl. now rewrite Hdig.
Qed.

Lemma C4_detect_positional_witness :
  detectFormat "01234567890123" = GTIN14.
Proof.
  apply (proj2 (C4_detect_positional "01234567890123"));
    [vm_compute; lia | reflexivity | reflexivity].
Defined.

End Detect.

(** ** The catalogue index *)

Section Catalogue.
Import JS Master.

Lemma truthy_length (s : string) : (0 < length s)%nat -> truthy s = true.
Proof. destruct s; simpl; [lia | reflexivity]. Qed.

Lemma eqb_length_ne (s t : string) :
  length s <> length t -> String.eqb s t = false.
Proof. intros H. apply String.eqb_neq. intros ->. now apply H. Qed.

Lemma length_slice_last (n : nat) (s : string) :
  (n <= length s)%nat -> length (slice_last n s) = n.
Proof. intros H. unfold slice_last. rewrite length_drop. lia. Qed.

(** [find] on a 14-character key, candidate by candidate *)
Lemma find_14 (S : index) (g : string) :
  length g = 14%nat ->
  find S g =
    match masterIndex S !! g with
    | Some n => mkFound n (rms_at S g) EXACT
    | None =>
        match (if startsWith "0" g then masterIndex S !! slice1 g else None) with
        | Some n => mkFound n (rms_at S (slice1 g)) PARTIAL
        | None =>
            match masterIndex S !! slice_last 8 g with
            | Some n => mkFound n (rms_at S (slice_last 8 g)) PARTIAL
            | None => mkFound "" "" NONE
            end
        end
    end.
Proof.
  intros Hg. unfold find, candidates, rms_at.
  assert (H1 : length (slice1 g) = 13%nat)
    by (unfold slice1; rewrite length_drop; lia).
  assert (H8 : length (slice_last 8 g) = 8%nat)
    by (apply length_slice_last; lia).
  assert (Hs1 : String.eqb (slice1 g) g = false)
    by (apply eqb_length_ne; lia).
  assert (Hs8 : String.eqb (slice_last 8 g) g = false)
    by (apply eqb_length_ne; lia).
  assert (Ht1 : truthy (slice1 g) = true) by (apply truthy_length; lia).
  assert (Ht8 : truthy (slice_last 8 g) = true) by (apply truthy_length; lia).
  rewrite (truthy_length g) by lia.
  generalize dependent (slice1 g). generalize dependent (slice_last 8 g).
  intros l8 _ Hs8 Ht8 l1 _ Hs1 Ht1.
  destruct (startsWith "0" g); cbn [negb List.filter find_loop];
    rewrite ?Ht1, ?Ht8; cbn [truthy String.eqb negb List.filter find_loop];
    rewrite ?(truthy_length g) by lia;
    cbn [truthy String.eqb negb List.filter find_loop];
    rewrite ?Hs1, ?Hs8, ?String.eqb_refl; reflexivity.
Qed.

End Catalogue.

Section Build.
Import JS Master.

Lemma register_index (it : item) (S : index) (k k' : string) :
  masterIndex (register it S k) !! k'
  = name_after it [k] (masterIndex S !! k') k'.
Proof.
  unfold register, name_after, has; simpl.
  destruct (decide (k = k')) as [->|Hne].
  - rewrite (bool_decide_eq_true_2 (k' ∈ [k'])) by set_solver.
    destruct (masterIndex S !! k') eqn:E.
    + rewrite bool_decide_eq_true_2 by eauto. exact E.
    + rewrite bool_decide_eq_false_2 by (intros [? ?]; congruence).
      apply lookup_insert_eq.
  - rewrite (bool_decide_eq_false_2 (k' ∈ [k])) by set_solver.
    case_bool_decide.
    + now destruct (masterIndex S !! k').
    + rewrite lookup_insert_ne by exact Hne.
      now destruct (masterIndex S !! k').
Qed.

Lemma register_rms (it : item) (S : index) (k k' : string) :
  masterRMS (register it S k) !! k'
  = rms_after it [k] (masterRMS S !! k') k'.
Proof.
  unfold register, rms_after, has; simpl.
  destruct (truthy (rms it)); simpl; [|now destruct (masterRMS S !! k')].
  destruct (decide (k = k')) as [->|Hne].
  - rewrite (bool_decide_eq_true_2 (k' ∈ [k'])) by set_solver.
    destruct (masterRMS S !! k') eqn:E.
    + rewrite bool_decide_eq_true_2 by eauto. exact E.
    + rewrite bool_decide_eq_false_2 by (intros [? ?]; congruence).
      apply lookup_insert_eq.
  - rewrite (bool_decide_eq_false_2 (k' ∈ [k])) by set_solver.
    case_bool_decide; simpl.
    + now destruct (masterRMS S !! k').
    + rewrite lookup_insert_ne by exact Hne.
      now destruct (masterRMS S !! k').
Qed.

Lemma name_after_cons it k ks old k' :
  name_after it ks (name_after it [k] old k') k' = name_after it (k :: ks) old k'.
Proof.
  unfold name_after. destruct old; [reflexivity|].
  repeat case_bool_decide; try reflexivity; set_solver.
Qed.

Lemma rms_after_cons it k ks old k' :
  rms_after it ks (rms_after it [k] old k') k' = rms_after it (k :: ks) old k'.
Proof.
  unfold rms_after. destruct old; [reflexivity|].
  destruct (truthy (rms it)); simpl; [|reflexivity].
  repeat case_bool_decide; try reflexivity; set_solver.
Qed.

(** The [forEach] over the keys of one row *)
Lemma registers_index (it : item) (ks : list string) (S : index) (k' : string) :
  masterIndex (fold_left (register it) ks S) !! k'
  = name_after it ks (masterIndex S !! k') k'.
Proof.
  revert S; induction ks as [|k ks IH]; intros S; simpl.
  - unfold name_after. destruct (masterIndex S !! k'); [reflexivity|].
    now rewrite bool_decide_eq_false_2 by set_solver.
  - now rewrite IH, register_index, name_after_cons.
Qed.

Lemma registers_rms (it : item) (ks : list string) (S : index) (k' : string) :
  masterRMS (fold_left (register it) ks S) !! k'
  = rms_after it ks (masterRMS S !! k') k'.
Proof.
  revert S; induction ks as [|k ks IH]; intros S; simpl.
  - unfold rms_after. destruct (masterRMS S !! k'); [reflexivity|].
    rewrite (bool_decide_eq_false_2 (k' ∈ [])) by set_solver.
    now rewrite andb_false_r.
  - now rewrite IH, register_rms, rms_after_cons.
Qed.

Lemma build_step_skip (S : index) (it : item) :
  (length (stripped it) < 8)%nat -> build_step S it = S.
Proof.
  intros H. unfold build_step. fold (stripped it).
  replace (length (stripped it) <? 8)%nat with true
    by (symmetry; apply Nat.ltb_lt; exact H).
  now rewrite orb_true_r.
Qed.

Lemma build_step_retained (S : index) (it : item) :
  retained it ->
  build_step S it = fold_left (register it) (keys_of (stripped it)) S.
Proof.
  intros H. unfold retained in H. unfold build_step. fold (stripped it).
  replace (length (stripped it) <? 8)%nat with false
    by (symmetry; apply Nat.ltb_ge; exact H).
  rewrite truthy_length by lia. reflexivity.
Qed.

End Build.

Section BuildFacts.
Import JS Master.

Lemma length_padStart (n : nat) (c : ascii) (s : string) :
  length (padStart n c s) = Nat.max n (length s).
Proof. unfold padStart. rewrite length_app, length_repeat. lia. Qed.

Lemma slice_last_padStart (n m : nat) (c : ascii) (s : string) :
  (n <= length s)%nat ->
  slice_last n (padStart m c s) = slice_last n s.
Proof.
  intros H. unfold slice_last. rewrite length_padStart.
  unfold padStart.
  replace (Nat.max m (length s) - n)%nat
    with (length (repeat c (m - length s)) + (length s - n))%nat
    by (rewrite length_repeat; lia).
  now rewrite <- drop_drop, drop_app_length.
Qed.

(** The keys of a retained row *)
Lemma keys_of_retained (bc k : string) :
  (8 <= length bc)%nat ->
  let g14 := padStart 14 "0" bc in
  (List.length (keys_of bc) <= 4)%nat
  /\ (k ∈ keys_of bc <->
      k = bc \/ k = g14 \/ (startsWith "0" g14 = true /\ k = slice1 g14)
      \/ k = slice_last 8 g14).
Proof.
  intros Hbc g14.
  assert (Hg : (14 <= length g14)%nat)
    by (subst g14; rewrite length_padStart; lia).
  assert (H8 : slice_last 8 g14 = slice_last 8 bc)
    by (apply slice_last_padStart; exact Hbc).
  assert (T0 : truthy bc = true) by (apply truthy_length; lia).
  assert (T1 : truthy g14 = true) by (apply truthy_length; lia).
  assert (T2 : truthy (slice1 g14) = true).
  { apply truthy_length. unfold slice1. rewrite length_drop. lia. }
  assert (T3 : truthy (slice_last 8 bc) = true).
  { apply truthy_length. rewrite length_slice_last; lia. }
  unfold keys_of. fold g14. rewrite H8.
  destruct (startsWith "0" g14); cbn [List.filter];
    rewrite T0, T1, ?T2, T3; cbn [truthy String.eqb negb List.filter List.length];
    (split; [lia | set_solver]).
Qed.

Lemma build_step_index (S : index) (it : item) (k : string) :
  masterIndex (build_step S it) !! k
  = if bool_decide (retained it)
    then name_after it (keys_of (stripped it)) (masterIndex S !! k) k
    else masterIndex S !! k.
Proof.
  case_bool_decide as H.
  - now rewrite build_step_retained, registers_index.
  - rewrite build_step_skip; [reflexivity | unfold retained in H; lia].
Qed.

Lemma build_step_rms (S : index) (it : item) (k : string) :
  masterRMS (build_step S it) !! k
  = if bool_decide (retained it)
    then rms_after it (keys_of (stripped it)) (masterRMS S !! k) k
    else masterRMS S !! k.
Proof.
  case_bool_decide as H.
  - now rewrite build_step_retained, registers_rms.
  - rewrite build_step_skip; [reflexivity | unfold retained in H; lia].
Qed.

(** No later row overwrites a registration, in either map. *)
Lemma build_keeps_index (l : list item) (S : index) (k v : string) :
  masterIndex S !! k = Some v ->
  masterIndex (fold_left build_step l S) !! k = Some v.
Proof.
  revert S; induction l as [|it l IH]; intros S H; simpl; [exact H|].
  apply IH. rewrite build_step_index, H. now case_bool_decide.
Qed.

Lemma build_keeps_rms (l : list item) (S : index) (k v : string) :
  masterRMS S !! k = Some v ->
  masterRMS (fold_left build_step l S) !! k = Some v.
Proof.
  revert S; induction l as [|it l IH]; intros S H; simpl; [exact H|].
  apply IH. rewrite build_step_rms, H. now case_bool_decide.
Qed.

(** Rows that do not claim [k] leave its name alone. *)
Lemma build_unclaimed_index (l : list item) (S : index) (k : string) :
  (forall it, it ∈ l -> retained it -> k ∉ keys_of (stripped it)) ->
  masterIndex (fold_left build_step l S) !! k = masterIndex S !! k.
Proof.
  revert S; induction l as [|it l IH]; intros S H; simpl; [reflexivity|].
  rewrite IH by (intros; apply H; [set_solver | assumption]).
  rewrite build_step_index. case_bool_decide as Hr; [|reflexivity].
  unfold name_after. destruct (masterIndex S !! k); [reflexivity|].
  rewrite bool_decide_eq_false_2; [reflexivity|].
  apply H; [set_solver | exact Hr].
Qed.

(** Rows that claim [k] without an rms leave its rms alone. *)
Lemma build_unclaimed_rms (l : list item) (S : index) (k : string) :
  (forall it, it ∈ l -> retained it -> k ∈ keys_of (stripped it) ->
              rms it = "") ->
  masterRMS (fold_left build_step l S) !! k = masterRMS S !! k.
Proof.
  revert S; induction l as [|it l IH]; intros S H; simpl; [reflexivity|].
  rewrite IH by (intros; apply H; [set_solver | assumption | assumption]).
  rewrite build_step_rms. case_bool_decide as Hr; [|reflexivity].
  unfold rms_after. destruct (masterRMS S !! k); [reflexivity|].
  case_bool_decide as Hk; [|now rewrite andb_false_r].
  rewrite (H it) by (set_solver || assumption). reflexivity.
Qed.

(** [Master.find] can pair the name of one row with the rms of another:
    C6, as stated, fails on "never merges". *)
Lemma C6_counterexample :
  let first := mkItem "12345678" "Panadol" "" in
  let later := mkItem "12345678" "Brufen" "R-2" in
  let S := build [first; later] in
  masterIndex S !! "12345678" = Some "Panadol"
  /\ masterRMS S !! "12345678" = Some "R-2"
  /\ find S "00000012345678" = mkFound "Panadol" "R-2" EXACT.
Proof. vm_compute. repeat split. Qed.

End BuildFacts.

(** C6, amended: [build] skips every row whose stripped barcode has fewer
    than 8 digits; a retained row is registered under at most four keys,
    which are the stripped digits, the zero-padded form, that form
    without its leading zero when it starts with "0", and the last 8
    digits of the padded form, and these are the only keys it adds; a
    registration is never overwritten, in the name map nor in the rms
    map; the name of a key is that of the first retained row claiming it,
    and its rms is that of the first retained row claiming it with a
    non-empty rms (so name and rms of one key may stem from two rows). *)
Theorem C6_build :
  (forall S it, (JS.length (stripped it) < 8)%nat -> Master.build_step S it = S)
  /\ (forall it k, retained it ->
        let bc := stripped it in
        let g14 := JS.padStart 14 "0" bc in
        (List.length (Master.keys_of bc) <= 4)%nat
        /\ (k ∈ Master.keys_of bc <->
            k = bc \/ k = g14
            \/ (JS.startsWith "0" g14 = true /\ k = JS.slice1 g14)
            \/ k = JS.slice_last 8 g14))
  /\ (forall S it k, retained it ->
        (registered (Master.build_step S it) k <->
         registered S k \/ k ∈ Master.keys_of (stripped it)))
  /\ (forall l1 l2 k v,
        Master.masterIndex (Master.build l1) !! k = Some v ->
        Master.masterIndex (Master.build (l1 ++ l2)) !! k = Some v)
  /\ (forall l1 l2 k v,
        Master.masterRMS (Master.build l1) !! k = Some v ->
        Master.masterRMS (Master.build (l1 ++ l2)) !! k = Some v)
  /\ (forall l1 it l2 k,
        retained it -> k ∈ Master.keys_of (stripped it) ->
        (forall it', it' ∈ l1 -> retained it' ->
                     k ∉ Master.keys_of (stripped it')) ->
        Master.masterIndex (Master.build (l1 ++ it :: l2)) !! k
        = Some (Master.name it))
  /\ (forall l1 it l2 k,
        retained it -> k ∈ Master.keys_of (stripped it) ->
        Master.rms it <> "" ->
        (forall it', it' ∈ l1 -> retained it' ->
                     k ∈ Master.keys_of (stripped it') -> Master.rms it' = "") ->
        Master.masterRMS (Master.build (l1 ++ it :: l2)) !! k
        = Some (Master.rms it)).
Proof.
  split_and!.
  - exact build_step_skip.
  - intros it k Hr. apply keys_of_retained. exact Hr.
  - intros S it k Hr. unfold registered.
    rewrite build_step_index, bool_decide_eq_true_2 by exact Hr.
    unfold name_after. destruct (Master.masterIndex S !! k) as [v|].
    + split; [intros _; left; eauto | eauto].
    + case_bool_decide as Hk.
      * split; [intros _; right; exact Hk | eauto].
      * split; [intros [? ?]; discriminate | intros [[? ?]|?]; [discriminate | tauto]].
  - intros l1 l2 k v H. unfold Master.build. rewrite fold_left_app.
    now apply build_keeps_index.
  - intros l1 l2 k v H. unfold Master.build. rewrite fold_left_app.
    now apply build_keeps_rms.
  - intros l1 it l2 k Hr Hk Hfirst. unfold Master.build.
    rewrite fold_left_app. simpl. apply build_keeps_index.
    rewrite build_step_index, bool_decide_eq_true_2 by exact Hr.
    rewrite build_unclaimed_index by exact Hfirst.
    unfold name_after. simpl. rewrite lookup_empty.
    now rewrite bool_decide_eq_true_2 by exact Hk.
  - intros l1 it l2 k Hr Hk Hrms Hfirst. unfold Master.build.
    rewrite fold_left_app. simpl. apply build_keeps_rms.
    rewrite build_step_rms, bool_decide_eq_true_2 by exact Hr.
    rewrite build_unclaimed_rms by exact Hfirst.
    unfold rms_after. simpl. rewrite lookup_empty.
    rewrite bool_decide_eq_true_2 by exact Hk.
    replace (Master.truthy (Master.rms it)) with true; [reflexivity|].
    unfold Master.truthy. symmetry. apply negb_true_iff.
    now apply String.eqb_neq.
Qed.

Lemma C6_build_witness :
  let zyrtec := Master.mkItem "6291107439358" "Zyrtec" "" in
  let other := Master.mkItem "06291107439358" "Other" "R-9" in
  Master.masterIndex (Master.build ([] ++ zyrtec :: [other])) !! "07439358"
  = Some "Zyrtec".
Proof.
  intros zyrtec other.
  apply (proj1 (proj2 (proj2 (proj2 (proj2 (proj2 C6_build)))))).
  - unfold retained. vm_compute. lia.
  - vm_compute. do 3 apply list_elem_of_further. apply list_elem_of_here.
  - intros it' Hin. exfalso. exact (not_elem_of_nil it' Hin).
Defined.

(** ** Structure of [GS1.parse] *)

Section ParseFacts.
Import JS GS1.

Lemma space_not_digit (c : ascii) : is_space c = true -> is_digit c = false.
Proof. destruct c as [[] [] [] [] [] [] [] []]; vm_compute; congruence. Qed.

Lemma digit_not_crlftab (c : ascii) : is_digit c = true -> not_crlftab c = true.
Proof. destruct c as [[] [] [] [] [] [] [] []]; vm_compute; congruence. Qed.

Lemma keep_chars_keep_chars (p q : ascii -> bool) (s : string) :
  (forall c, p c = true -> q c = true) ->
  keep_chars p (keep_chars q s) = keep_chars p s.
Proof.
  intros Hpq. induction s as [|c s IH]; simpl; [reflexivity|].
  destruct (q c) eqn:Hq; simpl; rewrite IH; [reflexivity|].
  destruct (p c) eqn:Hp; [|reflexivity].
  rewrite (Hpq _ Hp) in Hq. discriminate.
Qed.

Lemma digits_trimStart (s : string) :
  keep_chars is_digit (trimStart s) = keep_chars is_digit s.
Proof.
  induction s as [|c s IH]; simpl; [reflexivity|].
  destruct (is_space c) eqn:Hc; [|reflexivity].
  now rewrite (space_not_digit c Hc).
Qed.

Lemma digits_trimEnd (s : string) :
  keep_chars is_digit (trimEnd s) = keep_chars is_digit s.
Proof.
  induction s as [|c s IH]; simpl; [reflexivity|].
  destruct (trimEnd s) as [|c' t]; simpl in *.
  - rewrite <- IH. destruct (is_space c) eqn:Hc; simpl.
    + now rewrite (space_not_digit c Hc).
    + now destruct (is_digit c).
  - now rewrite IH.
Qed.

(** The digits of [code] are the digits of [raw]. *)
Lemma digits_code_of (raw : string) :
  keep_chars is_digit (code_of raw) = keep_chars is_digit raw.
Proof.
  unfold code_of, trim.
  rewrite keep_chars_keep_chars by exact digit_not_crlftab.
  now rewrite digits_trimEnd, digits_trimStart.
Qed.

Lemma isGS1_expiry (t : string) (r : result) : isGS1 (_expiry t r) = isGS1 r.
Proof. unfold _expiry. now destruct (negb (length t =? 6)%nat). Qed.

Lemma gtin_expiry (t : string) (r : result) : gtin (_expiry t r) = gtin r.
Proof. unfold _expiry. now destruct (negb (length t =? 6)%nat). Qed.

Lemma scan_isGS1 (fuel : nat) (code : string) :
  forall pos r r', scan fuel code pos r = Some r' -> isGS1 r' = isGS1 r.
Proof.
  induction fuel as [|fuel IH]; intros pos r r'; simpl; [discriminate|].
  repeat match goal with
         | |- context [if ?b then _ else _] => destruct b
         end;
    try (intros H; apply IH in H; rewrite H; try apply isGS1_expiry; reflexivity).
  now intros [= ->].
Qed.

(** The loop ends before the fuel does. *)
Lemma varEnd_from_ge (s : string) (i : nat) : (i <= varEnd_from s i)%nat.
Proof.
  revert i; induction s as [|c s IH]; intros i; simpl; [lia|].
  destruct (Ascii.eqb c GS); [lia|]. specialize (IH (S i)). lia.
Qed.

Lemma varEnd_ge (code : string) (start : nat) :
  (start <= length code)%nat -> (start <= _varEnd code start)%nat.
Proof.
  intros H. unfold _varEnd.
  destruct (length code <? start)%nat eqn:E; [apply Nat.ltb_lt in E; lia|].
  apply varEnd_from_ge.
Qed.

Lemma substring_length2 (a : nat) (s : string) :
  length (substring a (a + 2) s) = 2%nat -> (a + 2 <= length s)%nat.
Proof.
  rewrite substring_le by lia. rewrite length_take, length_drop. lia.
Qed.

Lemma eqb_two (s t : string) :
  String.eqb s t = true -> length t = 2%nat -> length s = 2%nat.
Proof. intros ->%String.eqb_eq. auto. Qed.

Lemma scan_total (code : string) :
  forall fuel pos r,
    (length code - pos < fuel)%nat -> is_Some (scan fuel code pos r).
Proof.
  induction fuel as [|fuel IH]; intros pos r Hf; [lia|]. simpl.
  destruct (pos <? length code)%nat eqn:Hpos; simpl; [|eauto].
  apply Nat.ltb_lt in Hpos.
  destruct (bool_decide (charAt pos code = Some GS)); [apply IH; lia|].
  destruct (String.eqb (substring pos (pos + 2) code) "01"); [apply IH; lia|].
  destruct (String.eqb (substring pos (pos + 2) code) "17"); [apply IH; lia|].
  destruct (String.eqb (substring pos (pos + 2) code) "10") eqn:E10.
  { apply IH. apply eqb_two in E10; [|reflexivity].
    apply substring_length2 in E10.
    pose proof (varEnd_ge code (pos + 2) E10). lia. }
  destruct (String.eqb (substring pos (pos + 2) code) "21") eqn:E21.
  { apply IH. apply eqb_two in E21; [|reflexivity].
    apply substring_length2 in E21.
    pose proof (varEnd_ge code (pos + 2) E21). lia. }
  apply IH; lia.
Qed.

(** [parse] unfolded along its three branches; the loop of the raw
    branch always delivers a result. *)
Lemma parse_plain (raw : string) :
  raw <> "" -> hasParens raw = false -> hasRawGS1 raw = false ->
  parse raw =
    let d := keep_chars is_digit (code_of raw) in
    if (8 <=? length d)%nat && (length d <=? 14)%nat
    then set_gtin (padStart 14 "0" d) (init raw) else init raw.
Proof.
  intros Hraw Hp Hg. unfold parse.
  apply String.eqb_neq in Hraw. rewrite Hraw.
  unfold hasParens in Hp. unfold hasRawGS1 in Hg. cbv zeta.
  now rewrite Hp, Hg.
Qed.

Lemma parse_parens (raw : string) :
  raw <> "" -> hasParens raw = true ->
  parse raw =
    let code := code_of raw in
    opt_apply (match_to_paren "(21)" code) (fun s => set_serial (clean s))
      (opt_apply (match_to_paren "(10)" code) (fun b => set_batch (clean b))
         (opt_apply (match_digits "(17)" 6 code) _expiry
            (opt_apply (match_digits "(01)" 14 code) set_gtin
               (set_isGS1 true (init raw))))).
Proof.
  intros Hraw Hp. unfold parse.
  apply String.eqb_neq in Hraw. rewrite Hraw.
  unfold hasParens in Hp. cbv zeta. now rewrite Hp.
Qed.

Lemma parse_raw (raw : string) :
  raw <> "" -> hasParens raw = false -> hasRawGS1 raw = true ->
  exists fuel,
    scan fuel (code_of raw) 0 (set_isGS1 true (init raw)) = Some (parse raw).
Proof.
  intros Hraw Hp Hg. unfold parse.
  apply String.eqb_neq in Hraw. rewrite Hraw.
  unfold hasParens in Hp. unfold hasRawGS1 in Hg. cbv zeta.
  rewrite Hp, Hg. simpl negb. cbv iota.
  exists (S (length (code_of raw))).
  destruct (scan_total (code_of raw) (S (length (code_of raw))) 0
              (set_isGS1 true (init raw))) as [r' Hr']; [lia|].
  now rewrite Hr'.
Qed.

Lemma isGS1_parse (raw : string) :
  isGS1 (parse raw)
  = negb (String.eqb raw "") && (hasParens raw || hasRawGS1 raw).
Proof.
  destruct (String.eqb raw "") eqn:Hraw.
  { unfold parse. now rewrite Hraw. }
  apply String.eqb_neq in Hraw.
  destruct (hasParens raw) eqn:Hp.
  { rewrite parse_parens by assumption. cbv zeta. unfold opt_apply.
    repeat match goal with
           | |- context [match ?o with Some _ => _ | None => _ end] =>
               destruct o
           end; simpl; rewrite ?isGS1_expiry; reflexivity. }
  destruct (hasRawGS1 raw) eqn:Hg.
  { destruct (parse_raw raw Hraw Hp Hg) as [fuel H].
    apply scan_isGS1 in H. exact H. }
  rewrite parse_plain by assumption. cbv zeta.
  now destruct (_ && _).
Qed.

End ParseFacts.

(** ** Plain codes *)

Section Plain.
Import JS GS1.

Lemma all_chars_repeat (p : ascii -> bool) (c : ascii) (n : nat) :
  p c = true -> all_chars p (repeat c n) = true.
Proof. intros H. induction n as [|n IH]; simpl; [reflexivity | now rewrite H]. Qed.

Lemma all_chars_keep_self (p : ascii -> bool) (s : string) :
  all_chars p (keep_chars p s) = true.
Proof.
  induction s as [|c s IH]; simpl; [reflexivity|].
  destruct (p c) eqn:E; simpl; [now rewrite E | exact IH].
Qed.

Lemma padStart_full (n : nat) (c : ascii) (s : string) :
  (n <= length s)%nat -> padStart n c s = s.
Proof.
  intros H. unfold padStart.
  now replace (n - length s)%nat with 0%nat by lia.
Qed.

End Plain.

(** ** The gtin of a GS1 result *)

Section GtinShape.
Import JS GS1.

Lemma search_some (m : string -> option string) (s d : string) :
  search m s = Some d -> exists k, m (drop k s) = Some d.
Proof.
  induction s as [|c s IH]; simpl.
  - destruct (m "") eqn:E; [intros [= ->]; now exists 0%nat | discriminate].
  - destruct (m (String c s)) eqn:E; [intros [= ->]; now exists 0%nat|].
    intros H. destruct (IH H) as [k Hk]. now exists (S k).
Qed.

Lemma digits_here_some (n : nat) (s d : string) :
  digits_here n s = Some d ->
  length d = n /\ all_chars is_digit d = true.
Proof.
  unfold digits_here.
  destruct (length (take n s) =? n)%nat eqn:E1; simpl; [|discriminate].
  destruct (all_chars is_digit (take n s)) eqn:E2; [|discriminate].
  intros [= <-]. apply Nat.eqb_eq in E1. auto.
Qed.

Lemma match_digits_some (tag : string) (n : nat) (s d : string) :
  match_digits tag n s = Some d ->
  length d = n /\ all_chars is_digit d = true.
Proof.
  intros H. apply search_some in H as [k Hk].
  destruct (startsWith tag (drop k s)); [|discriminate].
  now apply digits_here_some in Hk.
Qed.

Lemma startsWith_01 (s : string) :
  startsWith "01" s = true -> exists rest, s = String "0" (String "1" rest).
Proof.
  destruct s as [|a [|b rest]]; cbn [startsWith]; try discriminate;
    [now rewrite andb_false_r|].
  intros [Ha [Hb _]%andb_true_iff]%andb_true_iff.
  apply Ascii.eqb_eq in Ha, Hb. subst. now exists rest.
Qed.

Lemma scan_gtin (code : string) :
  forall fuel pos r r',
    scan fuel code pos r = Some r' ->
    gtin r' = gtin r \/ after_01 code (gtin r').
Proof.
  induction fuel as [|fuel IH]; intros pos r r'; simpl; [discriminate|].
  destruct (negb (pos <? length code)%nat); [intros [= ->]; now left|].
  destruct (bool_decide (charAt pos code = Some GS)); [apply IH|].
  destruct (String.eqb (substring pos (pos + 2) code) "01") eqn:E01.
  { intros H. apply IH in H as [H|H]; [|now right].
    right. exists pos. apply String.eqb_eq in E01. split; [exact E01|].
    rewrite H. reflexivity. }
  destruct (String.eqb (substring pos (pos + 2) code) "17").
  { intros H. apply IH in H as [H|H]; [|now right].
    left. now rewrite H, gtin_expiry. }
  destruct (String.eqb (substring pos (pos + 2) code) "10");
    [intros H; apply IH in H; exact H|].
  destruct (String.eqb (substring pos (pos + 2) code) "21");
    intros H; apply IH in H; exact H.
Qed.

Lemma length_substring_le (a b : nat) (s : string) :
  (a <= b)%nat -> (length (substring a b s) <= b - a)%nat.
Proof. intros H. rewrite substring_le, length_take by exact H. lia. Qed.

Lemma parse_raw_gtin (raw : string) :
  raw <> "" -> hasParens raw = false -> hasRawGS1 raw = true ->
  after_01 (code_of raw) (gtin (parse raw)).
Proof.
  intros Hraw Hp Hg.
  destruct (parse_raw raw Hraw Hp Hg) as [fuel H].
  unfold hasRawGS1 in Hg. apply andb_true_iff in Hg as [Hs _].
  apply startsWith_01 in Hs as [rest Hc].
  destruct fuel as [|fuel]; [discriminate|].
  rewrite Hc in H. simpl in H. rewrite <- Hc in H.
  apply scan_gtin in H as [H|H]; [|exact H].
  exists 0%nat. rewrite H. simpl gtin. rewrite Hc. split; reflexivity.
Qed.

Lemma parse_parens_gtin (raw : string) :
  raw <> "" -> hasParens raw = true ->
  gtin (parse raw) = ""
  \/ (length (gtin (parse raw)) = 14%nat
      /\ all_chars is_digit (gtin (parse raw)) = true).
Proof.
  intros Hraw Hp. rewrite (parse_parens raw Hraw Hp). cbv zeta.
  assert (Hkeep : forall r,
    gtin (opt_apply (match_to_paren "(21)" (code_of raw))
            (fun s => set_serial (clean s))
            (opt_apply (match_to_paren "(10)" (code_of raw))
               (fun b => set_batch (clean b))
               (opt_apply (match_digits "(17)" 6 (code_of raw)) _expiry r)))
    = gtin r).
  { intros r. unfold opt_apply.
    repeat match goal with
           | |- context [match ?o with Some _ => _ | None => _ end] =>
               destruct o
           end; simpl; rewrite ?gtin_expiry; reflexivity. }
  rewrite Hkeep.
  destruct (match_digits "(01)" 14 (code_of raw)) as [g|] eqn:E; simpl.
  - right. now apply match_digits_some in E.
  - now left.
Qed.

End GtinShape.

Section UnifiedFacts.
Import JS Unified.

Lemma unified_format (raw : string) (F : Format) :
  format (parse raw) = Some F ->
  detectFormat raw = F
  /\ parse raw = match F with
                 | GS1_PARENTHESIZED => parseParenthesized raw
                 | GS1_FULL => parseNonParenthesized raw
                 | UNKNOWN => parse raw
                 | _ => parseSimple raw F
                 end.
Proof.
  unfold parse.
  destruct (length (trim raw) =? 0)%nat; [discriminate|].
  destruct (detectFormat raw); simpl; intros [= <-]; split; reflexivity.
Qed.

End UnifiedFacts.

(** C7: the code breaks the claim.  The positional text of a GTIN, a
    production date (AI 11) of 1 January 2025, an expiry and a batch is
    flagged GS1 by [GS1.parse], yet its gtin ends as "011726063010AB":
    the loop knows no AI 11, steps through the date character by
    character, meets the "01" inside "250101" and overwrites the gtin
    with the 14 characters behind it, unchecked.  The parenthesised text
    of the same data gives the 14 digits.  In [UnifiedBarcodeParser] the
    14 characters behind the leading "01" are taken unchecked, against
    the comment of the code (01 + 14 digits). *)
Theorem C7_positional_gtin_not_digits :
  (let r := GS1.parse "0100012345678905112501011726063010AB" in
   GS1.isGS1 r = true /\ GS1.gtin r = "011726063010AB"
   /\ JS.all_chars JS.is_digit (GS1.gtin r) = false
   /\ GS1.expiry r = "" /\ GS1.batch r = "")
  /\ GS1.gtin (GS1.parse "(01)00012345678905(11)250101(17)260630(10)AB")
     = "00012345678905"
  /\ (let r := GS1.parse "010001234567890501AB" in
      GS1.isGS1 r = true /\ GS1.gtin r = "AB")
  /\ (let u := Unified.parse "01ABCDEFGHIJKLMN17" in
      Unified.format u = Some Unified.GS1_FULL
      /\ Unified.gtin u = Some "ABCDEFGHIJKLMN").
Proof. vm_compute. repeat split. Qed.

(** The shape of the gtin of a GS1 result: at most 14 characters; in
    parenthesised mode absent or exactly 14 digits, in both parsers; in
    positional mode [GS1.parse] yields the characters (up to 14) that
    follow an occurrence of the AI "01" in the cleaned input, and
    [UnifiedBarcodeParser] exactly the 14 characters that follow the
    leading "01". *)
Lemma gs1_gtin_shape (raw : string) :
  (GS1.isGS1 (GS1.parse raw) = true ->
   let code := GS1.code_of raw in
   let g := GS1.gtin (GS1.parse raw) in
   (JS.length g <= 14)%nat
   /\ (JS.includes "(" code = true ->
       g = "" \/ (JS.length g = 14%nat /\ JS.all_chars JS.is_digit g = true))
   /\ (JS.includes "(" code = false -> after_01 code g))
  /\ (Unified.format (Unified.parse raw) = Some Unified.GS1_PARENTHESIZED ->
      Unified.gtin (Unified.parse raw) = None
      \/ exists g, Unified.gtin (Unified.parse raw) = Some g
                   /\ JS.length g = 14%nat
                   /\ JS.all_chars JS.is_digit g = true)
  /\ (Unified.format (Unified.parse raw) = Some Unified.GS1_FULL ->
      Unified.gtin (Unified.parse raw) = Some (JS.substring 2 16 raw)
      /\ JS.length (JS.substring 2 16 raw) = 14%nat).
Proof.
  split_and!.
  - intros Hgs. cbv zeta. rewrite isGS1_parse in Hgs.
    apply andb_true_iff in Hgs as [Hraw Hmode].
    apply negb_true_iff, String.eqb_neq in Hraw.
    fold (hasParens raw).
    destruct (hasParens raw) eqn:Hp.
    + pose proof (parse_parens_gtin raw Hraw Hp) as Hshape.
      split_and!; [|auto|discriminate].
      destruct Hshape as [-> | [-> _]]; simpl; lia.
    + simpl in Hmode.
      pose proof (parse_raw_gtin raw Hraw Hp Hmode) as Hshape.
      split_and!; [|discriminate|auto].
      destruct Hshape as (p & _ & ->).
      pose proof (length_substring_le (p + 2) (p + 16) (GS1.code_of raw)). lia.
  - intros H. apply unified_format in H as [_ ->]. simpl.
    destruct (JS.match_digits "(01)" 14 raw) as [g|] eqn:E; [right | now left].
    exists g. apply match_digits_some in E. tauto.
  - intros H. apply unified_format in H as [Hd ->].
    apply detect_full_iff in Hd as (_ & Hs & Hlen & _).
    unfold Unified.parseNonParenthesized. cbn [Unified.gtin].
    rewrite Hs. split; [reflexivity|].
    rewrite substring_le, length_take, length_drop by lia. lia.
Qed.

(** ** Date tokens *)

Section DateToken.
Import JS GS1.

Lemma digit_cases (c : ascii) :
  is_digit c = true ->
  In c ["0"; "1"; "2"; "3"; "4"; "5"; "6"; "7"; "8"; "9"]%char.
Proof.
  destruct c as [[] [] [] [] [] [] [] []]; intros H;
    try discriminate H; clear H; simpl; auto 15.
Qed.

Lemma parseInt_two_digits (a b : ascii) :
  is_digit a = true -> is_digit b = true ->
  parseInt (String a (String b EmptyString))
  = Some (10 * digit_of a + digit_of b).
Proof.
  intros Ha Hb. apply digit_cases in Ha, Hb. simpl in Ha, Hb.
  repeat (destruct Ha as [<-|Ha]; [|]); try contradiction;
    repeat (destruct Hb as [<-|Hb]; [|]); try contradiction;
    vm_compute; reflexivity.
Qed.

Lemma digit_of_range (c : ascii) : is_digit c = true -> 0 <= digit_of c <= 9.
Proof.
  intros H. apply digit_cases in H. simpl in H.
  repeat (destruct H as [<-|H]; [vm_compute; split; discriminate|]).
  contradiction.
Qed.

Lemma day0_in_range (y m : Z) :
  2000 <= y -> 1 <= m <= 12 ->
  Date_day0_getDate (Some y) (Some m) = Some (days_in_month y m).
Proof.
  intros Hy Hm. unfold Date_day0_getDate.
  replace ((0 <=? y) && (y <=? 99)) with false
    by (symmetry; apply andb_false_iff; right; apply Z.leb_gt; lia).
  rewrite Z.div_small, Z.mod_small by lia.
  do 2 f_equal; lia.
Qed.

End DateToken.

(** C3, as stated, fails: no month is ever rejected.  The token "261305"
    gives the date text "2026-13-05" in both parsers; and
    [UnifiedBarcodeParser.formatExpiry] has no day-00 rule: "260600"
    gives "2026-06-00" there. *)
Lemma C3_counterexample :
  (let r := GS1.parse "(01)00012345678905(17)261305" in
   GS1.expiry r = "261305" /\ GS1.expiryISO r = "2026-13-05")
  /\ Unified.expiry (Unified.parse "(01)00012345678905(17)261305")
     = Some "2026-13-05"
  /\ Unified.expiry (Unified.parse "(01)00012345678905(17)260600")
     = Some "2026-06-00".
Proof. vm_compute. repeat split. Qed.

(** C3, amended: for every six-digit token YYMMDD, [GS1._expiry] records
    the token and a date text with year 2000 + YY, month MM and a day D,
    where D is DD when DD is not 00, and the last day of month MM of that
    year when DD is 00 and MM is in 1..12; the text is produced whatever
    MM is, no token is rejected.  [UnifiedBarcodeParser.formatExpiry]
    copies the digits as 20YY-MM-DD for every token. *)
Theorem C3_expiry_conversion (tok : string) (r : GS1.result) :
  JS.length tok = 6%nat -> JS.all_chars JS.is_digit tok = true ->
  let YY := two_digits (JS.substring 0 2 tok) in
  let MM := two_digits (JS.substring 2 4 tok) in
  let DD := two_digits (JS.substring 4 6 tok) in
  GS1.expiry (GS1._expiry tok r) = tok
  /\ (exists D,
        GS1.expiryISO (GS1._expiry tok r) = iso_string (2000 + YY) MM D
        /\ (DD <> 0 -> D = DD)
        /\ (DD = 0 -> 1 <= MM <= 12 -> D = JS.days_in_month (2000 + YY) MM))
  /\ Unified.formatExpiry tok
     = Some ("20" +:+ JS.substring 0 2 tok +:+ "-" +:+ JS.substring 2 4 tok
             +:+ "-" +:+ JS.substring 4 6 tok).
Proof.
  intros Hlen Hdig.
  destruct tok as [|c1 [|c2 [|c3 [|c4 [|c5 [|c6 [|c7 tok]]]]]]];
    try discriminate Hlen.
  simpl in Hdig.
  repeat (apply andb_true_iff in Hdig; destruct Hdig as [? Hdig]).
  cbv zeta. split_and!; [reflexivity | | reflexivity].
  unfold GS1._expiry.
  change (negb (JS.length _ =? 6)%nat) with false. cbv iota.
  change (JS.substring 0 2 _) with (String c1 (String c2 EmptyString)).
  change (JS.substring 2 4 _) with (String c3 (String c4 EmptyString)).
  change (JS.substring 4 6 _) with (String c5 (String c6 EmptyString)).
  rewrite !parseInt_two_digits by assumption.
  unfold two_digits.
  pose proof (digit_of_range c1 ltac:(assumption)).
  pose proof (digit_of_range c2 ltac:(assumption)).
  set (YY := 10 * JS.digit_of c1 + JS.digit_of c2) in *.
  set (MM := 10 * JS.digit_of c3 + JS.digit_of c4) in *.
  set (DD := 10 * JS.digit_of c5 + JS.digit_of c6) in *.
  destruct (Z.eq_dec DD 0) as [E0|E0].
  - rewrite E0.
    destruct (JS.Date_day0_getDate (Some (2000 + YY)) (Some MM)) as [D|] eqn:ED.
    + exists D. split_and!; [reflexivity | congruence |].
      intros _ HM. rewrite day0_in_range in ED by lia. congruence.
    + discriminate ED.
  - exists DD. split_and!; [|reflexivity|contradiction].
    destruct DD; [contradiction | reflexivity | reflexivity].
Qed.

(** The day-00 rule on the token of June 2026, and the carry into the
    year that [new Date(yr, mm, 0)] makes of a month out of range *)
Lemma expiry_day00_examples :
  GS1.expiryISO (GS1._expiry "260600" (GS1.init "")) = "2026-06-30"
  /\ GS1.expiryISO (GS1._expiry "240200" (GS1.init "")) = "2024-02-29"
  /\ GS1.expiryISO (GS1._expiry "261300" (GS1.init "")) = "2026-13-31"
  /\ GS1.expiryISO (GS1._expiry "260000" (GS1.init "")) = "2026-00-31".
Proof. vm_compute. repeat split. Qed.

Lemma C3_expiry_conversion_witness :
  GS1.expiry (GS1._expiry "260600" (GS1.init "")) = "260600"
  /\ exists D,
       GS1.expiryISO (GS1._expiry "260600" (GS1.init "")) = iso_string 2026 6 D
       /\ D = 30.
Proof.
  destruct (C3_expiry_conversion "260600" (GS1.init "") eq_refl eq_refl)
    as (H1 & (D & H2 & _ & H3) & _).
  split; [exact H1|]. exists D. split; [exact H2|].
  apply H3; [reflexivity | vm_compute; split; discriminate].
Defined.

(** ** Expiry status *)

Section Status.
Import JS GS1.

Lemma setHours0_local_day (tz t : Z) :
  setHours0 tz t = local_day tz t * msPerDay - tz * 60000.
Proof. reflexivity. Qed.

Lemma midnights_apart (tz e now : Z) :
  (setHours0 tz e - setHours0 tz now) / msPerDay
  = local_day tz e - local_day tz now.
Proof.
  rewrite !setHours0_local_day.
  replace (local_day tz e * msPerDay - tz * 60000
           - (local_day tz now * msPerDay - tz * 60000))
    with ((local_day tz e - local_day tz now) * msPerDay) by ring.
  apply Z.div_mul. discriminate.
Qed.

Lemma local_day_of_date (tz n : Z) :
  local_day tz (msPerDay * n) = n + tz * 60000 / msPerDay.
Proof.
  unfold local_day. rewrite (Z.mul_comm msPerDay n).
  apply Z.div_add_l. discriminate.
Qed.

Lemma Date_parse_nonempty (iso : string) (e : Z) :
  Date_parse iso = Some e -> String.eqb iso "" = false.
Proof. destruct iso; [discriminate | reflexivity]. Qed.

(** [status] as a function of the difference in local days *)
Lemma status_by_days (SOON tz now : Z) (iso : string) (e : Z) :
  Date_parse iso = Some e ->
  status SOON tz now iso =
    let diff := local_day tz e - local_day tz now in
    if diff <? 0 then expired
    else if diff <=? SOON then expiring else ok.
Proof.
  intros H. unfold status.
  rewrite (Date_parse_nonempty iso e H), H. cbv zeta.
  now rewrite midnights_apart.
Qed.

End Status.

(** C9: the code breaks the claim west of Greenwich.  At noon of
    1 January 2026 in a zone five hours west of UTC (no daylight
    saving), with the threshold of 90 days, the date 2026-01-01 is
    today: the difference in whole days is 0, which the claim classifies
    EXPIRING.  The code reads the date text as midnight UTC, which is
    19:00 of 31 December there, truncates that to the local midnight of
    31 December, finds a difference of -1 and answers expired.  At UTC
    the same date on the same day is expiring. *)
Theorem C9_expired_on_its_day_west_of_utc :
  let today := JS.day_number 2026 1 1 in
  let noon_at_utc_minus_5 := JS.msPerDay * today + 17 * 3600000 in
  local_day (-300) noon_at_utc_minus_5 = today
  /\ JS.Date_parse "2026-01-01" = Some (JS.msPerDay * today)
  /\ (JS.setHours0 (-300) (JS.msPerDay * today)
       - JS.setHours0 (-300) noon_at_utc_minus_5) / JS.msPerDay = -1
  /\ GS1.status CFG.SOON_DAYS (-300) noon_at_utc_minus_5 "2026-01-01"
     = GS1.expired
  /\ GS1.status CFG.SOON_DAYS 0 (JS.msPerDay * today + 12 * 3600000)
       "2026-01-01" = GS1.expiring.
Proof. vm_compute. repeat split. Qed.

(** ** The raw concatenated branch, read on the rest of the input *)

Section ScanSuffix.
Import JS GS1.

Lemma drop_empty_iff (n : nat) (s : string) :
  drop n s = "" <-> (length s <= n)%nat.
Proof.
  split; [|apply drop_all].
  intros H. pose proof (length_drop n s) as L. rewrite H in L. simpl in L. lia.
Qed.

Lemma charAt_drop (n : nat) (s : string) :
  charAt n s = match drop n s with
               | EmptyString => None
               | String c _ => Some c
               end.
Proof.
  revert n; induction s as [|c s IH]; intros [|n]; simpl; try reflexivity.
  apply IH.
Qed.

Lemma substring_drop (pos a b : nat) (s : string) :
  (a <= b)%nat ->
  substring (pos + a) (pos + b) s = take (b - a) (drop a (drop pos s)).
Proof.
  intros H. rewrite substring_le by lia. rewrite drop_drop.
  f_equal. lia.
Qed.

Lemma varEnd_from_take_while (s : string) (i : nat) :
  varEnd_from s i = (i + length (take_while not_GS s))%nat.
Proof.
  revert i; induction s as [|c s IH]; intros i; simpl; [lia|].
  unfold not_GS at 1. destruct (Ascii.eqb c GS); simpl; [lia|].
  rewrite IH. lia.
Qed.

Lemma take_length_take_while (p : ascii -> bool) (s : string) :
  take (length (take_while p s)) s = take_while p s.
Proof.
  induction s as [|c s IH]; simpl; [reflexivity|].
  destruct (p c); simpl; [now rewrite IH | reflexivity].
Qed.

Lemma take2_length (s : string) (t : string) :
  String.eqb (take 2 s) t = true -> length t = 2%nat -> (2 <= length s)%nat.
Proof.
  intros E%String.eqb_eq H. rewrite <- E, length_take in H. lia.
Qed.

Lemma scan_scan_suffix (code : string) :
  forall fuel pos r,
    scan fuel code pos r = scan_suffix fuel (drop pos code) r.
Proof.
  induction fuel as [|fuel IH]; intros pos r; [reflexivity|].
  cbn [scan scan_suffix].
  destruct (pos <? length code)%nat eqn:Hpos; cbn [negb].
  2:{ apply Nat.ltb_ge in Hpos. now rewrite drop_all by exact Hpos. }
  apply Nat.ltb_lt in Hpos.
  rewrite charAt_drop.
  replace (substring pos (pos + 2) code) with (take 2 (drop pos code))
    by (rewrite <- (Nat.add_0_r pos) at 2;
        rewrite (substring_drop pos 0 2) by lia; reflexivity).
  rewrite (substring_drop pos 2 16), (substring_drop pos 2 8) by lia.
  change (16 - 2)%nat with 14%nat. change (8 - 2)%nat with 6%nat.
  destruct (drop pos code) as [|c suf] eqn:Hsuf.
  { apply drop_empty_iff in Hsuf. lia. }
  assert (Hnext : forall k, drop (pos + k) code = drop k (String c suf))
    by (intros k; now rewrite <- drop_drop, Hsuf).
  destruct (Ascii.eqb c GS) eqn:Hc.
  { apply Ascii.eqb_eq in Hc. subst c.
    rewrite bool_decide_eq_true_2 by reflexivity.
    now rewrite IH, Hnext. }
  rewrite bool_decide_eq_false_2
    by (intros [= ->]; rewrite Ascii.eqb_refl in Hc; discriminate).
  cbv zeta.
  destruct (String.eqb (take 2 (String c suf)) "01"); [now rewrite IH, Hnext|].
  destruct (String.eqb (take 2 (String c suf)) "17"); [now rewrite IH, Hnext|].
  assert (Hvar : (2 <= length (String c suf))%nat ->
    _varEnd code (pos + 2)
    = (pos + (2 + length (take_while not_GS (drop 2 (String c suf)))))%nat
    /\ substring (pos + 2) (_varEnd code (pos + 2)) code
       = take_while not_GS (drop 2 (String c suf))).
  { intros H2.
    assert (Hlen : (pos + 2 <= length code)%nat).
    { pose proof (length_drop pos code) as L. rewrite Hsuf in L. lia. }
    assert (Hv : _varEnd code (pos + 2)
      = (pos + (2 + length (take_while not_GS (drop 2 (String c suf)))))%nat).
    { unfold _varEnd.
      replace (length code <? pos + 2)%nat with false
        by (symmetry; apply Nat.ltb_ge; lia).
      rewrite varEnd_from_take_while, Hnext. lia. }
    split; [exact Hv|]. rewrite Hv.
    rewrite (substring_drop pos 2) by lia. rewrite Hsuf.
    replace (2 + length (take_while not_GS (drop 2 (String c suf))) - 2)%nat
      with (length (take_while not_GS (drop 2 (String c suf)))) by lia.
    apply take_length_take_while. }
  destruct (String.eqb (take 2 (String c suf)) "10") eqn:E10.
  { destruct (Hvar (take2_length _ _ E10 eq_refl)) as [Hv Hs].
    now rewrite Hs, Hv, IH, Hnext. }
  destruct (String.eqb (take 2 (String c suf)) "21") eqn:E21.
  { destruct (Hvar (take2_length _ _ E21 eq_refl)) as [Hv Hs].
    now rewrite Hs, Hv, IH, Hnext. }
  now rewrite IH, Hnext.
Qed.

End ScanSuffix.

Section ScanSteps.
Import JS GS1.

Lemma take_cons (n : nat) (c : ascii) (s : string) :
  take (S n) (String c s) = String c (take n s).
Proof. reflexivity. Qed.

Lemma take_0 (s : string) : take 0 s = "".
Proof. reflexivity. Qed.

Lemma drop_cons (n : nat) (c : ascii) (s : string) :
  drop (S n) (String c s) = drop n s.
Proof. reflexivity. Qed.

Lemma drop_0 (s : string) : drop 0 s = s.
Proof. reflexivity. Qed.

(** Evaluate the comparisons between known characters and strings. *)
Ltac known_tests :=
  repeat match goal with
         | |- context [Ascii.eqb ?a ?b] =>
             let v := eval vm_compute in (Ascii.eqb a b) in
             match v with
             | true => change (Ascii.eqb a b) with true
             | false => change (Ascii.eqb a b) with false
             end
         | |- context [String.eqb ?a ?b] =>
             let v := eval vm_compute in (String.eqb a b) in
             match v with
             | true => change (String.eqb a b) with true
             | false => change (String.eqb a b) with false
             end
         end.

Lemma take_while_field (p : ascii -> bool) (v rest : string) :
  all_chars p v = true ->
  match rest with EmptyString => True | String c _ => p c = false end ->
  take_while p (v +:+ rest) = v.
Proof.
  intros Hv Hrest. induction v as [|c v IH]; simpl in *.
  - destruct rest as [|c rest]; [reflexivity|]. simpl. now rewrite Hrest.
  - apply andb_true_iff in Hv as [Hc Hv]. rewrite Hc. now rewrite IH.
Qed.

Lemma take_while_not_GS (v rest : string) :
  all_chars not_GS v = true -> field_end rest ->
  take_while not_GS (v +:+ rest) = v.
Proof.
  intros Hv Hrest. apply take_while_field; [exact Hv|].
  destruct rest as [|c rest]; [exact I|]. simpl in Hrest. subst c.
  reflexivity.
Qed.

Lemma scan_suffix_end (f : nat) (r : result) :
  scan_suffix (S f) "" r = Some r.
Proof. reflexivity. Qed.

Lemma scan_suffix_GS (f : nat) (rest : string) (r : result) :
  scan_suffix (S f) (String GS rest) r = scan_suffix f rest r.
Proof. cbn [scan_suffix]. known_tests. cbv iota. reflexivity. Qed.

Lemma scan_suffix_01 (f : nat) (x rest : string) (r : result) :
  length x = 14%nat ->
  scan_suffix (S f) (String "0" (String "1" (x +:+ rest))) r
  = scan_suffix f rest (set_gtin x r).
Proof.
  intros H. cbn [scan_suffix]. cbv zeta. known_tests. cbv iota.
  rewrite !drop_cons, drop_0. rewrite <- H.
  now rewrite take_app_length, drop_app_length.
Qed.

Lemma scan_suffix_17 (f : nat) (x rest : string) (r : result) :
  length x = 6%nat ->
  scan_suffix (S f) (String "1" (String "7" (x +:+ rest))) r
  = scan_suffix f rest (_expiry x r).
Proof.
  intros H. cbn [scan_suffix]. cbv zeta. known_tests. cbv iota.
  rewrite !drop_cons, drop_0. rewrite <- H.
  now rewrite take_app_length, drop_app_length.
Qed.

Lemma scan_suffix_10 (f : nat) (v rest : string) (r : result) :
  all_chars not_GS v = true -> field_end rest ->
  scan_suffix (S f) (String "1" (String "0" (v +:+ rest))) r
  = scan_suffix f rest (set_batch (clean v) r).
Proof.
  intros Hv Hrest. cbn [scan_suffix]. cbv zeta. known_tests. cbv iota.
  rewrite !drop_cons, drop_0.
  rewrite (take_while_not_GS v rest Hv Hrest).
  cbn [Nat.add]. rewrite !drop_cons.
  now rewrite drop_app_length.
Qed.

Lemma scan_suffix_21 (f : nat) (v rest : string) (r : result) :
  all_chars not_GS v = true -> field_end rest ->
  scan_suffix (S f) (String "2" (String "1" (v +:+ rest))) r
  = scan_suffix f rest (set_serial (clean v) r).
Proof.
  intros Hv Hrest. cbn [scan_suffix]. cbv zeta. known_tests. cbv iota.
  rewrite !drop_cons, drop_0.
  rewrite (take_while_not_GS v rest Hv Hrest).
  cbn [Nat.add]. rewrite !drop_cons.
  now rewrite drop_app_length.
Qed.

(** More fuel does not change a result. *)
Lemma scan_suffix_mono (f : nat) :
  forall f' suf r r',
    scan_suffix f suf r = Some r' -> (f <= f')%nat ->
    scan_suffix f' suf r = Some r'.
Proof.
  induction f as [|f IH]; intros f' suf r r' H Hle; [discriminate|].
  destruct f' as [|f']; [lia|].
  cbn [scan_suffix] in *.
  destruct suf as [|c suf]; [exact H|].
  repeat match goal with
         | |- context [if ?b then _ else _] => destruct b
         end; apply IH with (f' := f') in H; (exact H || lia).
Qed.

Lemma parse_raw_eval (raw : string) (f : nat) (R : result) :
  raw <> "" -> hasParens raw = false -> hasRawGS1 raw = true ->
  scan_suffix f (code_of raw) (set_isGS1 true (init raw)) = Some R ->
  (f <= S (length (code_of raw)))%nat ->
  parse raw = R.
Proof.
  intros Hraw Hp Hg Hscan Hf.
  apply scan_suffix_mono with (f' := S (length (code_of raw))) in Hscan;
    [|exact Hf].
  unfold parse. apply String.eqb_neq in Hraw. rewrite Hraw.
  unfold hasParens in Hp. unfold hasRawGS1 in Hg. cbv zeta.
  rewrite Hp, Hg. cbn [negb andb].
  now rewrite scan_scan_suffix, drop_0, Hscan.
Qed.

(** *** Searches of the parenthesised branch *)

Lemma search_here (m : string -> option string) (s d : string) :
  m s = Some d -> search m s = Some d.
Proof. intros H. destruct s; simpl; now rewrite H. Qed.

Lemma search_next (m : string -> option string) (c : ascii) (s : string) :
  m (String c s) = None -> search m (String c s) = search m s.
Proof. intros H. simpl. now rewrite H. Qed.

Lemma search_skip (m : string -> option string) (pre rest : string) :
  needs_paren m -> all_chars not_paren pre = true ->
  search m (pre +:+ rest) = search m rest.
Proof.
  intros [_ Hm] Hpre. induction pre as [|c pre IH]; [reflexivity|].
  simpl in Hpre. apply andb_true_iff in Hpre as [Hc Hpre].
  change (String c pre +:+ rest) with (String c (pre +:+ rest)).
  rewrite search_next by (apply Hm; exact Hc). auto.
Qed.

Lemma search_none (m : string -> option string) (s : string) :
  needs_paren m -> all_chars not_paren s = true -> search m s = None.
Proof.
  intros Hm Hs. rewrite <- (app_empty_r s).
  rewrite search_skip by assumption. simpl. now rewrite (proj1 Hm).
Qed.

Lemma startsWith_paren_tag (tag : string) (c : ascii) (s : string) :
  not_paren c = true -> startsWith (String "(" tag) (String c s) = false.
Proof.
  intros H. cbn [startsWith]. unfold not_paren in H.
  apply negb_true_iff in H. rewrite Ascii.eqb_sym, H. reflexivity.
Qed.

Lemma needs_paren_digits (tag : string) (n : nat) :
  needs_paren (m_digits (String "(" tag) n).
Proof.
  split; [reflexivity|]. intros c s H. unfold m_digits.
  now rewrite startsWith_paren_tag.
Qed.

Lemma needs_paren_to_paren (tag : string) :
  needs_paren (m_to_paren (String "(" tag)).
Proof.
  split; [reflexivity|]. intros c s H. unfold m_to_paren.
  now rewrite startsWith_paren_tag.
Qed.

Lemma digits_here_app (x rest : string) :
  all_chars is_digit x = true ->
  digits_here (length x) (x +:+ rest) = Some x.
Proof.
  intros H. unfold digits_here. rewrite take_app_length, H.
  now rewrite Nat.eqb_refl.
Qed.

End ScanSteps.

(** ** The two encodings of the same values *)

Section Encodings.
Import JS GS1.

Lemma trimStart_cons_keep (c : ascii) (s : string) :
  is_space c = false -> trimStart (String c s) = String c s.
Proof. intros H. simpl. now rewrite H. Qed.

Lemma trimEnd_cons_keep (c : ascii) (s : string) :
  is_space c = false -> trimEnd (String c s) = String c (trimEnd s).
Proof. intros H. simpl. rewrite H. now destruct (trimEnd s). Qed.

Lemma trimEnd_app (pre t : string) :
  trimEnd t <> "" -> trimEnd (pre +:+ t) = pre +:+ trimEnd t.
Proof.
  intros Ht. induction pre as [|c pre IH]; [reflexivity|].
  change (String c pre +:+ t) with (String c (pre +:+ t)).
  cbn [trimEnd]. rewrite IH.
  change (String c pre +:+ trimEnd t) with (String c (pre +:+ trimEnd t)).
  destruct (pre +:+ trimEnd t) eqn:E; [|reflexivity].
  exfalso. apply Ht. destruct pre; [exact E | discriminate E].
Qed.

Lemma all_chars_trimEnd (p : ascii -> bool) (s : string) :
  all_chars p s = true -> all_chars p (trimEnd s) = true.
Proof.
  induction s as [|c s IH]; [reflexivity|]. cbn [all_chars trimEnd].
  intros [Hc Hs]%andb_true_iff. specialize (IH Hs).
  destruct (trimEnd s); [destruct (is_space c); simpl; now rewrite ?Hc|].
  cbn [all_chars] in *. now rewrite Hc.
Qed.

Lemma digit_field_chars (c : ascii) :
  is_digit c = true ->
  not_paren c = true /\ not_GS c = true /\ is_space c = false.
Proof. destruct c as [[] [] [] [] [] [] [] []]; vm_compute; intuition congruence. Qed.

Lemma digits_not_crlftab (x : string) :
  all_chars is_digit x = true -> keep_chars not_crlftab x = x.
Proof.
  intros H. apply keep_chars_all.
  revert H. apply all_chars_impl. exact digit_not_crlftab.
Qed.

Lemma code_of_parenthesized (g e b s : string) :
  all_chars is_digit g = true -> all_chars is_digit e = true ->
  code_of (parenthesized g e b s) = parenthesized g e (inner b) (last s).
Proof.
  intros Hg He. unfold code_of, trim, parenthesized.
  change ("(01)" +:+ g +:+ "(17)" +:+ e +:+ "(10)" +:+ b +:+ "(21)" +:+ s)
    with (String "(" ("01)" +:+ g +:+ "(17)" +:+ e +:+ "(10)" +:+ b
                      +:+ "(21)" +:+ s)).
  rewrite trimStart_cons_keep by reflexivity.
  change (String "(" ("01)" +:+ g +:+ "(17)" +:+ e +:+ "(10)" +:+ b
                      +:+ "(21)" +:+ s))
    with ("(01)" +:+ g +:+ "(17)" +:+ e +:+ "(10)" +:+ b +:+ "(21)" +:+ s).
  assert (Htail : trimEnd ("(21)" +:+ s) = "(21)" +:+ trimEnd s).
  { change ("(21)" +:+ s)
      with (String "(" (String "2" (String "1" (String ")" s)))).
    now rewrite !trimEnd_cons_keep by reflexivity. }
  replace ("(01)" +:+ g +:+ "(17)" +:+ e +:+ "(10)" +:+ b +:+ "(21)" +:+ s)
    with (("(01)" +:+ g +:+ "(17)" +:+ e +:+ "(10)" +:+ b) +:+ "(21)" +:+ s)
    by now rewrite !app_assoc.
  rewrite trimEnd_app by (rewrite Htail; discriminate).
  rewrite Htail, !app_assoc, !keep_chars_app.
  rewrite (digits_not_crlftab g Hg), (digits_not_crlftab e He).
  reflexivity.
Qed.

Lemma code_of_positional (sep : bool) (g e b s : string) :
  all_chars is_digit g = true -> all_chars is_digit e = true ->
  code_of (positional sep g e b s) = positional sep g e (inner b) (last s).
Proof.
  intros Hg He. unfold code_of, trim, positional. cbv zeta.
  set (gs := if sep then GSs else "").
  change ("01" +:+ g +:+ gs +:+ "17" +:+ e +:+ gs +:+ "10" +:+ b +:+ GSs
               +:+ "21" +:+ s)
    with (String "0" ("1" +:+ g +:+ gs +:+ "17" +:+ e +:+ gs +:+ "10" +:+ b
                          +:+ GSs +:+ "21" +:+ s)).
  rewrite trimStart_cons_keep by reflexivity.
  change (String "0" ("1" +:+ g +:+ gs +:+ "17" +:+ e +:+ gs +:+ "10" +:+ b
                          +:+ GSs +:+ "21" +:+ s))
    with ("01" +:+ g +:+ gs +:+ "17" +:+ e +:+ gs +:+ "10" +:+ b +:+ GSs
               +:+ "21" +:+ s).
  assert (Htail : trimEnd ("21" +:+ s) = "21" +:+ trimEnd s).
  { change ("21" +:+ s) with (String "2" (String "1" s)).
    now rewrite !trimEnd_cons_keep by reflexivity. }
  replace ("01" +:+ g +:+ gs +:+ "17" +:+ e +:+ gs +:+ "10" +:+ b +:+ GSs
                +:+ "21" +:+ s)
    with (("01" +:+ g +:+ gs +:+ "17" +:+ e +:+ gs +:+ "10" +:+ b +:+ GSs)
            +:+ "21" +:+ s)
    by now rewrite !app_assoc.
  rewrite trimEnd_app by (rewrite Htail; discriminate).
  rewrite Htail, !app_assoc, !keep_chars_app.
  rewrite (digits_not_crlftab g Hg), (digits_not_crlftab e He).
  replace (keep_chars not_crlftab gs) with gs by now destruct sep.
  reflexivity.
Qed.

Lemma field_chars_inner (b : string) :
  all_chars field_char b = true -> all_chars field_char (inner b) = true.
Proof. apply all_chars_keep_chars. Qed.

Lemma field_chars_last (s : string) :
  all_chars field_char s = true -> all_chars field_char (last s) = true.
Proof. intros H. apply all_chars_keep_chars. now apply all_chars_trimEnd. Qed.

Lemma field_not_paren (v : string) :
  all_chars field_char v = true -> all_chars not_paren v = true.
Proof.
  apply all_chars_impl. intros c [H _]%andb_true_iff. exact H.
Qed.

Lemma field_not_GS (v : string) :
  all_chars field_char v = true -> all_chars not_GS v = true.
Proof.
  apply all_chars_impl. intros c [_ H]%andb_true_iff. exact H.
Qed.

Lemma digits_not_paren (x : string) :
  all_chars is_digit x = true -> all_chars not_paren x = true.
Proof. apply all_chars_impl. intros c H. now apply digit_field_chars. Qed.

End Encodings.

Section SameFields.
Import JS GS1.

Variables g e b s : string.
Hypothesis Hg_len : length g = 14%nat.
Hypothesis Hg : all_chars is_digit g = true.
Hypothesis He_len : length e = 6%nat.
Hypothesis He : all_chars is_digit e = true.
Hypothesis Hb : all_chars field_char b = true.
Hypothesis Hs : all_chars field_char s = true.

Lemma parenthesized_fields :
  parenthesized g e b s
  = field "01)" g (field "17)" e (field "10)" b (field "21)" s ""))).
Proof. unfold parenthesized, field. now rewrite app_empty_r. Qed.

Lemma search_skip_field (m : string -> option string) (tag v rest : string) :
  needs_paren m -> m (field tag v rest) = None ->
  all_chars not_paren tag = true -> all_chars not_paren v = true ->
  search m (field tag v rest) = search m rest.
Proof.
  intros Hm Hnone Htag Hv. unfold field in *.
  rewrite search_next by exact Hnone.
  rewrite <- app_assoc. apply search_skip; [exact Hm|].
  now rewrite all_chars_app, Htag, Hv.
Qed.

Lemma take_while_all (p : ascii -> bool) (v : string) :
  all_chars p v = true -> take_while p v = v.
Proof.
  induction v as [|c v IH]; simpl; [reflexivity|].
  intros [Hc Hv]%andb_true_iff. now rewrite Hc, IH.
Qed.

Lemma m_digits_field (t1 t2 : ascii) (n : nat) (v rest : string) :
  length v = n -> all_chars is_digit v = true ->
  m_digits (String "(" (String t1 (String t2 ")"))) n
           (field (String t1 (String t2 ")")) v rest)
  = Some v.
Proof.
  intros Hn Hv. unfold m_digits, field.
  change (String t1 (String t2 ")") +:+ v +:+ rest)
    with (String t1 (String t2 (String ")" (v +:+ rest)))).
  cbn [startsWith length]. rewrite !Ascii.eqb_refl. cbn [andb].
  rewrite !drop_cons, drop_0. subst n. now apply digits_here_app.
Qed.

Lemma m_to_paren_field (t1 t2 : ascii) (v rest : string) :
  all_chars not_paren v = true ->
  match rest with EmptyString => True | String c _ => c = "("%char end ->
  m_to_paren (String "(" (String t1 (String t2 ")")))
             (field (String t1 (String t2 ")")) v rest)
  = match v with EmptyString => None | _ => Some v end.
Proof.
  intros Hv Hrest. unfold m_to_paren, field.
  change (String t1 (String t2 ")") +:+ v +:+ rest)
    with (String t1 (String t2 (String ")" (v +:+ rest)))).
  cbn [startsWith length]. rewrite !Ascii.eqb_refl. cbn [andb].
  rewrite !drop_cons, drop_0.
  rewrite take_while_field; [now destruct v | exact Hv |].
  destruct rest as [|c rest]; [exact I|]. now subst c.
Qed.

Lemma g_not_paren : all_chars not_paren g = true.
Proof. exact (digits_not_paren g Hg). Qed.

Lemma e_not_paren : all_chars not_paren e = true.
Proof. exact (digits_not_paren e He). Qed.

Lemma b_not_paren : all_chars not_paren b = true.
Proof. exact (field_not_paren b Hb). Qed.

Lemma s_not_paren : all_chars not_paren s = true.
Proof. exact (field_not_paren s Hs). Qed.

Lemma paren_gtin : match_digits "(01)" 14 (parenthesized g e b s) = Some g.
Proof.
  rewrite parenthesized_fields. unfold match_digits.
  apply search_here. now apply (m_digits_field "0" "1").
Qed.

Lemma paren_expiry : match_digits "(17)" 6 (parenthesized g e b s) = Some e.
Proof.
  rewrite parenthesized_fields. unfold match_digits.
  fold (m_digits "(17)" 6).
  rewrite search_skip_field;
    [| apply needs_paren_digits | reflexivity | reflexivity | exact g_not_paren].
  apply search_here. now apply (m_digits_field "1" "7").
Qed.

Lemma paren_batch :
  match_to_paren "(10)" (parenthesized g e b s)
  = match b with EmptyString => None | _ => Some b end.
Proof.
  rewrite parenthesized_fields. unfold match_to_paren.
  fold (m_to_paren "(10)").
  rewrite search_skip_field;
    [| apply needs_paren_to_paren | reflexivity | reflexivity | exact g_not_paren].
  rewrite search_skip_field;
    [| apply needs_paren_to_paren | reflexivity | reflexivity | exact e_not_paren].
  pose proof (m_to_paren_field "1" "0" b (field "21)" s "") b_not_paren eq_refl) as Hm.
  destruct b as [|c b'] eqn:Eb.
  - rewrite search_skip_field;
      [| apply needs_paren_to_paren | exact Hm | reflexivity | reflexivity].
    rewrite search_skip_field;
      [| apply needs_paren_to_paren | reflexivity | reflexivity | exact s_not_paren].
    reflexivity.
  - now apply search_here.
Qed.

Lemma paren_serial :
  match_to_paren "(21)" (parenthesized g e b s)
  = match s with EmptyString => None | _ => Some s end.
Proof.
  rewrite parenthesized_fields. unfold match_to_paren.
  fold (m_to_paren "(21)").
  rewrite search_skip_field;
    [| apply needs_paren_to_paren | reflexivity | reflexivity | exact g_not_paren].
  rewrite search_skip_field;
    [| apply needs_paren_to_paren | reflexivity | reflexivity | exact e_not_paren].
  rewrite search_skip_field;
    [| apply needs_paren_to_paren | reflexivity | reflexivity | exact b_not_paren].
  pose proof (m_to_paren_field "2" "1" s "" s_not_paren I) as Hm.
  destruct s as [|c s'] eqn:Es.
  - rewrite search_skip_field;
      [| apply needs_paren_to_paren | exact Hm | reflexivity | reflexivity].
    reflexivity.
  - now apply search_here.
Qed.

(** *** The positional text, step by step *)

Lemma includes_paren_false (v : string) :
  all_chars not_paren v = true -> includes "(" v = false.
Proof.
  induction v as [|c v IH]; [reflexivity|].
  cbn [all_chars includes startsWith].
  intros [Hc Hv]%andb_true_iff. rewrite (IH Hv).
  unfold not_paren in Hc. apply negb_true_iff in Hc.
  now rewrite Ascii.eqb_sym, Hc.
Qed.

Lemma positional_no_paren (sep : bool) :
  all_chars not_paren (positional sep g e b s) = true.
Proof.
  unfold positional. cbv zeta. rewrite !all_chars_app.
  rewrite g_not_paren, e_not_paren, b_not_paren, s_not_paren. now destruct sep.
Qed.

Lemma positional_scan (sep : bool) (r : result) :
  scan_suffix 8 (positional sep g e b s) r
  = Some (set_serial (clean s)
            (set_batch (clean b) (_expiry e (set_gtin g r)))).
Proof.
  pose proof (field_not_GS b Hb) as HbG.
  pose proof (field_not_GS s Hs) as HsG.
  unfold positional. destruct sep; cbv zeta.
  - change ("01" +:+ g +:+ GSs +:+ "17" +:+ e +:+ GSs +:+ "10" +:+ b +:+ GSs
                 +:+ "21" +:+ s)
      with (String "0" (String "1" (g +:+ String GS (String "1" (String "7"
              (e +:+ String GS (String "1" (String "0"
                 (b +:+ String GS (String "2" (String "1" s))))))))))).
    rewrite scan_suffix_01 by exact Hg_len.
    rewrite scan_suffix_GS.
    rewrite scan_suffix_17 by exact He_len.
    rewrite scan_suffix_GS.
    rewrite scan_suffix_10 by (exact HbG || reflexivity).
    rewrite scan_suffix_GS.
    rewrite <- (app_empty_r s) at 1.
    rewrite scan_suffix_21 by (exact HsG || exact I).
    reflexivity.
  - change ("01" +:+ g +:+ "" +:+ "17" +:+ e +:+ "" +:+ "10" +:+ b +:+ GSs
                 +:+ "21" +:+ s)
      with (String "0" (String "1" (g +:+ String "1" (String "7"
              (e +:+ String "1" (String "0"
                 (b +:+ String GS (String "2" (String "1" s))))))))).
    rewrite scan_suffix_01 by exact Hg_len.
    rewrite scan_suffix_17 by exact He_len.
    rewrite scan_suffix_10 by (exact HbG || reflexivity).
    rewrite scan_suffix_GS.
    rewrite <- (app_empty_r s) at 1.
    rewrite scan_suffix_21 by (exact HsG || exact I).
    reflexivity.
Qed.

Lemma positional_hasRawGS1 (sep : bool) :
  startsWith "01" (positional sep g e b s)
  && bool_decide (is_Some (digits_here 14 (drop 2 (positional sep g e b s))))
  = true.
Proof.
  unfold positional. cbv zeta.
  change (drop 2 ("01" +:+ ?x)) with x.
  set (rest := (if sep then GSs else "") +:+ _).
  change ("01" +:+ g +:+ rest) with (String "0" (String "1" (g +:+ rest))).
  cbn [startsWith]. rewrite !Ascii.eqb_refl. cbn [andb].
  replace (digits_here 14 (g +:+ rest)) with (Some g)
    by (rewrite <- Hg_len; symmetry; apply digits_here_app; exact Hg).
  apply bool_decide_eq_true_2. eauto.
Qed.

End SameFields.

Section SameFieldsFinal.
Import JS GS1.

Lemma length_positional_ge (sep : bool) (g e b s : string) :
  length g = 14%nat -> (8 <= S (length (positional sep g e b s)))%nat.
Proof.
  intros H. unfold positional. cbv zeta. rewrite !length_app, H.
  cbn [length]. lia.
Qed.

(** The result of the raw concatenated branch on the positional text *)
Lemma parse_positional (sep : bool) (g e b s : string) :
  length g = 14%nat -> all_chars is_digit g = true ->
  length e = 6%nat -> all_chars is_digit e = true ->
  all_chars field_char b = true -> all_chars field_char s = true ->
  parse (positional sep g e b s)
  = set_serial (clean (last s))
      (set_batch (clean (inner b))
         (_expiry e
            (set_gtin g (set_isGS1 true (init (positional sep g e b s)))))).
Proof.
  intros Hgl Hg Hel He Hb Hs.
  pose proof (field_chars_inner b Hb) as b_not_paren.
  pose proof (field_chars_last s Hs) as s_not_paren.
  apply parse_raw_eval with (f := 8%nat).
  - unfold positional. discriminate.
  - unfold hasParens. rewrite code_of_positional by assumption.
    apply includes_paren_false. now apply positional_no_paren.
  - unfold hasRawGS1. rewrite code_of_positional by assumption.
    now apply positional_hasRawGS1.
  - rewrite code_of_positional by assumption.
    now apply positional_scan.
  - rewrite code_of_positional by assumption.
    now apply length_positional_ge.
Qed.

(** The result of the parenthesised branch on the parenthesised text *)
Lemma parse_parenthesized (g e b s : string) :
  length g = 14%nat -> all_chars is_digit g = true ->
  length e = 6%nat -> all_chars is_digit e = true ->
  all_chars field_char b = true -> all_chars field_char s = true ->
  parse (parenthesized g e b s)
  = opt_apply (match last s with EmptyString => None | _ => Some (last s) end)
      (fun v => set_serial (clean v))
      (opt_apply
         (match inner b with EmptyString => None | _ => Some (inner b) end)
         (fun v => set_batch (clean v))
         (_expiry e
            (set_gtin g (set_isGS1 true (init (parenthesized g e b s)))))).
Proof.
  intros Hgl Hg Hel He Hb Hs.
  pose proof (field_chars_inner b Hb) as b_not_paren.
  pose proof (field_chars_last s Hs) as s_not_paren.
  rewrite parse_parens.
  - cbv zeta. rewrite code_of_parenthesized by assumption.
    rewrite paren_gtin, paren_expiry, paren_batch, paren_serial
      by assumption.
    reflexivity.
  - unfold parenthesized. discriminate.
  - unfold hasParens. rewrite code_of_parenthesized by assumption.
    reflexivity.
Qed.

End SameFieldsFinal.

(** C2, as stated, fails.  In [GS1.parse] any "(" sends the input to the
    parenthesised branch, so a batch "A(B" makes the positional text lose
    its gtin; a separator inside a batch ends it there.  In
    [UnifiedBarcodeParser], which knows no separator, the batch of the
    positional text with separators is not found at all. *)
Lemma C2_counterexample :
  let g := "00012345678905" in
  let e := "260630" in
  (GS1.gtin (GS1.parse (positional false g e "A(B" "SER99")) = ""
   /\ GS1.gtin (GS1.parse (parenthesized g e "A(B" "SER99")) = g)
  /\ (GS1.batch (GS1.parse (positional false g e ("A" +:+ GSs +:+ "B") "SER99"))
      = "A"
      /\ GS1.batch (GS1.parse (parenthesized g e ("A" +:+ GSs +:+ "B") "SER99"))
         = "AB")
  /\ (Unified.batch (Unified.parse (positional false g e "BATCH1" "SER99"))
      = None
      /\ Unified.batch (Unified.parse (positional true g e "BATCH1" "SER99"))
         = None
      /\ Unified.batch (Unified.parse (parenthesized g e "BATCH1" "SER99"))
         = Some "BATCH1").
Proof. vm_compute. repeat split. Qed.

(** C2, amended: for [GS1.parse], a GTIN of 14 digits, an expiry of 6
    digits and a batch and a serial that contain neither "(" nor the
    separator 0x1D: parsing the positional text, where a separator ends
    the batch (and, with [sep], also follows the GTIN and the expiry),
    gives the same gtin, expiry token, expiry dates, batch and serial as
    parsing the parenthesised text of the same values; the gtin and the
    expiry token are the encoded ones. *)
Theorem C2_positional_same_fields (sep : bool) (g e b s : string) :
  JS.length g = 14%nat -> JS.all_chars JS.is_digit g = true ->
  JS.length e = 6%nat -> JS.all_chars JS.is_digit e = true ->
  JS.all_chars field_char b = true -> JS.all_chars field_char s = true ->
  let P := GS1.parse (positional sep g e b s) in
  let Q := GS1.parse (parenthesized g e b s) in
  GS1.gtin P = GS1.gtin Q
  /\ GS1.expiry P = GS1.expiry Q
  /\ GS1.expiryISO P = GS1.expiryISO Q
  /\ GS1.expiryDisplay P = GS1.expiryDisplay Q
  /\ GS1.batch P = GS1.batch Q
  /\ GS1.serial P = GS1.serial Q
  /\ GS1.qty P = GS1.qty Q
  /\ GS1.isGS1 P = true /\ GS1.isGS1 Q = true
  /\ GS1.gtin Q = g /\ GS1.expiry Q = e.
Proof.
  intros Hgl Hg Hel He Hb Hs P Q. subst P Q.
  rewrite parse_positional, parse_parenthesized by assumption.
  unfold GS1._expiry. rewrite Hel. change (negb (6 =? 6)%nat) with false.
  cbv iota.
  destruct (inner b), (last s);
    cbn [GS1.opt_apply GS1.set_serial GS1.set_batch GS1.set_expiry
         GS1.set_gtin GS1.set_isGS1 GS1.init GS1.gtin GS1.expiry
         GS1.expiryISO GS1.expiryDisplay GS1.batch GS1.serial GS1.qty
         GS1.isGS1 GS1.raw];
    repeat split.
Qed.

Lemma C2_positional_same_fields_witness :
  GS1.batch (GS1.parse (positional true "00012345678905" "260630"
                                   "BATCH1" "SER99"))
  = GS1.batch (GS1.parse (parenthesized "00012345678905" "260630"
                                        "BATCH1" "SER99")).
Proof.
  exact (proj1 (proj2 (proj2 (proj2 (proj2
    (C2_positional_same_fields true "00012345678905" "260630" "BATCH1" "SER99"
       eq_refl eq_refl eq_refl eq_refl eq_refl eq_refl)))))).
Defined.


(** * Further properties of the code *)

(** ** What [GS1.parse] keeps for every input *)

Section ParseInvariants.
Import JS GS1.

Lemma all_chars_trimStart (p : ascii -> bool) (s : string) :
  all_chars p s = true -> all_chars p (trimStart s) = true.
Proof.
  induction s as [|c s IH]; [reflexivity|]. cbn [trimStart].
  destruct (is_space c); [|auto].
  cbn [all_chars]. intros [_ H]%andb_true_iff. auto.
Qed.

Lemma trimStart_head (s : string) :
  match trimStart s with
  | EmptyString => True
  | String c _ => is_space c = false
  end.
Proof.
  induction s as [|c s IH]; [exact I|]. cbn [trimStart].
  destruct (is_space c) eqn:E; [exact IH | exact E].
Qed.

Lemma trim_head (s : string) :
  match trim s with
  | EmptyString => True
  | String c _ => is_space c = false
  end.
Proof.
  unfold trim. pose proof (trimStart_head s) as H.
  destruct (trimStart s) as [|c t]; [exact I|].
  rewrite trimEnd_cons_keep by exact H. exact H.
Qed.

Lemma clean_clean_token (v : string) : clean_token (clean v).
Proof.
  unfold clean, clean_token. rewrite substring_le by lia.
  rewrite drop_0. change (20 - 0)%nat with 20%nat.
  split_and!.
  - rewrite length_take. lia.
  - apply all_chars_take. unfold trim.
    apply all_chars_trimEnd, all_chars_trimStart, all_chars_keep_self.
  - pose proof (trim_head (keep_chars is_printable v)) as H.
    destruct (trim (keep_chars is_printable v)); [exact I | exact H].
Qed.

Lemma batch_expiry (t : string) (r : result) : batch (_expiry t r) = batch r.
Proof. unfold _expiry. now destruct (negb (length t =? 6)%nat). Qed.

Lemma serial_expiry (t : string) (r : result) : serial (_expiry t r) = serial r.
Proof. unfold _expiry. now destruct (negb (length t =? 6)%nat). Qed.

Lemma raw_expiry (t : string) (r : result) : raw (_expiry t r) = raw r.
Proof. unfold _expiry. now destruct (negb (length t =? 6)%nat). Qed.

Lemma qty_expiry (t : string) (r : result) : qty (_expiry t r) = qty r.
Proof. unfold _expiry. now destruct (negb (length t =? 6)%nat). Qed.

(** A property of the values set by [clean] is kept by the loop. *)
Lemma scan_batch_serial (P : string -> Prop) (code : string) :
  (forall v, P (clean v)) ->
  forall fuel pos r r',
    scan fuel code pos r = Some r' ->
    P (batch r) -> P (serial r) -> P (batch r') /\ P (serial r').
Proof.
  intros HP. induction fuel as [|fuel IH]; intros pos r r'; simpl;
    [discriminate|].
  destruct (negb (pos <? length code)%nat); [intros [= ->]; auto|].
  destruct (bool_decide (charAt pos code = Some GS)); [apply IH|].
  destruct (String.eqb (substring pos (pos + 2) code) "01");
    [intros H Hb Hs; apply IH in H; [exact H | exact Hb | exact Hs]|].
  destruct (String.eqb (substring pos (pos + 2) code) "17").
  { intros H Hb Hs. apply IH in H; [exact H | |];
      now rewrite ?batch_expiry, ?serial_expiry. }
  destruct (String.eqb (substring pos (pos + 2) code) "10").
  { intros H Hb Hs. apply IH in H; [exact H | apply HP | exact Hs]. }
  destruct (String.eqb (substring pos (pos + 2) code) "21").
  { intros H Hb Hs. apply IH in H; [exact H | exact Hb | apply HP]. }
  apply IH.
Qed.

Lemma scan_raw_qty (code : string) :
  forall fuel pos r r',
    scan fuel code pos r = Some r' -> raw r' = raw r /\ qty r' = qty r.
Proof.
  induction fuel as [|fuel IH]; intros pos r r'; simpl; [discriminate|].
  repeat match goal with
         | |- context [if ?b then _ else _] => destruct b
         end;
    try (intros H; apply IH in H; destruct H as [-> ->];
         rewrite ?raw_expiry, ?qty_expiry; split; reflexivity).
  now intros [= ->].
Qed.

Lemma parse_empty : parse "" = init "".
Proof. reflexivity. Qed.

Lemma parse_cases (P : result -> Prop) (raw : string) :
  (raw = "" -> P (init "")) ->
  (raw <> "" -> hasParens raw = false -> hasRawGS1 raw = false ->
   P (let d := keep_chars is_digit (code_of raw) in
      if (8 <=? length d)%nat && (length d <=? 14)%nat
      then set_gtin (padStart 14 "0" d) (init raw) else init raw)) ->
  (raw <> "" -> hasParens raw = true ->
   P (let code := code_of raw in
      opt_apply (match_to_paren "(21)" code) (fun s => set_serial (clean s))
        (opt_apply (match_to_paren "(10)" code) (fun b => set_batch (clean b))
           (opt_apply (match_digits "(17)" 6 code) _expiry
              (opt_apply (match_digits "(01)" 14 code) set_gtin
                 (set_isGS1 true (init raw))))))) ->
  (raw <> "" -> hasParens raw = false -> hasRawGS1 raw = true ->
   forall fuel r,
     scan fuel (code_of raw) 0 (set_isGS1 true (init raw)) = Some r -> P r) ->
  P (parse raw).
Proof.
  intros H0 H1 H2 H3.
  destruct (String.eqb raw "") eqn:E.
  { apply String.eqb_eq in E. subst raw. now apply H0. }
  apply String.eqb_neq in E.
  destruct (hasParens raw) eqn:Hp.
  { rewrite parse_parens by assumption. now apply H2. }
  destruct (hasRawGS1 raw) eqn:Hg.
  { destruct (parse_raw raw E Hp Hg) as [fuel Hscan].
    now apply (H3 E eq_refl eq_refl fuel). }
  rewrite parse_plain by assumption. now apply H1.
Qed.

Lemma parse_raw_field (x : string) : raw (parse x) = x.
Proof.
  apply (parse_cases (fun r => raw r = x)).
  - now intros ->.
  - intros _ _ _. cbv zeta. now destruct (_ && _).
  - intros _ _. cbv zeta. unfold opt_apply.
    repeat match goal with
           | |- context [match ?o with Some _ => _ | None => _ end] =>
               destruct o
           end; simpl; rewrite ?raw_expiry; reflexivity.
  - intros _ _ _ fuel r H. now apply scan_raw_qty in H as [-> _].
Qed.

Lemma parse_qty_field (x : string) : qty (parse x) = 1.
Proof.
  apply (parse_cases (fun r => qty r = 1)).
  - reflexivity.
  - intros _ _ _. cbv zeta. now destruct (_ && _).
  - intros _ _. cbv zeta. unfold opt_apply.
    repeat match goal with
           | |- context [match ?o with Some _ => _ | None => _ end] =>
               destruct o
           end; simpl; rewrite ?qty_expiry; reflexivity.
  - intros _ _ _ fuel r H. now apply scan_raw_qty in H as [_ ->].
Qed.

End ParseInvariants.

(** X1: for every input, the batch and the serial that [GS1.parse]
    returns have at most 20 characters, all printable ASCII, and do not
    start with a space (a trailing space can remain where the value was
    cut at 20 characters). *)
Theorem parse_batch_serial_clean (raw : string) :
  clean_token (GS1.batch (GS1.parse raw))
  /\ clean_token (GS1.serial (GS1.parse raw)).
Proof.
  assert (H0 : clean_token "") by (repeat split; simpl; lia).
  apply (parse_cases
           (fun r => clean_token (GS1.batch r) /\ clean_token (GS1.serial r))).
  - intros _. now split.
  - intros _ _ _. cbv zeta. destruct (_ && _); now split.
  - intros _ _. cbv zeta. unfold GS1.opt_apply.
    repeat match goal with
           | |- context [match ?o with Some _ => _ | None => _ end] =>
               destruct o
           end; simpl; rewrite ?batch_expiry, ?serial_expiry; simpl;
      split; auto using clean_clean_token.
  - intros _ _ _ fuel r Hscan.
    apply (scan_batch_serial clean_token _ clean_clean_token _ _ _ _ Hscan);
      exact H0.
Qed.

(** A cut at 20 characters can leave a space at the end. *)
Lemma clean_trailing_space :
  GS1.batch (GS1.parse "(01)00012345678905(10)ABCDEFGHIJKLMNOPQRS TUV")
  = "ABCDEFGHIJKLMNOPQRS ".
Proof. vm_compute. reflexivity. Qed.

Section PlainResults.
Import JS GS1.

Lemma trimEnd_no_space (s : string) :
  all_chars (fun c => negb (is_space c)) s = true -> trimEnd s = s.
Proof.
  induction s as [|c s IH]; [reflexivity|]. cbn [all_chars].
  intros [Hc Hs]%andb_true_iff. apply negb_true_iff in Hc.
  rewrite trimEnd_cons_keep by exact Hc. now rewrite IH.
Qed.

Lemma trim_no_space (s : string) :
  all_chars (fun c => negb (is_space c)) s = true -> trim s = s.
Proof.
  intros H. unfold trim.
  replace (trimStart s) with s; [now apply trimEnd_no_space|].
  destruct s as [|c s]; [reflexivity|]. cbn [all_chars] in H.
  apply andb_true_iff in H as [Hc _]. apply negb_true_iff in Hc.
  now rewrite trimStart_cons_keep.
Qed.

(** A string of digits is its own cleaned text. *)
Lemma code_of_digits (x : string) :
  all_chars is_digit x = true -> code_of x = x.
Proof.
  intros H. unfold code_of. rewrite trim_no_space.
  - now apply digits_not_crlftab.
  - revert H. apply all_chars_impl. intros c Hc.
    apply negb_true_iff. now apply digit_field_chars.
Qed.

Lemma all_chars_padStart_digits (x : string) :
  all_chars is_digit x = true ->
  all_chars is_digit (padStart 14 "0" x) = true.
Proof.
  intros H. unfold padStart.
  now rewrite all_chars_app, all_chars_repeat, H.
Qed.

Lemma digits_here_short (n : nat) (s : string) :
  (length s < n)%nat -> digits_here n s = None.
Proof.
  intros H. unfold digits_here.
  replace (length (take n s) =? n)%nat with false; [reflexivity|].
  symmetry. apply Nat.eqb_neq. rewrite length_take. lia.
Qed.

(** A string of 14 digits is parsed as a plain code and is its own gtin. *)
Lemma parse_14_digits (x : string) :
  length x = 14%nat -> all_chars is_digit x = true ->
  parse x = set_gtin x (init x).
Proof.
  intros Hlen Hdig.
  assert (Hne : x <> "") by (intros ->; discriminate).
  rewrite parse_plain.
  - cbv zeta. rewrite code_of_digits, keep_chars_all by exact Hdig.
    rewrite Hlen. cbn [Nat.leb andb]. now rewrite padStart_full by lia.
  - exact Hne.
  - unfold hasParens. rewrite code_of_digits by exact Hdig.
    apply includes_paren_false. now apply digits_not_paren.
  - unfold hasRawGS1. rewrite code_of_digits by exact Hdig.
    rewrite digits_here_short by (rewrite length_drop; lia).
    rewrite bool_decide_eq_false_2 by (intros [? ?]; discriminate).
    apply andb_false_r.
Qed.

End PlainResults.

(** The gtin of a plain result, when there is one, is 14 digits. *)
Lemma plain_gtin_digits (raw : string) :
  GS1.isGS1 (GS1.parse raw) = false -> GS1.gtin (GS1.parse raw) <> "" ->
  JS.length (GS1.gtin (GS1.parse raw)) = 14%nat
  /\ JS.all_chars JS.is_digit (GS1.gtin (GS1.parse raw)) = true.
Proof.
  intros Hgs Hne. rewrite isGS1_parse in Hgs.
  destruct (String.eqb raw "") eqn:Hraw.
  { apply String.eqb_eq in Hraw. subst raw. now contradiction Hne. }
  simpl in Hgs. apply orb_false_iff in Hgs as [Hp Hg].
  apply String.eqb_neq in Hraw.
  rewrite (parse_plain raw Hraw Hp Hg) in *. cbv zeta in *.
  destruct (_ && _) eqn:E; [|now contradiction Hne].
  apply andb_true_iff in E as [_ E%Nat.leb_le].
  simpl. split; [rewrite length_padStart; lia|].
  apply all_chars_padStart_digits, all_chars_keep_self.
Qed.

(** X2: a result that [GS1.parse] does not flag as GS1 carries no expiry,
    batch or serial; its gtin is the digits of the input left-padded
    with zeros to 14 when there are 8 to 14 of them, and empty when
    there are fewer than 8 or more than 14. *)
Theorem parse_plain_shape (raw : string) :
  GS1.isGS1 (GS1.parse raw) = false ->
  let r := GS1.parse raw in
  let d := JS.keep_chars JS.is_digit raw in
  GS1.expiry r = "" /\ GS1.expiryISO r = "" /\ GS1.expiryDisplay r = ""
  /\ GS1.batch r = "" /\ GS1.serial r = ""
  /\ ((8 <= JS.length d <= 14)%nat ->
      GS1.gtin r = JS.padStart 14 "0" d /\ JS.length (GS1.gtin r) = 14%nat
      /\ JS.all_chars JS.is_digit (GS1.gtin r) = true)
  /\ ((JS.length d < 8 \/ 14 < JS.length d)%nat -> GS1.gtin r = "").
Proof.
  intros Hgs r d. subst r. rewrite isGS1_parse in Hgs.
  destruct (String.eqb raw "") eqn:Hraw.
  { apply String.eqb_eq in Hraw. subst raw d. rewrite parse_empty.
    simpl. repeat split; intros; lia. }
  simpl in Hgs. apply orb_false_iff in Hgs as [Hp Hg].
  apply String.eqb_neq in Hraw.
  rewrite (parse_plain raw Hraw Hp Hg). cbv zeta.
  rewrite digits_code_of. fold d.
  destruct ((8 <=? JS.length d)%nat && (JS.length d <=? 14)%nat) eqn:E.
  - apply andb_true_iff in E as [E1%Nat.leb_le E2%Nat.leb_le].
    simpl. split_and!; try reflexivity.
    + intros _. split_and!; [reflexivity | rewrite length_padStart; lia |].
      apply all_chars_padStart_digits. subst d. apply all_chars_keep_self.
    + intros [?|?]; lia.
  - apply andb_false_iff in E as [E%Nat.leb_gt | E%Nat.leb_gt];
      simpl; split_and!; try reflexivity; intros; lia.
Qed.

Lemma parse_plain_shape_witness :
  GS1.gtin (GS1.parse "4006381333931") = "04006381333931".
Proof.
  destruct (parse_plain_shape "4006381333931" eq_refl) as (_ & _ & _ & _ & _ & H & _).
  apply H. vm_compute. split; lia.
Defined.

(** X3: the gtin of a plain result is a fixed point of [GS1.parse]:
    parsing it again gives a plain result with the same gtin. *)
Theorem parse_gtin_fixed_point (raw : string) :
  GS1.isGS1 (GS1.parse raw) = false -> GS1.gtin (GS1.parse raw) <> "" ->
  let g := GS1.gtin (GS1.parse raw) in
  GS1.gtin (GS1.parse g) = g /\ GS1.isGS1 (GS1.parse g) = false.
Proof.
  intros Hgs Hne g.
  destruct (plain_gtin_digits raw Hgs Hne) as [Hlen Hdig].
  fold g in Hlen, Hdig.
  now rewrite (parse_14_digits g Hlen Hdig).
Qed.

Lemma parse_gtin_fixed_point_witness :
  GS1.gtin (GS1.parse (GS1.gtin (GS1.parse "629-1107-439358")))
  = GS1.gtin (GS1.parse "629-1107-439358").
Proof.
  apply (parse_gtin_fixed_point "629-1107-439358" eq_refl).
  vm_compute. discriminate.
Defined.

(** X4: [GS1.parse] hands back the input in [raw] and 1 in [qty]
    whatever it reads, and sets [isGS1] exactly when the input is not
    empty and its cleaned text contains "(" or starts with "01" followed
    by 14 digits. *)
Theorem parse_raw_qty_flag (raw : string) :
  GS1.raw (GS1.parse raw) = raw /\ GS1.qty (GS1.parse raw) = 1
  /\ (GS1.isGS1 (GS1.parse raw) = true <->
      raw <> ""
      /\ (JS.includes "(" (GS1.code_of raw) = true
          \/ (JS.startsWith "01" (GS1.code_of raw) = true
              /\ exists g, JS.digits_here 14 (JS.drop 2 (GS1.code_of raw))
                           = Some g))).
Proof.
  split_and!.
  - apply parse_raw_field.
  - apply parse_qty_field.
  - rewrite isGS1_parse. unfold hasParens, hasRawGS1.
    rewrite andb_true_iff, negb_true_iff, String.eqb_neq, orb_true_iff,
      andb_true_iff, bool_decide_eq_true.
    unfold is_Some. reflexivity.
Qed.

(** ** The scan flow: [onBarcode] *)

Section ScanFlow.
Import JS GS1.

Lemma trimEnd_idem (s : string) : trimEnd (trimEnd s) = trimEnd s.
Proof.
  induction s as [|c s IH]; [reflexivity|]. cbn [trimEnd].
  destruct (trimEnd s) as [|c' t] eqn:E.
  - destruct (is_space c) eqn:Hc; [reflexivity|].
    cbn [trimEnd]. now rewrite Hc.
  - cbn [trimEnd] in *. rewrite IH. reflexivity.
Qed.

Lemma trim_idem (s : string) : trim (trim s) = trim s.
Proof.
  unfold trim. pose proof (trimStart_head s) as H.
  destruct (trimStart s) as [|c t] eqn:E; [reflexivity|].
  rewrite trimEnd_cons_keep by exact H.
  rewrite trimStart_cons_keep by exact H.
  rewrite <- (trimEnd_cons_keep c t H). apply trimEnd_idem.
Qed.

Lemma code_of_trim (raw : string) : code_of (trim raw) = code_of raw.
Proof. unfold code_of. now rewrite trim_idem. Qed.

Lemma with_raw_expiry (x t : string) (r : result) :
  with_raw x (_expiry t r) = _expiry t (with_raw x r).
Proof. unfold _expiry. now destruct (negb (length t =? 6)%nat). Qed.

Lemma scan_with_raw (x code : string) :
  forall fuel pos r,
    scan fuel code pos (with_raw x r)
    = option_map (with_raw x) (scan fuel code pos r).
Proof.
  induction fuel as [|fuel IH]; intros pos r; [reflexivity|]. simpl.
  repeat match goal with
         | |- context [if ?b then _ else _] => destruct b
         end;
    rewrite <- ?IH, ?with_raw_expiry; reflexivity.
Qed.

(** The fields other than [raw] depend on the cleaned text only. *)
Lemma parse_by_code (r1 r2 : string) :
  r1 <> "" -> r2 <> "" -> code_of r1 = code_of r2 ->
  same_fields (parse r1) (parse r2).
Proof.
  intros H1 H2 Hc. unfold same_fields, parse.
  apply String.eqb_neq in H1, H2. rewrite H1, H2. cbv zeta. rewrite Hc.
  destruct (negb (includes "(" (code_of r2)) && _).
  { now destruct (_ && _). }
  destruct (includes "(" (code_of r2)).
  { unfold opt_apply.
    repeat match goal with
           | |- context [match ?o with Some _ => _ | None => _ end] =>
               destruct o
           end; unfold _expiry;
      repeat match goal with
             | |- context [if ?b then _ else _] => destruct b
             end; reflexivity. }
  change (set_isGS1 true (init r1))
    with (with_raw r1 (set_isGS1 true (init ""))).
  change (set_isGS1 true (init r2))
    with (with_raw r2 (set_isGS1 true (init ""))).
  rewrite !scan_with_raw.
  now destruct (scan _ (code_of r2) 0 (set_isGS1 true (init ""))).
Qed.

Lemma parse_blank (raw : string) :
  code_of raw = "" -> same_fields (parse raw) (init "").
Proof.
  intros Hc. unfold same_fields, parse.
  destruct (String.eqb raw ""); [reflexivity|]. cbv zeta. now rewrite Hc.
Qed.

Lemma find_none_empty (S : Master.index) (g : string) :
  Master.how (Master.find S g) = Master.NONE ->
  Master.f_name (Master.find S g) = "" /\ Master.f_rms (Master.find S g) = "".
Proof.
  unfold Master.find. destruct (negb (Master.truthy g)); [now split|].
  induction (Master.candidates g) as [|c cs IH]; [now split|].
  cbn [Master.find_loop]. destruct (Master.masterIndex S !! c); [|exact IH].
  simpl. now destruct (String.eqb c g).
Qed.

Lemma trim_same_fields (raw : string) :
  same_fields (parse (trim raw)) (parse raw).
Proof.
  destruct (String.eqb (JS.trim raw) "") eqn:E.
  - apply String.eqb_eq in E.
    assert (Hc : code_of raw = "") by (unfold code_of; now rewrite E).
    rewrite E. unfold same_fields.
    now rewrite (parse_blank raw Hc).
  - apply String.eqb_neq in E. apply parse_by_code.
    + exact E.
    + intros ->. now apply E.
    + apply code_of_trim.
Qed.

End ScanFlow.

(** X5: the fields that [GS1.parse] returns, [raw] apart, depend on the
    input only through its cleaned text: two inputs with the same cleaned
    text give the same fields.  So surrounding white space and any
    carriage return, line feed or tab change nothing, and the trim that
    [onBarcode] applies first is without effect on them. *)
Theorem parse_same_cleaned_text (r1 r2 : string) :
  GS1.code_of r1 = GS1.code_of r2 ->
  same_fields (GS1.parse r1) (GS1.parse r2)
  /\ same_fields (GS1.parse (JS.trim r1)) (GS1.parse r1).
Proof.
  intros Hc. split; [|apply trim_same_fields].
  destruct (String.eqb r1 "") eqn:E1.
  { apply String.eqb_eq in E1. subst r1. unfold same_fields.
    rewrite (parse_blank r2) by now rewrite <- Hc. reflexivity. }
  destruct (String.eqb r2 "") eqn:E2.
  { apply String.eqb_eq in E2. subst r2. unfold same_fields.
    rewrite (parse_blank r1) by now rewrite Hc. reflexivity. }
  apply String.eqb_neq in E1, E2. now apply parse_by_code.
Qed.

Lemma parse_same_cleaned_text_witness :
  let r1 := "  (01)00012345678905(17)260630 " in
  let r2 := "(01)0001234567" +:+ String "009" (String "010" "8905(17)260630") in
  same_fields (GS1.parse r1) (GS1.parse r2).
Proof.
  intros r1 r2.
  assert (H : GS1.code_of r1 = GS1.code_of r2) by (vm_compute; reflexivity).
  exact (proj1 (parse_same_cleaned_text r1 r2 H)).
Defined.

(** X6: [onBarcode] ignores an input that is empty or white space,
    reports that no barcode could be extracted exactly when [GS1.parse]
    finds no gtin in the input, and otherwise drafts the entry that
    holds the trimmed input, the fields parsed from the input, the
    outcome of [Master.find] on the gtin (its way of matching, its rms,
    and its name or "Unknown Product" when that name is empty),
    quantity 1, no supplier, no returnable mark and the time of the
    scan; when nothing matches, the entry is named "Unknown Product" and
    has no rms.  The flag handed to the product panel, on which the OCR
    button is hidden, is set only for a GS1 input with an expiry. *)
Theorem onBarcode_outcome (S : Master.index) (now : Z) (raw : string) :
  let p := GS1.parse raw in
  let m := Master.find S (GS1.gtin p) in
  (JS.trim raw = "" -> App.onBarcode S now raw = App.ignored)
  /\ (JS.trim raw <> "" -> GS1.gtin p = "" ->
      App.onBarcode S now raw = App.no_barcode)
  /\ (JS.trim raw <> "" -> GS1.gtin p <> "" ->
      App.onBarcode S now raw
      = App.draft
          (App.mkEntry (JS.trim raw) (GS1.gtin p)
             (if Master.truthy (Master.f_name m)
              then Master.f_name m else "Unknown Product")
             (Master.f_rms m) (Master.how m)
             (GS1.expiry p) (GS1.expiryISO p) (GS1.expiryDisplay p)
             (GS1.batch p) (GS1.serial p) 1 "" "" now)
          (GS1.isGS1 p && Master.truthy (GS1.expiryISO p))
      /\ (Master.how m = Master.NONE ->
          Master.f_name m = "" /\ Master.f_rms m = ""
          /\ (if Master.truthy (Master.f_name m)
              then Master.f_name m else "Unknown Product")
             = "Unknown Product")).
Proof.
  intros p m. subst p m.
  pose proof (trim_same_fields raw) as Hsame.
  unfold same_fields in Hsame.
  assert (Hf : forall f : GS1.result -> string,
             (forall x r, f (with_raw x r) = f r) ->
             f (GS1.parse (JS.trim raw)) = f (GS1.parse raw)).
  { intros f Hfr. rewrite <- (Hfr "" (GS1.parse (JS.trim raw))).
    rewrite Hsame. apply Hfr. }
  assert (Hflag : GS1.isGS1 (GS1.parse (JS.trim raw))
                  = GS1.isGS1 (GS1.parse raw)).
  { change (GS1.isGS1 (with_raw "" (GS1.parse (JS.trim raw)))
            = GS1.isGS1 (with_raw "" (GS1.parse raw))).
    now rewrite Hsame. }
  pose proof (Hf GS1.gtin (fun _ _ => eq_refl)) as Hgtin.
  unfold App.onBarcode.
  split_and!.
  - intros ->. now rewrite orb_true_r.
  - intros Ht Hg.
    assert (Hraw : raw <> "") by (intros ->; now apply Ht).
    apply String.eqb_neq in Ht, Hraw. unfold Master.truthy.
    rewrite Ht, Hraw. cbn [negb orb]. now rewrite Hgtin, Hg.
  - intros Ht Hg.
    assert (Hraw : raw <> "") by (intros ->; now apply Ht).
    split.
    + apply String.eqb_neq in Ht, Hraw, Hg. unfold Master.truthy at 1 2 3.
      rewrite Ht, Hraw. cbn [negb orb]. rewrite Hgtin, Hg. cbn [negb].
      cbv zeta.
      rewrite Hflag, parse_raw_field.
      rewrite (Hf GS1.expiry), (Hf GS1.expiryISO), (Hf GS1.expiryDisplay),
        (Hf GS1.batch), (Hf GS1.serial) by reflexivity.
      reflexivity.
    + intros Hn. destruct (find_none_empty S _ Hn) as [Hname Hrms].
      rewrite Hname. now split_and!.
Qed.

Lemma onBarcode_outcome_witness :
  App.onBarcode (Master.build [Master.mkItem "12345678" "Panadol" "R-1"]) 0
    " 12345678 "
  = App.draft
      (App.mkEntry "12345678" "00000012345678" "Panadol" "R-1" Master.EXACT
         "" "" "" "" "" 1 "" "" 0)
      false.
Proof.
  destruct (proj2 (proj2 (onBarcode_outcome
                            (Master.build
                               [Master.mkItem "12345678" "Panadol" "R-1"])
                            0 " 12345678 "))) as [He _].
  - vm_compute. discriminate.
  - vm_compute. discriminate.
  - rewrite He. vm_compute. reflexivity.
Defined.

(** ** The end of a variable-length field: [_varEnd] *)

Section VarEnd.
Import JS GS1.

Lemma all_chars_take_while (p : ascii -> bool) (s : string) :
  all_chars p (take_while p s) = true.
Proof.
  induction s as [|c s IH]; [reflexivity|]. cbn [take_while].
  destruct (p c) eqn:E; [|reflexivity]. cbn [all_chars]. now rewrite E.
Qed.

Lemma length_take_while_le (p : ascii -> bool) (s : string) :
  (length (take_while p s) <= length s)%nat.
Proof.
  induction s as [|c s IH]; simpl; [lia|]. destruct (p c); simpl; lia.
Qed.

Lemma charAt_after_take_while (p : ascii -> bool) (s : string) :
  (length (take_while p s) < length s)%nat ->
  exists c, charAt (length (take_while p s)) s = Some c /\ p c = false.
Proof.
  induction s as [|c s IH]; simpl; [lia|].
  destruct (p c) eqn:E; simpl; [|intros _; now exists c].
  intros H. apply IH. lia.
Qed.

Lemma charAt_add (n k : nat) (s : string) :
  charAt (n + k) s = charAt k (drop n s).
Proof.
  revert s; induction n as [|n IH]; intros s; [reflexivity|].
  destruct s as [|c s]; [now destruct k|]. apply IH.
Qed.

Lemma varEnd_take_while (code : string) (start : nat) :
  (start <= length code)%nat ->
  _varEnd code start
  = (start + length (take_while not_GS (drop start code)))%nat.
Proof.
  intros H. unfold _varEnd.
  replace (length code <? start)%nat with false
    by (symmetry; apply Nat.ltb_ge; exact H).
  apply varEnd_from_take_while.
Qed.

End VarEnd.

(** X7: from a start within the text, [_varEnd] returns a position
    between the start and the end of the text; the characters from the
    start up to it hold no separator 0x1D, and it is the end of the text
    or the position of a separator.  From a start beyond the text it
    returns the length of the text. *)
Theorem varEnd_bounds (code : string) (start : nat) :
  ((start <= JS.length code)%nat ->
   let e := GS1._varEnd code start in
   (start <= e <= JS.length code)%nat
   /\ JS.all_chars not_GS (JS.substring start e code) = true
   /\ ((e < JS.length code)%nat -> JS.charAt e code = Some JS.GS))
  /\ ((JS.length code < start)%nat ->
      GS1._varEnd code start = JS.length code).
Proof.
  split.
  - intros H. cbv zeta. rewrite (varEnd_take_while code start H).
    set (run := JS.take_while not_GS (JS.drop start code)).
    pose proof (length_take_while_le not_GS (JS.drop start code)) as Hle.
    fold run in Hle. rewrite length_drop in Hle.
    split_and!; try lia.
    + rewrite substring_le by lia.
      replace (start + JS.length run - start)%nat with (JS.length run) by lia.
      subst run. rewrite take_length_take_while.
      apply all_chars_take_while.
    + intros Hlt. rewrite charAt_add.
      destruct (charAt_after_take_while not_GS (JS.drop start code))
        as (c & Hc & Hp).
      { fold run. rewrite length_drop. lia. }
      fold run in Hc. rewrite Hc. unfold not_GS in Hp.
      apply negb_false_iff, Ascii.eqb_eq in Hp. now subst c.
  - intros H. unfold GS1._varEnd.
    now replace (JS.length code <? start)%nat with true
      by (symmetry; apply Nat.ltb_lt; exact H).
Qed.

Lemma varEnd_bounds_witness :
  JS.charAt (GS1._varEnd ("10AB" +:+ GSs +:+ "21C") 2)
            ("10AB" +:+ GSs +:+ "21C") = Some JS.GS.
Proof.
  destruct (proj1 (varEnd_bounds ("10AB" +:+ GSs +:+ "21C") 2))
    as (_ & _ & H); [vm_compute; lia|].
  apply H. vm_compute. lia.
Defined.

(** ** From the date token to the status *)

Section TokenToStatus.
Import JS GS1.

Lemma in_range (a n : nat) (z : Z) :
  Z.of_nat a <= z < Z.of_nat (a + n) -> In z (range a n).
Proof.
  intros H. unfold range. apply in_map_iff. exists (Z.to_nat z).
  split; [lia|]. apply in_seq. lia.
Qed.

(** The calendar dates of the years 2000 to 2099, checked one by one *)
Lemma iso_round_trip_all :
  forallb (fun y => forallb (fun m => forallb (iso_round_trip_ok y m)
                                             (range 1 31))
                            (range 1 12))
          (range 2000 100) = true.
Proof. vm_compute. reflexivity. Qed.

Lemma Date_parse_iso_string (y m d : Z) :
  2000 <= y <= 2099 -> 1 <= m <= 12 -> 1 <= d <= days_in_month y m ->
  Date_parse (iso_string y m d) = Some (msPerDay * day_number y m d).
Proof.
  intros Hy Hm Hd.
  assert (Hd31 : d <= 31).
  { unfold days_in_month in Hd.
    repeat match type of Hd with
           | context [if ?b then _ else _] => destruct b
           end; lia. }
  pose proof iso_round_trip_all as H.
  rewrite forallb_forall in H.
  specialize (H y (in_range 2000 100 y ltac:(lia))).
  rewrite forallb_forall in H.
  specialize (H m (in_range 1 12 m ltac:(lia))).
  rewrite forallb_forall in H.
  specialize (H d (in_range 1 31 d ltac:(lia))).
  unfold iso_round_trip_ok in H.
  replace ((1 <=? d) && (d <=? days_in_month y m)) with true in H
    by (symmetry; apply andb_true_iff; split; apply Z.leb_le; lia).
  destruct (Date_parse (iso_string y m d)); [|discriminate].
  apply Z.eqb_eq in H. now subst.
Qed.

(** The fields that [_expiry] sets from a token of six digits *)
Lemma expiry_of_digits (tok : string) (r : result) :
  length tok = 6%nat -> all_chars is_digit tok = true ->
  let YY := two_digits (substring 0 2 tok) in
  let MM := two_digits (substring 2 4 tok) in
  let DD := two_digits (substring 4 6 tok) in
  (0 <= YY <= 99 /\ 0 <= MM <= 99 /\ 0 <= DD <= 99)
  /\ (1 <= MM <= 12 ->
      let D := if DD =? 0 then days_in_month (2000 + YY) MM else DD in
      _expiry tok r
      = set_expiry tok (iso_string (2000 + YY) MM D)
          (pad2 (Some D) +:+ "/" +:+ pad2 (Some MM) +:+ "/"
                +:+ toString (Some (2000 + YY))) r).
Proof.
  intros Hlen Hdig.
  destruct tok as [|c1 [|c2 [|c3 [|c4 [|c5 [|c6 [|c7 tok]]]]]]];
    try discriminate Hlen.
  simpl in Hdig.
  repeat (apply andb_true_iff in Hdig; destruct Hdig as [? Hdig]).
  change (substring 0 2 _) with (String c1 (String c2 EmptyString)).
  change (substring 2 4 _) with (String c3 (String c4 EmptyString)).
  change (substring 4 6 _) with (String c5 (String c6 EmptyString)).
  cbv zeta. unfold two_digits.
  pose proof (digit_of_range c1 ltac:(assumption)).
  pose proof (digit_of_range c2 ltac:(assumption)).
  pose proof (digit_of_range c3 ltac:(assumption)).
  pose proof (digit_of_range c4 ltac:(assumption)).
  pose proof (digit_of_range c5 ltac:(assumption)).
  pose proof (digit_of_range c6 ltac:(assumption)).
  split; [lia|]. intros HM.
  unfold _expiry.
  change (negb (length _ =? 6)%nat) with false. cbv iota.
  change (substring 0 2 _) with (String c1 (String c2 EmptyString)).
  change (substring 2 4 _) with (String c3 (String c4 EmptyString)).
  change (substring 4 6 _) with (String c5 (String c6 EmptyString)).
  rewrite !parseInt_two_digits by assumption.
  set (YY := 10 * digit_of c1 + digit_of c2) in *.
  set (MM := 10 * digit_of c3 + digit_of c4) in *.
  set (DD := 10 * digit_of c5 + digit_of c6) in *.
  destruct (Z.eqb_spec DD 0) as [E0|E0].
  - rewrite E0. rewrite day0_in_range by lia. reflexivity.
  - destruct DD; [contradiction | reflexivity | reflexivity].
Qed.

End TokenToStatus.

(** X8: for a token of six digits YYMMDD whose month is 01 to 12 and
    whose day is 00 or a day of that month, the date text that
    [GS1._expiry] writes is read back by the date parser of [GS1.status]
    as that very calendar day (the last day of the month for day 00), and
    the display text is that day as DD/MM/YYYY.  Where the clock runs on
    UTC (offset 0 all year), the status of the result then depends on
    the number of days from today to that day only. *)
Theorem expiry_text_read_back (tok : string) (r : GS1.result)
  (SOON now : Z) :
  JS.length tok = 6%nat -> JS.all_chars JS.is_digit tok = true ->
  let YY := two_digits (JS.substring 0 2 tok) in
  let MM := two_digits (JS.substring 2 4 tok) in
  let DD := two_digits (JS.substring 4 6 tok) in
  1 <= MM <= 12 -> DD <= JS.days_in_month (2000 + YY) MM ->
  let D := if DD =? 0 then JS.days_in_month (2000 + YY) MM else DD in
  let day := JS.day_number (2000 + YY) MM D in
  let r' := GS1._expiry tok r in
  JS.Date_parse (GS1.expiryISO r') = Some (JS.msPerDay * day)
  /\ GS1.expiryDisplay r'
     = GS1.pad2 (Some D) +:+ "/" +:+ GS1.pad2 (Some MM) +:+ "/"
                +:+ JS.toString (Some (2000 + YY))
  /\ (let diff := day - now / JS.msPerDay in
      GS1.status SOON 0 now (GS1.expiryISO r')
      = if diff <? 0 then GS1.expired
        else if diff <=? SOON then GS1.expiring else GS1.ok).
Proof.
  intros Hlen Hdig YY MM DD HM HD D day r'.
  destruct (expiry_of_digits tok r Hlen Hdig) as [(HY & _ & HDD) Hexp].
  fold YY MM DD in HY, HDD, Hexp. specialize (Hexp HM). cbv zeta in Hexp.
  fold D in Hexp. subst r'. rewrite Hexp. cbn [GS1.expiryISO GS1.expiryDisplay
                                               GS1.set_expiry].
  assert (HDr : 1 <= D <= JS.days_in_month (2000 + YY) MM).
  { subst D. destruct (Z.eqb_spec DD 0); [|lia].
    unfold JS.days_in_month.
    repeat match goal with
           | |- context [if ?b then _ else _] => destruct b
           end; lia. }
  assert (Hparse : JS.Date_parse (iso_string (2000 + YY) MM D)
                   = Some (JS.msPerDay * day))
    by (apply Date_parse_iso_string; lia).
  split_and!; [exact Hparse | reflexivity |].
  rewrite (status_by_days _ _ _ _ _ Hparse). cbv zeta.
  rewrite local_day_of_date.
  change (0 * 60000 / JS.msPerDay) with 0. rewrite Z.add_0_r.
  unfold local_day. now rewrite Z.add_0_r.
Qed.

Lemma expiry_text_read_back_witness :
  JS.Date_parse (GS1.expiryISO (GS1._expiry "280200" (GS1.init "")))
  = Some (JS.msPerDay * JS.day_number 2028 2 29)
  /\ GS1.status 90 0 (JS.msPerDay * JS.day_number 2028 2 1)
       (GS1.expiryISO (GS1._expiry "280200" (GS1.init ""))) = GS1.expiring.
Proof.
  destruct (expiry_text_read_back "280200" (GS1.init "") 90
              (JS.msPerDay * JS.day_number 2028 2 1)
              eq_refl eq_refl ltac:(vm_compute; split; discriminate)
              ltac:(vm_compute; discriminate)) as (H1 & _ & H3).
  split; [exact H1|]. rewrite H3. vm_compute. reflexivity.
Defined.

(** ** The status as the clock advances *)

Section StatusOrder.
Import JS GS1.

Lemma local_day_mono (tz t1 t2 : Z) :
  t1 <= t2 -> local_day tz t1 <= local_day tz t2.
Proof.
  intros H. unfold local_day.
  apply Z.div_le_mono; [reflexivity | lia].
Qed.

Lemma Date_parse_midnight (iso : string) (e : Z) :
  Date_parse iso = Some e -> e = msPerDay * (e / msPerDay).
Proof.
  unfold Date_parse.
  repeat match goal with
         | |- context [match ?x with _ => _ end] => destruct x; try discriminate
         end; intros [= <-];
    now rewrite (Z.mul_comm msPerDay (day_number _ _ _)), Z.div_mul,
      Z.mul_comm.
Qed.

Lemma local_day_west (tz n : Z) :
  -1440 < tz < 0 -> local_day tz (msPerDay * n) = n - 1.
Proof.
  intros H. rewrite local_day_of_date.
  replace (tz * 60000 / msPerDay) with (-1); [lia|].
  apply Z.div_unique with (r := tz * 60000 + msPerDay);
    unfold msPerDay; lia.
Qed.

Lemma local_day_east (tz n : Z) :
  0 <= tz < 1440 -> local_day tz (msPerDay * n) = n.
Proof.
  intros H. rewrite local_day_of_date.
  replace (tz * 60000 / msPerDay) with 0; [lia|].
  symmetry. apply Z.div_small. unfold msPerDay. lia.
Qed.

End StatusOrder.

(** X9: for one date text, the status never improves as the clock
    advances: with unknown and ok at 0, expiring at 1 and expired at 2,
    the status at a later instant is at least the status at an earlier
    one, for every threshold, zone and text.  In particular an expired
    item stays expired. *)
Theorem status_never_improves (SOON tz now1 now2 : Z) (iso : string) :
  now1 <= now2 ->
  severity (GS1.status SOON tz now1 iso)
  <= severity (GS1.status SOON tz now2 iso)
  /\ (GS1.status SOON tz now1 iso = GS1.expired ->
      GS1.status SOON tz now2 iso = GS1.expired).
Proof.
  intros H.
  destruct (String.eqb iso "") eqn:E.
  { unfold GS1.status. rewrite E. split; [reflexivity | discriminate]. }
  destruct (JS.Date_parse iso) as [e|] eqn:P.
  - rewrite !(status_by_days _ _ _ _ _ P). cbv zeta.
    pose proof (local_day_mono tz now1 now2 H) as Hm.
    repeat match goal with
           | |- context [?a <? ?b] => destruct (Z.ltb_spec a b)
           | |- context [?a <=? ?b] => destruct (Z.leb_spec a b)
           end; simpl; split; try lia; try discriminate; reflexivity.
  - unfold GS1.status. rewrite E, P. split; [reflexivity | discriminate].
Qed.

Lemma status_never_improves_witness :
  severity (GS1.status 90 0 0 "1970-02-01")
  <= severity (GS1.status 90 0 (JS.msPerDay * 40) "1970-02-01").
Proof.
  apply (status_never_improves 90 0 0 (JS.msPerDay * 40) "1970-02-01").
  vm_compute. discriminate.
Defined.

(** X10: a date text that the parser reads denotes midnight UTC of its
    day.  While the local calendar day is that day, [GS1.status] with a
    threshold of at least 0 answers expiring in a zone at or east of
    Greenwich, and expired in a zone west of Greenwich: there the item is
    reported expired during the whole of its expiry day, and is expiring
    the day before. *)
Theorem status_on_expiry_day (SOON tz now : Z) (iso : string) (e : Z) :
  JS.Date_parse iso = Some e -> 0 <= SOON ->
  let day := e / JS.msPerDay in
  e = JS.msPerDay * day
  /\ (0 <= tz < 1440 -> local_day tz now = day ->
      GS1.status SOON tz now iso = GS1.expiring)
  /\ (-1440 < tz < 0 ->
      (local_day tz now = day ->
       GS1.status SOON tz now iso = GS1.expired)
      /\ (local_day tz now = day - 1 ->
          GS1.status SOON tz now iso = GS1.expiring)).
Proof.
  intros P HS day.
  pose proof (Date_parse_midnight iso e P) as He. fold day in He.
  split; [exact He|].
  rewrite (status_by_days _ _ _ _ _ P). cbv zeta. rewrite He.
  split.
  - intros Htz Hd. rewrite (local_day_east tz day Htz), Hd, Z.sub_diag.
    change (0 <? 0) with false. cbv iota.
    now replace (0 <=? SOON) with true by (symmetry; apply Z.leb_le; lia).
  - intros Htz. rewrite (local_day_west tz day Htz). split; intros ->.
    + now replace (day - 1 - day <? 0) with true
        by (symmetry; apply Z.ltb_lt; lia).
    + rewrite Z.sub_diag. change (0 <? 0) with false. cbv iota.
      now replace (0 <=? SOON) with true by (symmetry; apply Z.leb_le; lia).
Qed.

Lemma status_on_expiry_day_witness :
  GS1.status 90 (-300) (JS.msPerDay * 20514 + 43200000) "2026-03-02"
  = GS1.expired.
Proof.
  destruct (status_on_expiry_day 90 (-300) (JS.msPerDay * 20514 + 43200000)
              "2026-03-02" (JS.msPerDay * 20514))
    as (_ & _ & H); [vm_compute; reflexivity | lia |].
  apply H; [lia | vm_compute; reflexivity].
Defined.

(** ** The index as a whole, and what [find] answers from it *)

Section IndexFacts.
Import JS Master.

Lemma registered_after_step (S : index) (it : item) (k : string) :
  registered (build_step S it) k
  <-> registered S k \/ (retained it /\ k ∈ keys_of (stripped it)).
Proof.
  unfold registered. rewrite build_step_index.
  case_bool_decide as Hr; [|tauto].
  unfold name_after. destruct (masterIndex S !! k) as [v|].
  - split; [intros _; left; eauto | eauto].
  - case_bool_decide as Hk.
    + split; [intros _; right; tauto | eauto].
    + split; [intros [? ?]; discriminate|].
      intros [[? ?]|[_ ?]]; [discriminate | contradiction].
Qed.

Lemma registered_after_rows (l : list item) (S : index) (k : string) :
  registered (fold_left build_step l S) k
  <-> registered S k
      \/ exists it, it ∈ l /\ retained it /\ k ∈ keys_of (stripped it).
Proof.
  revert S; induction l as [|it l IH]; intros S; simpl.
  - split; [tauto | intros [H|(it & Hin & _)]; [exact H | set_solver]].
  - rewrite IH, registered_after_step. split.
    + intros [[H|[Hr Hk]]|(it' & Hin & Hr & Hk)]; [tauto | right | right].
      * exists it. split; [set_solver | tauto].
      * exists it'. split; [set_solver | tauto].
    + intros [H|(it' & Hin & Hr & Hk)]; [tauto|].
      apply elem_of_cons in Hin as [->|Hin]; [tauto|].
      right. exists it'. tauto.
Qed.

Lemma not_registered_cleared (k : string) : ~ registered cleared k.
Proof. unfold registered, cleared. simpl. rewrite lookup_empty. now intros [? ?]. Qed.

Lemma registered_build (data : list item) (k : string) :
  registered (build data) k
  <-> exists it, it ∈ data /\ retained it /\ k ∈ keys_of (stripped it).
Proof.
  unfold build. rewrite registered_after_rows.
  pose proof (not_registered_cleared k). tauto.
Qed.

(** Where a name of the index comes from *)
Lemma name_origin (l : list item) (S : index) (k v : string) :
  masterIndex (fold_left build_step l S) !! k = Some v ->
  masterIndex S !! k = Some v
  \/ exists it, it ∈ l /\ retained it /\ k ∈ keys_of (stripped it)
                /\ name it = v.
Proof.
  revert S; induction l as [|it l IH]; intros S; simpl; [tauto|].
  intros H. apply IH in H as [H|(it' & Hin & Hr & Hk & Hv)].
  - rewrite build_step_index in H. case_bool_decide as Hr; [|tauto].
    unfold name_after in H. destruct (masterIndex S !! k); [tauto|].
    case_bool_decide as Hk; [|discriminate].
    right. exists it. injection H as H. split; [set_solver | tauto].
  - right. exists it'. split; [set_solver | tauto].
Qed.

(** Where an rms of the index comes from *)
Lemma rms_origin (l : list item) (S : index) (k v : string) :
  masterRMS (fold_left build_step l S) !! k = Some v ->
  masterRMS S !! k = Some v
  \/ exists it, it ∈ l /\ retained it /\ k ∈ keys_of (stripped it)
                /\ rms it = v /\ v <> "".
Proof.
  revert S; induction l as [|it l IH]; intros S; simpl; [tauto|].
  intros H. apply IH in H as [H|(it' & Hin & Hr & Hk & Hv)].
  - rewrite build_step_rms in H. case_bool_decide as Hr; [|tauto].
    unfold rms_after in H. destruct (masterRMS S !! k); [tauto|].
    destruct (truthy (rms it)) eqn:Ht; [|discriminate].
    case_bool_decide as Hk; [|discriminate].
    right. exists it. injection H as H.
    split_and!; [set_solver | exact Hr | exact Hk | exact H |].
    subst v. unfold truthy in Ht.
    now apply negb_true_iff, String.eqb_neq in Ht.
  - right. exists it'. split; [set_solver | tauto].
Qed.

Lemma all_chars_stripped (it : item) : all_chars is_digit (stripped it) = true.
Proof. apply all_chars_keep_self. Qed.

Lemma all_chars_padStart (p : ascii -> bool) (n : nat) (c : ascii) (s : string) :
  p c = true -> all_chars p s = true -> all_chars p (padStart n c s) = true.
Proof.
  intros Hc Hs. unfold padStart. rewrite all_chars_app, Hs, andb_true_r.
  now apply all_chars_repeat.
Qed.

(** Every key of a retained row is a string of at least 8 digits. *)
Lemma keys_of_shape (it : item) (k : string) :
  retained it -> k ∈ keys_of (stripped it) ->
  (8 <= length k)%nat /\ all_chars is_digit k = true.
Proof.
  intros Hr Hk. pose proof (all_chars_stripped it) as Hd.
  unfold retained in Hr.
  assert (Hp : all_chars is_digit (padStart 14 "0" (stripped it)) = true)
    by (apply all_chars_padStart; [reflexivity | exact Hd]).
  pose proof (length_padStart 14 "0" (stripped it)) as Hl.
  apply (keys_of_retained (stripped it) k Hr) in Hk.
  destruct Hk as [-> | [-> | [[_ ->] | ->]]].
  - split; [exact Hr | exact Hd].
  - split; [lia | exact Hp].
  - unfold slice1. rewrite length_drop. split; [lia|].
    now apply all_chars_drop.
  - rewrite length_slice_last by lia. split; [lia|].
    unfold slice_last. now apply all_chars_drop.
Qed.

(** What the loop of [find] answers *)
Lemma find_loop_answer (S : index) (g : string) (cs : list string) :
  let r := find_loop S g cs in
  (r = mkFound "" "" NONE /\ forall c, c ∈ cs -> ~ registered S c)
  \/ exists c, c ∈ cs
               /\ masterIndex S !! c = Some (f_name r)
               /\ f_rms r = rms_at S c
               /\ how r = (if String.eqb c g then EXACT else PARTIAL).
Proof.
  induction cs as [|c cs IH]; cbn [find_loop].
  - left. split; [reflexivity | set_solver].
  - destruct (masterIndex S !! c) as [n|] eqn:E.
    + right. exists c. unfold rms_at. cbn [f_name f_rms how].
      split_and!; [set_solver | exact E | reflexivity | reflexivity].
    + destruct IH as [[-> Hall]|(c' & Hin & H)].
      * left. split; [reflexivity|].
        intros c' [->|Hin]%elem_of_cons; [|now apply Hall].
        unfold registered. rewrite E. now intros [? ?].
      * right. exists c'. split; [set_solver | exact H].
Qed.

Lemma candidates_head (g : string) :
  g <> "" -> exists cs, candidates g = g :: cs.
Proof.
  intros Hg. unfold candidates. cbn [List.filter].
  replace (truthy g) with true; [eauto|].
  symmetry. unfold truthy. now apply negb_true_iff, String.eqb_neq.
Qed.

Lemma find_registered (S : index) (g : string) :
  g <> "" -> registered S g ->
  how (find S g) = EXACT /\ masterIndex S !! g = Some (f_name (find S g))
  /\ f_rms (find S g) = rms_at S g.
Proof.
  intros Hg [n Hn]. unfold find.
  replace (truthy g) with true
    by (symmetry; unfold truthy; now apply negb_true_iff, String.eqb_neq).
  destruct (candidates_head g Hg) as [cs ->].
  cbn [negb find_loop]. rewrite Hn. cbn [how f_name f_rms].
  rewrite String.eqb_refl. unfold rms_at. now split_and!.
Qed.

End IndexFacts.

(** ** The three candidates of [find] on a built index *)

Section Candidates.
Import JS Master.

Lemma leading_zero_split (g : string) :
  startsWith "0" g = true -> g = String "0" (slice1 g).
Proof.
  destruct g as [|c g]; [discriminate|]. cbn [startsWith].
  intros [H _]%andb_true_iff. apply Ascii.eqb_eq in H. now subst c.
Qed.

Lemma padStart_13 (bc : string) :
  length bc = 13%nat -> padStart 14 "0" bc = String "0" bc.
Proof. intros H. unfold padStart. now rewrite H. Qed.

(** In a built index the key without its leading zero is registered only
    together with the 14-character key itself: a row that yields the
    one yields the other. *)
Lemma stripped_key_with_full (data : list item) (g : string) :
  length g = 14%nat -> startsWith "0" g = true ->
  registered (build data) (slice1 g) -> registered (build data) g.
Proof.
  intros Hl Hs (it & Hin & Hr & Hk)%registered_build.
  apply registered_build. exists it. split_and!; [exact Hin | exact Hr |].
  assert (Hk13 : length (slice1 g) = 13%nat)
    by (unfold slice1; rewrite length_drop; lia).
  pose proof (leading_zero_split g Hs) as Hg.
  pose proof (length_padStart 14 "0" (stripped it)) as Hpad.
  apply (keys_of_retained (stripped it) _ Hr).
  apply (keys_of_retained (stripped it) _ Hr) in Hk.
  right. left.
  destruct Hk as [Hk | [Hk | [[Hz Hk] | Hk]]].
  - rewrite <- Hk, padStart_13 by exact Hk13. exact Hg.
  - rewrite Hk in Hk13. lia.
  - rewrite (leading_zero_split _ Hz), <- Hk. exact Hg.
  - rewrite Hk, length_slice_last in Hk13 by lia. discriminate Hk13.
Qed.

End Candidates.

(** C5, as stated, fails on its example: the last 8 digits alone are a
    registered key of the index, so [find] answers them EXACT, not
    PARTIAL. *)
Lemma C5_counterexample :
  let S1 := Master.build [Master.mkItem "6291107439358" "Zyrtec" ""] in
  Master.find S1 "07439358" = Master.mkFound "Zyrtec" "" Master.EXACT
  /\ Master.how (Master.find S1 "07439358") <> Master.PARTIAL.
Proof. vm_compute. split; [reflexivity | discriminate]. Qed.

(** C5, amended: for the index built from any catalogue and a
    14-character GTIN [g], [find] answers EXACT exactly when [g] is a
    registered key; otherwise PARTIAL exactly when [g] without its
    leading zero, or the last 8 characters of [g], is registered, and (as
    the key without the leading zero is registered only together with
    [g]) the name is then that of the last-8 key; otherwise NONE with
    empty name and rms.  For the index built from the one entry
    "6291107439358": the 14-digit form is EXACT, the last 8 digits in
    their 14-digit form are PARTIAL, an unrelated GTIN is NONE, and the
    last 8 digits alone are EXACT. *)
Theorem C5_find (data : list Master.item) (g : string) :
  JS.length g = 14%nat ->
  let S := Master.build data in
  let r := Master.find S g in
  let stripped_hit :=
    JS.startsWith "0" g = true /\ registered S (JS.slice1 g) in
  (Master.how r = Master.EXACT <-> registered S g)
  /\ (Master.how r = Master.PARTIAL <->
      ~ registered S g
      /\ (stripped_hit \/ registered S (JS.slice_last 8 g)))
  /\ (Master.how r = Master.NONE <->
      ~ registered S g /\ ~ stripped_hit
      /\ ~ registered S (JS.slice_last 8 g))
  /\ (Master.how r = Master.NONE ->
      Master.f_name r = "" /\ Master.f_rms r = "")
  /\ (registered S g ->
      Master.masterIndex S !! g = Some (Master.f_name r))
  /\ (stripped_hit -> registered S g)
  /\ (~ registered S g -> registered S (JS.slice_last 8 g) ->
      Master.how r = Master.PARTIAL
      /\ Master.masterIndex S !! JS.slice_last 8 g
         = Some (Master.f_name r))
  /\ (let S1 := Master.build [Master.mkItem "6291107439358" "Zyrtec" ""] in
      Master.find S1 "06291107439358" = Master.mkFound "Zyrtec" "" Master.EXACT
      /\ Master.find S1 "00000007439358"
         = Master.mkFound "Zyrtec" "" Master.PARTIAL
      /\ Master.find S1 "05000112637922" = Master.mkFound "" "" Master.NONE
      /\ Master.find S1 "07439358"
         = Master.mkFound "Zyrtec" "" Master.EXACT).
Proof.
  intros Hg S r stripped_hit.
  assert (Hfull : stripped_hit -> registered S g).
  { intros [Hs Hk]. exact (stripped_key_with_full data g Hg Hs Hk). }
  subst r stripped_hit.
  rewrite (find_14 S g Hg). unfold registered in *.
  split_and!; [ .. | vm_compute; repeat split ].
  all: destruct (Master.masterIndex S !! g) as [n|];
    destruct (JS.startsWith "0" g);
    destruct (Master.masterIndex S !! JS.slice1 g) as [n1|];
    destruct (Master.masterIndex S !! JS.slice_last 8 g) as [n8|];
    rewrite ?is_Some_alt in *; simpl in *;
    intuition (try discriminate; try reflexivity).
Qed.

Lemma C5_find_witness :
  let S := Master.build [Master.mkItem "6291107439358" "Zyrtec" ""] in
  Master.how (Master.find S "00000007439358") = Master.PARTIAL
  /\ Master.masterIndex S !! JS.slice_last 8 "00000007439358"
     = Some (Master.f_name (Master.find S "00000007439358")).
Proof.
  intros S.
  destruct (C5_find [Master.mkItem "6291107439358" "Zyrtec" ""]
              "00000007439358" eq_refl) as (_ & _ & _ & _ & _ & _ & H & _).
  apply H.
  - unfold registered. vm_compute. intros [? ?]. discriminate.
  - unfold registered. vm_compute. eauto.
Defined.

(** X11: after [Master.build], the registered keys are exactly the keys
    of the retained rows of the list; every registered key is a string of
    at least 8 digits; and the rms map holds only non-empty values, under
    keys that the name map holds too. *)
Theorem build_index_domain (data : list Master.item) (k : string) :
  let S := Master.build data in
  (registered S k
   <-> exists it, it ∈ data /\ retained it
                  /\ k ∈ Master.keys_of (stripped it))
  /\ (registered S k ->
      (8 <= JS.length k)%nat /\ JS.all_chars JS.is_digit k = true)
  /\ (forall v, Master.masterRMS S !! k = Some v ->
                v <> "" /\ registered S k).
Proof.
  cbv zeta. split_and!.
  - apply registered_build.
  - intros (it & _ & Hr & Hk)%registered_build.
    exact (keys_of_shape it k Hr Hk).
  - intros v Hv. unfold Master.build in Hv.
    apply rms_origin in Hv as [Hv|(it & Hin & Hr & Hk & _ & Hne)].
    + simpl in Hv. rewrite lookup_empty in Hv. discriminate.
    + split; [exact Hne|]. apply registered_build. eauto.
Qed.

Lemma build_index_domain_witness :
  (8 <= JS.length "6291107439358")%nat
  /\ JS.all_chars JS.is_digit "6291107439358" = true.
Proof.
  apply (proj1 (proj2 (build_index_domain
                         [Master.mkItem "629-1107-439358" "Zyrtec" ""]
                         "6291107439358"))).
  unfold registered. vm_compute. eauto.
Defined.

(** X12: for every list and every text, when [Master.find] answers EXACT
    or PARTIAL, the key that hit is one of the candidates derived from
    the text, the name is the name of a retained row of the list that
    has this key, the answer is EXACT exactly when the key is the text
    itself, and a non-empty rms is the rms of a retained row that has
    this key.  It answers NONE exactly when no candidate is registered,
    and always for the empty text. *)
Theorem find_sound (data : list Master.item) (g : string) :
  let S := Master.build data in
  let r := Master.find S g in
  (Master.how r <> Master.NONE ->
   exists c it,
     c ∈ Master.candidates g /\ it ∈ data /\ retained it
     /\ c ∈ Master.keys_of (stripped it)
     /\ Master.f_name r = Master.name it
     /\ (Master.how r = Master.EXACT <-> c = g)
     /\ (Master.f_rms r <> "" ->
         exists it', it' ∈ data /\ retained it'
                     /\ c ∈ Master.keys_of (stripped it')
                     /\ Master.f_rms r = Master.rms it'))
  /\ (Master.how r = Master.NONE
      <-> g = "" \/ forall c, c ∈ Master.candidates g -> ~ registered S c)
  /\ Master.find S "" = Master.mkFound "" "" Master.NONE.
Proof.
  cbv zeta. split_and!; [| |reflexivity].
  - unfold Master.find. destruct (negb (Master.truthy g)); [now intros []|].
    destruct (find_loop_answer (Master.build data) g (Master.candidates g))
      as [[-> _]|(c & Hin & Hname & Hrms & Hhow)]; [now intros []|].
    intros _. unfold Master.build in Hname.
    apply name_origin in Hname as [Hname|(it & Hit & Hr & Hk & Hn)].
    { simpl in Hname. rewrite lookup_empty in Hname. discriminate. }
    exists c, it. split_and!; try assumption; [now symmetry | |].
    + rewrite Hhow. destruct (String.eqb_spec c g); split;
        (reflexivity || discriminate || tauto).
    + rewrite Hrms. unfold rms_at.
      destruct (Master.masterRMS (Master.build data) !! c) as [v|] eqn:E;
        [|now intros []].
      intros _. unfold Master.build in E.
      apply rms_origin in E as [E|(it' & Hit' & Hr' & Hk' & Hv & _)].
      { simpl in E. rewrite lookup_empty in E. discriminate. }
      exists it'. split_and!; try assumption. now symmetry.
  - unfold Master.find, Master.truthy.
    destruct (String.eqb_spec g "") as [->|Hg]; cbn [negb].
    { split; [now left | reflexivity]. }
    destruct (find_loop_answer (Master.build data) g (Master.candidates g))
      as [[-> Hall]|(c & Hin & Hname & _ & Hhow)].
    + split; [intros _; now right | reflexivity].
    + rewrite Hhow. split.
      * destruct (String.eqb c g); discriminate.
      * intros [->|Hall]; [contradiction|].
        exfalso. apply (Hall c Hin). unfold registered. rewrite Hname. eauto.
Qed.

Lemma find_sound_witness :
  exists c it,
    c ∈ Master.candidates "00000007439358"
    /\ it ∈ [Master.mkItem "6291107439358" "Zyrtec" ""]
    /\ Master.f_name
         (Master.find (Master.build [Master.mkItem "6291107439358" "Zyrtec" ""])
            "00000007439358") = Master.name it.
Proof.
  destruct (proj1 (find_sound [Master.mkItem "6291107439358" "Zyrtec" ""]
                     "00000007439358"))
    as (c & it & Hc & Hit & _ & _ & Hn & _).
  - vm_compute. discriminate.
  - exists c, it. now split_and!.
Defined.

(** ** From the catalogue to the scan and back *)

Section CatalogueScan.
Import JS Master.

Lemma plain_gtin_padded (raw : string) :
  GS1.isGS1 (GS1.parse raw) = false ->
  (8 <= length (keep_chars is_digit raw) <= 14)%nat ->
  GS1.gtin (GS1.parse raw) = padStart 14 "0" (keep_chars is_digit raw).
Proof.
  intros Hgs Hlen. rewrite isGS1_parse in Hgs.
  destruct (String.eqb raw "") eqn:Hraw.
  { apply String.eqb_eq in Hraw. subst raw. simpl in Hlen. lia. }
  simpl in Hgs. apply orb_false_iff in Hgs as [Hp Hg].
  apply String.eqb_neq in Hraw.
  rewrite (parse_plain raw Hraw Hp Hg). cbv zeta. rewrite digits_code_of.
  replace ((8 <=? length (keep_chars is_digit raw))%nat
           && (length (keep_chars is_digit raw) <=? 14)%nat) with true;
    [reflexivity|].
  symmetry. apply andb_true_iff. split; apply Nat.leb_le; lia.
Qed.

Lemma padded_key (it : item) :
  retained it -> padStart 14 "0" (stripped it) ∈ keys_of (stripped it).
Proof.
  intros Hr. apply (keys_of_retained (stripped it) _ Hr). tauto.
Qed.

Lemma padded_nonempty (s : string) : padStart 14 "0" s <> "".
Proof.
  intros H. pose proof (length_padStart 14 "0" s) as Hl.
  rewrite H in Hl. simpl in Hl. lia.
Qed.

(** A row of the list changes nothing when it is processed again. *)
Lemma build_step_again (data : list item) (it : item) :
  it ∈ data -> build_step (build data) it = build data.
Proof.
  intros Hin.
  assert (Hi : masterIndex (build_step (build data) it)
               = masterIndex (build data)).
  { apply map_eq. intros k. rewrite build_step_index.
    case_bool_decide as Hr; [|reflexivity].
    unfold name_after.
    destruct (masterIndex (build data) !! k) eqn:E; [reflexivity|].
    case_bool_decide as Hk; [|reflexivity].
    exfalso. assert (Hreg : registered (build data) k)
      by (apply registered_build; eauto).
    unfold registered in Hreg. rewrite E in Hreg. now destruct Hreg. }
  assert (Hm : masterRMS (build_step (build data) it)
               = masterRMS (build data)).
  { apply map_eq. intros k. rewrite build_step_rms.
    case_bool_decide as Hr; [|reflexivity].
    unfold rms_after.
    destruct (masterRMS (build data) !! k) eqn:E; [reflexivity|].
    destruct (truthy (rms it)) eqn:Ht; [|reflexivity].
    case_bool_decide as Hk; [|reflexivity].
    exfalso. apply list_elem_of_split in Hin as (l1 & l2 & ->).
    revert E. unfold build. rewrite fold_left_app. cbn [fold_left].
    remember (fold_left build_step l1 cleared) as S1.
    destruct (masterRMS (build_step S1 it) !! k) as [v|] eqn:E1.
    - now rewrite (build_keeps_rms l2 _ k v E1).
    - rewrite build_step_rms, bool_decide_eq_true_2 in E1 by exact Hr.
      unfold rms_after in E1. rewrite Ht in E1.
      rewrite bool_decide_eq_true_2 in E1 by exact Hk.
      now destruct (masterRMS S1 !! k). }
  destruct (build_step (build data) it) as [mi mr], (build data) as [mi' mr'].
  simpl in Hi, Hm. now subst.
Qed.

Lemma build_rows_again (data extra : list item) :
  (forall it, it ∈ extra -> it ∈ data) ->
  fold_left build_step extra (build data) = build data.
Proof.
  induction extra as [|it extra IH]; intros H; simpl; [reflexivity|].
  rewrite build_step_again by (apply H; set_solver).
  apply IH. intros it' Hin. apply H. set_solver.
Qed.

End CatalogueScan.

(** X13: a retained row of the list, with at most 14 digits, is found
    again by the scan of its barcode: when [GS1.parse] reads a plain
    (not GS1) text with the digits of the row's barcode, the gtin it
    yields is those digits padded to 14, and [Master.find] answers it
    EXACT, with the name of a retained row of the list that has this
    key. *)
Theorem scan_of_catalogued_barcode
  (data : list Master.item) (it : Master.item) (raw : string) :
  it ∈ data -> retained it -> (JS.length (stripped it) <= 14)%nat ->
  GS1.isGS1 (GS1.parse raw) = false ->
  JS.keep_chars JS.is_digit raw = stripped it ->
  let g := GS1.gtin (GS1.parse raw) in
  let r := Master.find (Master.build data) g in
  g = JS.padStart 14 "0" (stripped it)
  /\ Master.how r = Master.EXACT
  /\ exists row, row ∈ data /\ retained row
                 /\ g ∈ Master.keys_of (stripped row)
                 /\ Master.f_name r = Master.name row.
Proof.
  intros Hin Hr Hlen Hgs Hdig g r.
  assert (Hg : g = JS.padStart 14 "0" (stripped it)).
  { subst g. rewrite plain_gtin_padded by (rewrite ?Hdig; unfold retained in Hr;
                                            assumption || lia).
    now rewrite Hdig. }
  assert (Hreg : registered (Master.build data) g).
  { apply registered_build. exists it. rewrite Hg.
    split_and!; [exact Hin | exact Hr | now apply padded_key]. }
  assert (Hne : g <> "") by (rewrite Hg; apply padded_nonempty).
  destruct (find_registered (Master.build data) g Hne Hreg)
    as (Hhow & Hname & _).
  fold r in Hhow, Hname. split_and!; [exact Hg | exact Hhow |].
  unfold Master.build in Hname.
  apply name_origin in Hname as [Hname|(row & Hrow & Hrr & Hk & Hn)].
  { simpl in Hname. rewrite lookup_empty in Hname. discriminate. }
  exists row. now split_and!.
Qed.

Lemma scan_of_catalogued_barcode_witness :
  Master.how
    (Master.find
       (Master.build [Master.mkItem "629-1107-439358" "Zyrtec" "220155756"])
       (GS1.gtin (GS1.parse " 6291107439358 ")))
  = Master.EXACT.
Proof.
  refine (proj1 (proj2 (scan_of_catalogued_barcode
            [Master.mkItem "629-1107-439358" "Zyrtec" "220155756"]
            (Master.mkItem "629-1107-439358" "Zyrtec" "220155756")
            " 6291107439358 " _ _ _ eq_refl eq_refl))).
  - apply list_elem_of_here.
  - unfold retained. vm_compute. lia.
  - vm_compute. lia.
Defined.

(** X14: rows that are in the list already change nothing when they
    come again at its end: the index built from the longer list is the
    index built from the list, and so is every answer of
    [Master.find]. *)
Theorem build_appended_again (data extra : list Master.item) (g : string) :
  (forall it, it ∈ extra -> it ∈ data) ->
  Master.build (data ++ extra) = Master.build data
  /\ Master.find (Master.build (data ++ extra)) g
     = Master.find (Master.build data) g.
Proof.
  intros H.
  assert (E : Master.build (data ++ extra) = Master.build data).
  { unfold Master.build at 1. rewrite fold_left_app.
    now apply build_rows_again. }
  split; [exact E | now rewrite E].
Qed.

Lemma build_appended_again_witness :
  let zyrtec := Master.mkItem "6291107439358" "Zyrtec" "220155756" in
  let yasmin := Master.mkItem "06285074002448" "Yasmin" "" in
  Master.build ([zyrtec; yasmin] ++ [yasmin; zyrtec])
  = Master.build [zyrtec; yasmin].
Proof.
  intros zyrtec yasmin.
  apply (build_appended_again [zyrtec; yasmin] [yasmin; zyrtec] "").
  intros it Hin. set_solver.
Defined.

(** ** What the normalisation of OCR text leaves *)

Section NormalisedText.
Import JS OCR.

Lemma normalise_char_normalised (c : ascii) :
  normalised_char (normalise_char c) = true.
Proof. destruct c as [[] [] [] [] [] [] [] []]; vm_compute; reflexivity. Qed.

Lemma normalise_char_idem (c : ascii) :
  normalise_char (normalise_char c) = normalise_char c.
Proof. destruct c as [[] [] [] [] [] [] [] []]; vm_compute; reflexivity. Qed.

Lemma all_chars_map_chars (p : ascii -> bool) (f : ascii -> ascii) (s : string) :
  (forall c, p (f c) = true) -> all_chars p (map_chars f s) = true.
Proof.
  intros H. induction s as [|c s IH]; simpl; [reflexivity|].
  now rewrite H, IH.
Qed.

Lemma length_map_chars (f : ascii -> ascii) (s : string) :
  length (map_chars f s) = length s.
Proof. induction s as [|c s IH]; simpl; [reflexivity | now rewrite IH]. Qed.

Lemma map_chars_ext (f g : ascii -> ascii) (s : string) :
  (forall c, f c = g c) -> map_chars f s = map_chars g s.
Proof.
  intros H. induction s as [|c s IH]; simpl; [reflexivity|].
  now rewrite H, IH.
Qed.

Lemma startsWith_all_chars (p : ascii -> bool) (w s : string) :
  all_chars p s = true -> startsWith w s = true -> all_chars p w = true.
Proof.
  revert s; induction w as [|a w IH]; intros s Hs Hw; [reflexivity|].
  destruct s as [|b s]; [discriminate|]. simpl in Hs, Hw.
  apply andb_true_iff in Hs as [Hb Hs]. apply andb_true_iff in Hw as [Hab Hw].
  apply Ascii.eqb_eq in Hab. subst b. simpl. rewrite Hb. simpl.
  exact (IH s Hs Hw).
Qed.

(** A text holds no word with a character that the text has not. *)
Lemma includes_all_chars (p : ascii -> bool) (w s : string) :
  all_chars p s = true -> all_chars p w = false -> includes w s = false.
Proof.
  intros Hs Hw. induction s as [|b s IH].
  - simpl. rewrite orb_false_r.
    destruct (startsWith w "") eqn:E; [|reflexivity].
    now rewrite (startsWith_all_chars p w "" Hs E) in Hw.
  - cbn [includes]. simpl in Hs. apply andb_true_iff in Hs as [Hb Hs'].
    rewrite (IH Hs'), orb_false_r.
    destruct (startsWith w (String b s)) eqn:E; [|reflexivity].
    assert (Hall : all_chars p (String b s) = true)
      by (simpl; now rewrite Hb, Hs').
    now rewrite (startsWith_all_chars p w _ Hall E) in Hw.
Qed.

End NormalisedText.

(** X15: on a text of ASCII characters, the normalised text [t] of
    [extractDateFromOCR] has the length of the text, holds no "O", no
    "I", no bar and no lower-case letter, and is left as it is by a
    second normalisation.  So [t] never contains "OCT", "NOV", "EXPIRY"
    or "BEFORE": the alternatives of the date patterns that spell these
    words have nothing to match in [t]. *)
Theorem normalise_leaves_no_O_I (text : string) :
  JS.all_chars is_ascii text = true ->
  let t := OCR.normalise text in
  JS.length t = JS.length text
  /\ JS.all_chars normalised_char t = true
  /\ OCR.normalise t = t
  /\ JS.includes "OCT" t = false /\ JS.includes "NOV" t = false
  /\ JS.includes "EXPIRY" t = false /\ JS.includes "BEFORE" t = false.
Proof.
  intros _ t.
  assert (Hall : JS.all_chars normalised_char t = true).
  { subst t. rewrite normalise_map. apply all_chars_map_chars.
    exact normalise_char_normalised. }
  split_and!.
  - subst t. rewrite normalise_map. apply length_map_chars.
  - exact Hall.
  - subst t. rewrite !normalise_map, map_chars_map_chars.
    apply map_chars_ext. exact normalise_char_idem.
  - now apply (includes_all_chars normalised_char).
  - now apply (includes_all_chars normalised_char).
  - now apply (includes_all_chars normalised_char).
  - now apply (includes_all_chars normalised_char).
Qed.

Lemma normalise_leaves_no_O_I_witness :
  JS.includes "OCT" (OCR.normalise "EXP 15 OCT 2026") = false
  /\ OCR.normalise "EXP 15 OCT 2026" = "EXP 15 0CT 2026".
Proof.
  split; [|vm_compute; reflexivity].
  apply (normalise_leaves_no_O_I "EXP 15 OCT 2026"). vm_compute. reflexivity.
Defined.

(** ** The badge of the inventory table: [calculateExpiryStatus] *)

Section Badge.
Import JS EnhancedPharmacyUI.

Lemma ceil_div_le (a b n : Z) : 0 < b -> ceil_div a b <= n <-> a <= n * b.
Proof.
  intros Hb. unfold ceil_div. split; intros H.
  - assert (Hq : - n <= - a / b) by lia.
    pose proof (Z.mul_div_le (- a) b Hb) as Hm. nia.
  - assert (Hq : - n <= - a / b) by (apply Z.div_le_lower_bound; lia). lia.
Qed.

Lemma ceil_div_lt (a b n : Z) : 0 < b -> ceil_div a b < n <-> a <= (n - 1) * b.
Proof.
  intros Hb. rewrite <- (ceil_div_le a b (n - 1) Hb). lia.
Qed.

(** Days until a date that is a midnight UTC *)
Lemma ceil_div_days (n now : Z) :
  ceil_div (msPerDay * n - now) (1000 * 60 * 60 * 24) = n - now / msPerDay.
Proof.
  unfold ceil_div. change (1000 * 60 * 60 * 24) with msPerDay.
  replace (- (msPerDay * n - now)) with (now + - n * msPerDay) by ring.
  rewrite Z.div_add by discriminate. lia.
Qed.

Lemma months_of_days (d : Z) :
  30 < d <= 90 -> ceil_div d 30 = 2 \/ ceil_div d 30 = 3.
Proof.
  intros H.
  assert (H1 : ceil_div d 30 <= 3) by (apply ceil_div_le; lia).
  assert (H2 : ~ ceil_div d 30 <= 1) by (rewrite ceil_div_le; lia).
  lia.
Qed.

Lemma local_day_utc (t : Z) : local_day 0 t = t / msPerDay.
Proof. unfold local_day. now rewrite Z.add_0_r. Qed.

End Badge.

(** X16: for a date text that the parser reads as the instant [e],
    [calculateExpiryStatus] answers by the time left until [e]: expired
    once a full day has passed since [e]; short-expiry with a number of
    days from 0 to 30 from 30 days before [e] until then; medium-expiry
    with 2 or 3 months from 90 days before [e]; normal-expiry earlier.
    An absent date gives the empty badge. *)
Theorem calculateExpiryStatus_bands (now : Z) (iso : string) (e : Z) :
  JS.Date_parse iso = Some e ->
  let day := JS.msPerDay in
  let r := EnhancedPharmacyUI.calculateExpiryStatus now iso in
  (e + day <= now -> r = (EnhancedPharmacyUI.expired, EnhancedPharmacyUI.Expired))
  /\ (e - 30 * day <= now < e + day ->
      exists d, r = (EnhancedPharmacyUI.short_expiry,
                     EnhancedPharmacyUI.days_left d) /\ 0 <= d <= 30)
  /\ (e - 90 * day <= now < e - 30 * day ->
      exists m, r = (EnhancedPharmacyUI.medium_expiry,
                     EnhancedPharmacyUI.months_left m) /\ (m = 2 \/ m = 3))
  /\ (now < e - 90 * day ->
      r = (EnhancedPharmacyUI.normal_expiry, EnhancedPharmacyUI.Good))
  /\ EnhancedPharmacyUI.calculateExpiryStatus now ""
     = (EnhancedPharmacyUI.no_class, EnhancedPharmacyUI.no_text).
Proof.
  intros P day r. subst r.
  unfold EnhancedPharmacyUI.calculateExpiryStatus.
  rewrite (Date_parse_nonempty iso e P), P. cbv zeta.
  change (1000 * 60 * 60 * 24) with JS.msPerDay. fold day.
  assert (Hday : 0 < day) by reflexivity.
  set (d := EnhancedPharmacyUI.ceil_div (e - now) day).
  pose proof (ceil_div_lt (e - now) day 0 Hday) as H0.
  pose proof (ceil_div_le (e - now) day 30 Hday) as H30.
  pose proof (ceil_div_le (e - now) day 90 Hday) as H90.
  fold d in H0, H30, H90.
  split_and!.
  - intros H. now replace (d <? 0) with true by (symmetry; apply Z.ltb_lt; lia).
  - intros H. exists d.
    replace (d <? 0) with false by (symmetry; apply Z.ltb_ge; lia).
    replace (d <=? 30) with true by (symmetry; apply Z.leb_le; lia).
    split; [reflexivity | lia].
  - intros H. exists (EnhancedPharmacyUI.ceil_div d 30).
    replace (d <? 0) with false by (symmetry; apply Z.ltb_ge; lia).
    replace (d <=? 30) with false by (symmetry; apply Z.leb_gt; lia).
    replace (d <=? 90) with true by (symmetry; apply Z.leb_le; lia).
    split; [reflexivity | apply months_of_days; lia].
  - intros H.
    replace (d <? 0) with false by (symmetry; apply Z.ltb_ge; lia).
    replace (d <=? 30) with false by (symmetry; apply Z.leb_gt; lia).
    now replace (d <=? 90) with false by (symmetry; apply Z.leb_gt; lia).
  - reflexivity.
Qed.

Lemma calculateExpiryStatus_bands_witness :
  exists d,
    EnhancedPharmacyUI.calculateExpiryStatus
      (JS.msPerDay * JS.day_number 2026 6 30 + 3600000) "2026-06-30"
    = (EnhancedPharmacyUI.short_expiry, EnhancedPharmacyUI.days_left d)
    /\ 0 <= d <= 30.
Proof.
  destruct (calculateExpiryStatus_bands
              (JS.msPerDay * JS.day_number 2026 6 30 + 3600000) "2026-06-30"
              (JS.msPerDay * JS.day_number 2026 6 30))
    as (_ & H & _); [vm_compute; reflexivity|].
  apply H. vm_compute. split; congruence.
Defined.

(** X17: where the clock runs on UTC (offset 0 all year) and with the
    threshold of 90 days, the badge of [calculateExpiryStatus] and the
    status of [GS1.status] agree on the absent date and on every text
    that is a calendar date YYYY-MM-DD: the badge is empty exactly when
    the status is unknown, expired exactly when it is expired,
    short-expiry or medium-expiry exactly when it is expiring, and
    normal-expiry exactly when it is ok. *)
Theorem badge_agrees_with_status_at_utc (now : Z) (iso : string) :
  iso = "" \/ (exists e, JS.Date_parse iso = Some e) ->
  let c := fst (EnhancedPharmacyUI.calculateExpiryStatus now iso) in
  let st := GS1.status 90 0 now iso in
  (c = EnhancedPharmacyUI.no_class <-> st = GS1.unknown)
  /\ (c = EnhancedPharmacyUI.expired <-> st = GS1.expired)
  /\ (c = EnhancedPharmacyUI.short_expiry
      \/ c = EnhancedPharmacyUI.medium_expiry <-> st = GS1.expiring)
  /\ (c = EnhancedPharmacyUI.normal_expiry <-> st = GS1.ok).
Proof.
  intros Hiso. cbv zeta.
  unfold EnhancedPharmacyUI.calculateExpiryStatus.
  destruct Hiso as [-> | [e P]].
  { unfold GS1.status. simpl.
    split_and!; split; try reflexivity; try discriminate.
    intros [?|?]; discriminate. }
  rewrite (Date_parse_nonempty iso e P), P.
  rewrite (status_by_days _ _ _ _ _ P). cbv zeta.
  set (d := e / JS.msPerDay - now / JS.msPerDay).
  assert (Hc : EnhancedPharmacyUI.ceil_div (e - now) (1000 * 60 * 60 * 24) = d).
  { rewrite (Date_parse_midnight iso e P) at 1. apply ceil_div_days. }
  assert (Hl : local_day 0 e - local_day 0 now = d).
  { now rewrite !local_day_utc. }
  rewrite Hc, Hl.
  destruct (d <? 0); [|destruct (d <=? 30) eqn:E30; [|destruct (d <=? 90) eqn:E90]];
    simpl.
  - split_and!; split; try reflexivity; try discriminate.
    intros [?|?]; discriminate.
  - replace (d <=? 90) with true
      by (symmetry; apply Z.leb_le; apply Z.leb_le in E30; lia).
    split_and!; split; try reflexivity; try discriminate. now left.
  - split_and!; split; try reflexivity; try discriminate. now right.
  - split_and!; split; try reflexivity; try discriminate.
    intros [?|?]; discriminate.
Qed.

Lemma badge_agrees_with_status_at_utc_witness :
  fst (EnhancedPharmacyUI.calculateExpiryStatus
         (JS.msPerDay * JS.day_number 2026 1 1 + 43200000) "2026-03-01")
  = EnhancedPharmacyUI.short_expiry
  \/ fst (EnhancedPharmacyUI.calculateExpiryStatus
            (JS.msPerDay * JS.day_number 2026 1 1 + 43200000) "2026-03-01")
     = EnhancedPharmacyUI.medium_expiry
  <-> GS1.status 90 0 (JS.msPerDay * JS.day_number 2026 1 1 + 43200000)
        "2026-03-01" = GS1.expiring.
Proof.
  refine (proj1 (proj2 (proj2 (badge_agrees_with_status_at_utc
            (JS.msPerDay * JS.day_number 2026 1 1 + 43200000) "2026-03-01"
            _)))).
  right. eexists. vm_compute. reflexivity.
Defined.

(** ** Escaping of the texts put into the page: [esc] *)

Section Escape.
Import JS App.

Lemma replace_char_app (c : ascii) (r s t : string) :
  replace_char c r (s +:+ t) = replace_char c r s +:+ replace_char c r t.
Proof.
  induction s as [|a s IH]; [reflexivity|].
  change (String a s +:+ t) with (String a (s +:+ t)).
  cbn [replace_char]. rewrite IH.
  destruct (Ascii.eqb a c); [|reflexivity].
  now rewrite app_assoc.
Qed.

Lemma replace_char_absent (c : ascii) (r s : string) :
  all_chars (fun a => negb (Ascii.eqb a c)) s = true -> replace_char c r s = s.
Proof.
  induction s as [|a s IH]; [reflexivity|]. cbn [all_chars replace_char].
  intros [Ha Hs]%andb_true_iff. apply negb_true_iff in Ha.
  now rewrite Ha, IH.
Qed.

(** The three later passes leave what the earlier passes wrote. *)
Lemma esc_char_passes (c : ascii) :
  replace_char "034" "&quot;"
    (replace_char ">" "&gt;"
       (replace_char "<" "&lt;"
          (if Ascii.eqb c "&" then "&amp;" else String c EmptyString)))
  = esc_char c.
Proof. destruct c as [[] [] [] [] [] [] [] []]; vm_compute; reflexivity. Qed.

Lemma esc_cons (c : ascii) (s : string) :
  esc (String c s) = esc_char c +:+ esc s.
Proof.
  unfold esc. cbn [replace_char].
  rewrite <- esc_char_passes.
  destruct (Ascii.eqb c "&").
  - now rewrite !replace_char_app.
  - change (String c (replace_char "&" "&amp;" s))
      with (String c EmptyString +:+ replace_char "&" "&amp;" s).
    now rewrite !replace_char_app.
Qed.

Lemma esc_concat_map (s : string) : esc s = concat_map esc_char s.
Proof.
  induction s as [|c s IH]; [reflexivity|].
  now rewrite esc_cons, IH.
Qed.

Lemma esc_char_safe (c : ascii) : all_chars html_safe (esc_char c) = true.
Proof. destruct c as [[] [] [] [] [] [] [] []]; vm_compute; reflexivity. Qed.

(** The texts written for two characters do not start alike. *)
Lemma esc_char_prefix_free (a b : ascii) (x y : string) :
  esc_char a +:+ x = esc_char b +:+ y -> a = b /\ x = y.
Proof.
  unfold esc_char.
  destruct (Ascii.eqb_spec a "&") as [->|Ha1];
    [|destruct (Ascii.eqb_spec a "<") as [->|Ha2];
      [|destruct (Ascii.eqb_spec a ">") as [->|Ha3];
        [|destruct (Ascii.eqb_spec a "034") as [->|Ha4]]]];
    (destruct (Ascii.eqb_spec b "&") as [->|Hb1];
     [|destruct (Ascii.eqb_spec b "<") as [->|Hb2];
       [|destruct (Ascii.eqb_spec b ">") as [->|Hb3];
         [|destruct (Ascii.eqb_spec b "034") as [->|Hb4]]]]);
    cbn [String.append]; intros H; try discriminate H;
    try (injection H as H; subst; now split);
    try (injection H as H1 H2; subst; now split);
    injection H as H1 H2; congruence.
Qed.

Lemma esc_char_nonempty (c : ascii) (x : string) : esc_char c +:+ x <> "".
Proof.
  unfold esc_char.
  repeat match goal with
         | |- context [if ?b then _ else _] => destruct b
         end; discriminate.
Qed.

Lemma concat_map_esc_inj (s t : string) :
  concat_map esc_char s = concat_map esc_char t -> s = t.
Proof.
  revert t; induction s as [|a s IH]; intros [|b t]; cbn [concat_map].
  - reflexivity.
  - intros H. symmetry in H. now apply esc_char_nonempty in H.
  - intros H. now apply esc_char_nonempty in H.
  - intros H. apply esc_char_prefix_free in H as [-> H].
    now rewrite (IH t H).
Qed.

End Escape.

(** X18: the four replacements of [esc], made one after the other over
    the whole text, write what one pass writes that replaces every
    character on its own (the ampersands of the entities are not escaped
    again); the result holds no "<", no ">" and no double quote; and two
    different texts are never escaped to the same text. *)
Theorem esc_single_pass (s t : string) :
  App.esc s = concat_map esc_char s
  /\ JS.all_chars html_safe (App.esc s) = true
  /\ (App.esc s = App.esc t -> s = t)
  /\ (JS.all_chars html_safe s = true
      -> JS.all_chars (fun c => negb (Ascii.eqb c "&")) s = true
      -> App.esc s = s).
Proof.
  split_and!.
  - apply esc_concat_map.
  - rewrite esc_concat_map. induction s as [|c s IH]; [reflexivity|].
    cbn [concat_map]. now rewrite all_chars_app, esc_char_safe, IH.
  - rewrite !esc_concat_map. apply concat_map_esc_inj.
  - intros Hs Ha. rewrite esc_concat_map.
    induction s as [|c s IH]; [reflexivity|].
    cbn [JS.all_chars] in Hs, Ha.
    apply andb_true_iff in Hs as [Hc Hs]. apply andb_true_iff in Ha as [Hc' Ha].
    cbn [concat_map]. rewrite (IH Hs Ha).
    unfold html_safe in Hc. unfold esc_char.
    apply andb_true_iff in Hc as [[H1 H2]%andb_true_iff H3].
    apply negb_true_iff in H1, H2, H3, Hc'.
    now rewrite Hc', H1, H2, H3.
Qed.

Lemma esc_single_pass_witness :
  App.esc "Panadol 500mg" = "Panadol 500mg".
Proof.
  apply (proj2 (proj2 (proj2 (esc_single_pass "Panadol 500mg" ""))));
    vm_compute; reflexivity.
Defined.

(** ** The product identifier of [UnifiedBarcodeParser] *)

Section ProductId.
Import JS Unified.

Lemma unified_truthy_length (v : string) :
  (0 < length v)%nat -> truthy (Some v) = true.
Proof. destruct v; simpl; [lia | reflexivity]. Qed.

Lemma trim_empty_length (b : string) :
  (length (trim b) =? 0)%nat = true <-> trim b = "".
Proof.
  rewrite Nat.eqb_eq. destruct (trim b); simpl; split; congruence.
Qed.

(** The digit count behind each of the plain formats *)
Lemma detect_simple (b : string) :
  match detectFormat b with
  | GTIN14 => length (keep_chars is_digit b) = 14%nat
  | EAN13 => length (keep_chars is_digit b) = 13%nat
  | LEGACY12 => length (keep_chars is_digit b) = 12%nat
  | EAN8 => length (keep_chars is_digit b) = 8%nat
  | _ => True
  end.
Proof.
  unfold detectFormat.
  destruct (includes "(01)" b); [exact I|].
  destruct (_ && _); [exact I|].
  destruct (Nat.eqb_spec (length (keep_chars is_digit b)) 14); [assumption|].
  destruct (Nat.eqb_spec (length (keep_chars is_digit b)) 13); [assumption|].
  destruct (Nat.eqb_spec (length (keep_chars is_digit b)) 12); [assumption|].
  destruct (Nat.eqb_spec (length (keep_chars is_digit b)) 8); [assumption|].
  exact I.
Qed.

Lemma getProductId_simple (b : string) (F : Format) (n : nat) :
  length (keep_chars is_digit b) = n -> (0 < n)%nat ->
  getProductId (parseSimple b F) = Some (keep_chars is_digit b).
Proof.
  intros Hn Hpos. unfold getProductId, parseSimple. cbn [gtin code].
  case_bool_decide; rewrite unified_truthy_length by lia; reflexivity.
Qed.

Lemma length_substring_2_16 (b : string) :
  (16 < length b)%nat -> length (substring 2 16 b) = 14%nat.
Proof.
  intros H. rewrite substring_le, length_take, length_drop by lia. lia.
Qed.

End ProductId.





(** X19: the identifier that [getProductId] draws from a result of
    [UnifiedBarcodeParser.parse] is the gtin when the result has one and
    the digits of the input otherwise (the fields ean13 and legacy never
    decide); it has 8, 12, 13 or 14 characters, which are digits in
    every format but the positional one; and there is none exactly when
    the input is blank, the format is unknown, or the input contains
    "(01)" with no 14 digits after any "(01)". *)
Theorem getProductId_of_parse (b : string) :
  let p := Unified.parse b in
  let id := Unified.getProductId p in
  id = match Unified.gtin p with
       | Some g => Some g
       | None => Unified.code p
       end
  /\ (forall v, id = Some v ->
        (JS.length v = 8 \/ JS.length v = 12 \/ JS.length v = 13
         \/ JS.length v = 14)%nat
        /\ (Unified.detectFormat b <> Unified.GS1_FULL ->
            JS.all_chars JS.is_digit v = true))
  /\ (id = None <->
      JS.trim b = "" \/ Unified.detectFormat b = Unified.UNKNOWN
      \/ (JS.includes "(01)" b = true
          /\ JS.match_digits "(01)" 14 b = None)).
Proof.
  cbv zeta. unfold Unified.parse.
  destruct (JS.length (JS.trim b) =? 0)%nat eqn:Ht.
  { apply trim_empty_length in Ht.
    split_and!; [reflexivity | discriminate | tauto]. }
  assert (Hne : JS.trim b <> "").
  { intros H. apply trim_empty_length in H. congruence. }
  pose proof (detect_simple b) as Hs.
  pose proof (detect_parenthesized_iff b) as Hp.
  pose proof (detect_full_iff b) as Hf.
  pose proof (all_chars_keep_self JS.is_digit b) as Hd.
  destruct (Unified.detectFormat b) eqn:F.
  - (* parenthesised *)
    assert (Hinc : JS.includes "(01)" b = true) by now apply Hp.
    unfold Unified.getProductId, Unified.parseParenthesized.
    cbn [Unified.gtin Unified.code Unified.ean13 Unified.legacy].
    destruct (JS.match_digits "(01)" 14 b) as [g|] eqn:E.
    + apply match_digits_some in E as (Hl & Hg).
      rewrite unified_truthy_length by lia.
      split_and!; [reflexivity | |].
      * intros v [= <-]. split; [lia | now intros _].
      * split; [discriminate|].
        intros [?|[?|[_ ?]]]; [contradiction | discriminate | discriminate].
    + cbn [Unified.truthy].
      split_and!; [reflexivity | discriminate |].
      split; [intros _; right; right; now split | reflexivity].
  - (* positional *)
    destruct (proj1 Hf eq_refl) as (Hinc & Hst & Hlen & _).
    unfold Unified.getProductId, Unified.parseNonParenthesized.
    cbn [Unified.gtin Unified.code Unified.ean13 Unified.legacy].
    rewrite Hst.
    pose proof (length_substring_2_16 b Hlen) as Hl.
    rewrite unified_truthy_length by lia.
    split_and!; [reflexivity | |].
    + intros v [= <-]. split; [lia | now intros []].
    + split; [discriminate|].
      intros [?|[?|[? _]]]; [contradiction | discriminate | congruence].
  - rewrite (getProductId_simple b _ 14 Hs) by lia.
    split_and!; [reflexivity | |].
    + intros v [= <-]. split; [lia | now intros _].
    + split; [discriminate|].
      intros [?|[?|[Hi _]]]; [contradiction | discriminate |].
      apply Hp in Hi. discriminate.
  - rewrite (getProductId_simple b _ 13 Hs) by lia.
    split_and!; [reflexivity | |].
    + intros v [= <-]. split; [lia | now intros _].
    + split; [discriminate|].
      intros [?|[?|[Hi _]]]; [contradiction | discriminate |].
      apply Hp in Hi. discriminate.
  - rewrite (getProductId_simple b _ 12 Hs) by lia.
    split_and!; [reflexivity | |].
    + intros v [= <-]. split; [lia | now intros _].
    + split; [discriminate|].
      intros [?|[?|[Hi _]]]; [contradiction | discriminate |].
      apply Hp in Hi. discriminate.
  - rewrite (getProductId_simple b _ 8 Hs) by lia.
    split_and!; [reflexivity | |].
    + intros v [= <-]. split; [lia | now intros _].
    + split; [discriminate|].
      intros [?|[?|[Hi _]]]; [contradiction | discriminate |].
      apply Hp in Hi. discriminate.
  - split_and!; [reflexivity | discriminate |].
    split; [intros _; right; now left | reflexivity].
Qed.

Lemma getProductId_of_parse_witness :
  Unified.getProductId (Unified.parse "(01)123(17)260630") = None
  /\ Unified.getProductId (Unified.parse "6291107439358")
     = Some "6291107439358".
Proof.
  split; [|vm_compute; reflexivity].
  apply (proj2 (proj2 (getProductId_of_parse "(01)123(17)260630"))).
  right. right. vm_compute. now split.
Defined.

(** ** The variable-length fields of the positional parser *)

Section LazyFields.
Import JS Unified.

Lemma drop_app_cons (k : nat) (c : ascii) (v rest : string) :
  drop (S k) (String c v +:+ rest) = drop k (v +:+ rest).
Proof. reflexivity. Qed.

(** The run that a lazy group captures *)
Lemma lazy_group_some (cls : ascii -> bool) (stops : list string)
  (s v : string) :
  lazy_group cls stops s = Some v ->
  v <> "" /\ all_chars cls v = true
  /\ exists rest, s = v +:+ rest /\ at_stop stops rest = true
                  /\ forall k, (0 < k < length v)%nat ->
                               at_stop stops (drop k (v +:+ rest)) = false.
Proof.
  revert v; induction s as [|c s IH]; intros v; cbn [lazy_group];
    [discriminate|].
  destruct (cls c) eqn:Hc; [|discriminate].
  destruct (at_stop stops s) eqn:Hs.
  - intros [= <-]. split_and!; [discriminate | simpl; now rewrite Hc |].
    exists s. split_and!; [reflexivity | exact Hs |].
    simpl. intros k Hk. lia.
  - destruct (lazy_group cls stops s) as [run|]; [|discriminate].
    intros [= <-]. destruct (IH run eq_refl) as (Hne & Hall & rest & -> & Hr & Hmin).
    split_and!; [discriminate | simpl; now rewrite Hc, Hall |].
    exists rest. split_and!; [reflexivity | exact Hr |].
    intros k Hk. destruct k as [|k]; [lia|]. rewrite drop_app_cons.
    destruct k as [|k]; [exact Hs|].
    apply Hmin. simpl in Hk. lia.
Qed.

Lemma startsWith_split (p s : string) :
  startsWith p s = true -> s = p +:+ drop (length p) s.
Proof.
  revert s; induction p as [|a p IH]; intros s H; [reflexivity|].
  destruct s as [|b s]; [discriminate|]. simpl in H.
  apply andb_true_iff in H as [Hab H]. apply Ascii.eqb_eq in Hab. subst b.
  change (String a p +:+ drop (length (String a p)) (String a s))
    with (String a (p +:+ drop (length p) s)).
  now rewrite <- (IH s H).
Qed.

Lemma take_drop (k : nat) (s : string) : s = take k s +:+ drop k s.
Proof.
  revert s; induction k as [|k IH]; intros [|c s]; try reflexivity.
  change (String c s = String c (take k s +:+ drop k s)).
  now rewrite <- IH.
Qed.

Lemma match_lazy_some (tag : string) (cls : ascii -> bool)
  (stops : list string) (s v : string) :
  match_lazy tag cls stops s = Some v ->
  v <> "" /\ all_chars cls v = true
  /\ exists pre rest,
       s = pre +:+ tag +:+ v +:+ rest /\ at_stop stops rest = true
       /\ forall k, (0 < k < length v)%nat ->
                    at_stop stops (drop k (v +:+ rest)) = false.
Proof.
  intros H. apply search_some in H as [k Hk].
  destruct (startsWith tag (drop k s)) eqn:Ht; [|discriminate].
  apply lazy_group_some in Hk as (Hne & Hall & rest & Hs & Hr & Hmin).
  split_and!; [exact Hne | exact Hall |].
  exists (take k s), rest. split_and!; [|exact Hr | exact Hmin].
  rewrite <- Hs, <- (startsWith_split tag (drop k s) Ht).
  apply take_drop.
Qed.

End LazyFields.

(** X20: a batch that [parseNonParenthesized] returns is a non-empty
    run of characters of [A-Z0-9-_/] that stands right after a "10" in
    the text behind the first 16 characters, and that is followed by
    the end of the text or by one of "17", "21", "11", "24", "01"; no
    shorter run has this property, so the value ends before the first
    such pair of digits after its first character.  The same holds for
    the serial, with "21", the class [A-Z0-9] and the pairs "17", "10",
    "11", "24", "01". *)
Theorem positional_batch_serial (barcode : string) :
  let p := Unified.parseNonParenthesized barcode in
  let remaining := JS.drop 16 barcode in
  (forall v, Unified.batch p = Some v ->
     let stops := ["17"; "21"; "11"; "24"; "01"] in
     v <> "" /\ JS.all_chars Unified.is_batch_char v = true
     /\ exists pre rest,
          remaining = pre +:+ "10" +:+ v +:+ rest
          /\ JS.at_stop stops rest = true
          /\ forall k, (0 < k < JS.length v)%nat ->
                       JS.at_stop stops (JS.drop k (v +:+ rest)) = false)
  /\ (forall v, Unified.serial p = Some v ->
        let stops := ["17"; "10"; "11"; "24"; "01"] in
        v <> "" /\ JS.all_chars Unified.is_upper_or_digit v = true
        /\ exists pre rest,
             remaining = pre +:+ "21" +:+ v +:+ rest
             /\ JS.at_stop stops rest = true
             /\ forall k, (0 < k < JS.length v)%nat ->
                          JS.at_stop stops (JS.drop k (v +:+ rest)) = false).
Proof.
  cbv zeta. unfold Unified.parseNonParenthesized.
  cbn [Unified.batch Unified.serial].
  split; intros v H; now apply match_lazy_some in H.
Qed.

Lemma positional_batch_serial_witness :
  Unified.batch (Unified.parseNonParenthesized
                   "01062911074393581726063010LOT2111") = Some "LOT"
  /\ "LOT" <> "".
Proof.
  split; [vm_compute; reflexivity|].
  apply (proj1 (positional_batch_serial "01062911074393581726063010LOT2111")
           "LOT").
  vm_compute. reflexivity.
Defined.

(** ** The tiles and the list of the history page *)

Section History.
Import JS App.

Variables SOON tz now : Z.

Lemma status_unknown_iff (iso : string) :
  GS1.status SOON tz now iso = GS1.unknown <-> iso = "".
Proof.
  unfold GS1.status. destruct (String.eqb_spec iso "") as [->|Hne].
  - tauto.
  - split; [|contradiction].
    destruct (Date_parse iso); [|discriminate].
    cbv zeta. repeat match goal with
                     | |- context [if ?b then _ else _] => destruct b
                     end; discriminate.
Qed.

Lemma with_status_iff (st : GS1.Status) (h : entry) :
  with_status SOON tz now st h = true
  <-> GS1.status SOON tz now (expiryISO h) = st.
Proof.
  unfold with_status. rewrite String.eqb_eq.
  destruct (GS1.status SOON tz now (expiryISO h)), st;
    split; (reflexivity || discriminate).
Qed.

Lemma without_date_status (h : entry) :
  without_date h = with_status SOON tz now GS1.unknown h.
Proof.
  unfold without_date.
  destruct (String.eqb_spec (expiryISO h) "") as [E|E]; symmetry.
  - apply with_status_iff, status_unknown_iff, E.
  - apply not_true_is_false. intros H.
    apply with_status_iff, status_unknown_iff in H. contradiction.
Qed.

Lemma with_status_cases (h : entry) :
  let ws st := with_status SOON tz now st h in
  match GS1.status SOON tz now (expiryISO h) with
  | GS1.unknown => ws GS1.unknown = true /\ ws GS1.expired = false
                   /\ ws GS1.expiring = false /\ ws GS1.ok = false
  | GS1.expired => ws GS1.unknown = false /\ ws GS1.expired = true
                   /\ ws GS1.expiring = false /\ ws GS1.ok = false
  | GS1.expiring => ws GS1.unknown = false /\ ws GS1.expired = false
                    /\ ws GS1.expiring = true /\ ws GS1.ok = false
  | GS1.ok => ws GS1.unknown = false /\ ws GS1.expired = false
              /\ ws GS1.expiring = false /\ ws GS1.ok = true
  end.
Proof.
  cbv zeta. unfold with_status.
  destruct (GS1.status SOON tz now (expiryISO h)); vm_compute; tauto.
Qed.

(** The loop of [refreshStats], from any start of the three counters *)
Lemma refreshStats_loop (hist : list entry) (e s o : Z) :
  fold_left
    (fun '(exp, soon, ok) h =>
       match GS1.status SOON tz now (expiryISO h) with
       | GS1.expired => (exp + 1, soon, ok)
       | GS1.expiring => (exp, soon + 1, ok)
       | GS1.ok => (exp, soon, ok + 1)
       | GS1.unknown => (exp, soon, ok)
       end)
    hist (e, s, o)
  = (e + count (with_status SOON tz now GS1.expired) hist,
     s + count (with_status SOON tz now GS1.expiring) hist,
     o + count (with_status SOON tz now GS1.ok) hist).
Proof.
  revert e s o; induction hist as [|h hist IH]; intros e s o.
  - unfold count. simpl. now rewrite !Z.add_0_r.
  - cbn [fold_left]. unfold count in *. cbn [List.filter].
    pose proof (with_status_cases h) as Hc. cbv zeta in Hc.
    destruct (GS1.status SOON tz now (expiryISO h));
      destruct Hc as (_ & -> & -> & ->); rewrite IH;
      cbn [List.length]; rewrite !pair_equal_spec; repeat split; lia.
Qed.

Lemma filter_insert_length (p : entry -> bool) (h : entry) (l : list entry) :
  List.length (List.filter p (insert_by_ts h l))
  = List.length (List.filter p (h :: l)).
Proof.
  induction l as [|x l IH]; [reflexivity|]. cbn [insert_by_ts].
  destruct (ts h <? ts x); [|reflexivity].
  cbn [List.filter] in *. destruct (p x), (p h); simpl in *; lia.
Qed.

Lemma filter_sort_length (p : entry -> bool) (hist : list entry) :
  List.length (List.filter p (sort_by_ts hist))
  = List.length (List.filter p hist).
Proof.
  induction hist as [|h hist IH]; [reflexivity|].
  cbn [sort_by_ts fold_right]. fold (sort_by_ts hist).
  rewrite filter_insert_length. cbn [List.filter].
  destruct (p h); simpl; lia.
Qed.

Lemma filter_ext_length (p q : entry -> bool) (l : list entry) :
  (forall h, p h = q h) ->
  List.length (List.filter p l) = List.length (List.filter q l).
Proof.
  intros H. induction l as [|x l IH]; [reflexivity|]. cbn [List.filter].
  rewrite H. destruct (q x); simpl; lia.
Qed.

(** The rows listed under one of the four filters, without search text *)
Lemma listed_count (st : GS1.Status) (hist : list entry) :
  Z.of_nat (List.length
              (refreshHistory SOON tz now (status_name st) "" hist))
  = count (with_status SOON tz now st) hist.
Proof.
  unfold refreshHistory, count. cbn [Master.truthy String.eqb negb].
  replace (negb (String.eqb (status_name st) "all")) with true
    by (now destruct st).
  cbv iota. rewrite filter_sort_length. f_equal.
  apply filter_ext_length. intros h.
  destruct st; cbn [status_name String.eqb Ascii.eqb Bool.eqb andb];
    try reflexivity.
  change (negb (Master.truthy (expiryISO h))) with (negb (negb (without_date h))).
  rewrite negb_involutive. apply without_date_status.
Qed.

Lemma count_partition (hist : list entry) :
  count (with_status SOON tz now GS1.expired) hist
  + count (with_status SOON tz now GS1.expiring) hist
  + count (with_status SOON tz now GS1.ok) hist
  + count without_date hist
  = Z.of_nat (List.length hist).
Proof.
  unfold count. induction hist as [|h hist IH]; [reflexivity|].
  cbn [List.filter]. rewrite without_date_status.
  pose proof (with_status_cases h) as Hc. cbv zeta in Hc.
  destruct (GS1.status SOON tz now (expiryISO h));
    destruct Hc as (-> & -> & -> & ->); cbn [List.length]; lia.
Qed.

Lemma Forall_insert (P : entry -> Prop) (h : entry) (l : list entry) :
  P h -> Forall P l -> Forall P (insert_by_ts h l).
Proof.
  intros Hh Hl. induction Hl as [|x l Hx Hl IH]; cbn [insert_by_ts].
  - now constructor.
  - destruct (ts h <? ts x); repeat constructor; assumption.
Qed.

Lemma Forall_filter_keep (P : entry -> Prop) (f : entry -> bool)
  (l : list entry) :
  Forall P l -> Forall P (List.filter f l).
Proof.
  intros Hl. induction Hl as [|x l Hx Hl IH]; cbn [List.filter].
  - constructor.
  - destruct (f x); [now constructor | exact IH].
Qed.

Lemma sorted_insert (h : entry) (l : list entry) :
  StronglySorted newer_first l -> StronglySorted newer_first (insert_by_ts h l).
Proof.
  intros Hl. induction Hl as [|x l Hl IH Hx]; cbn [insert_by_ts].
  - repeat constructor.
  - destruct (Z.ltb_spec (ts h) (ts x)) as [Hlt|Hge].
    + constructor; [exact IH|].
      apply Forall_insert; [unfold newer_first; lia | exact Hx].
    + constructor; [now constructor|].
      constructor; [unfold newer_first; lia|].
      eapply Forall_impl; [exact Hx|].
      unfold newer_first. intros y Hy. lia.
Qed.

Lemma sorted_sort (hist : list entry) :
  StronglySorted newer_first (sort_by_ts hist).
Proof.
  induction hist as [|h hist IH]; [constructor|].
  cbn [sort_by_ts fold_right]. now apply sorted_insert.
Qed.

Lemma sorted_filter (f : entry -> bool) (l : list entry) :
  StronglySorted newer_first l -> StronglySorted newer_first (List.filter f l).
Proof.
  intros Hl. induction Hl as [|x l Hl IH Hx]; cbn [List.filter].
  - constructor.
  - destruct (f x); [|exact IH].
    constructor; [exact IH | now apply Forall_filter_keep].
Qed.

Lemma perm_insert (h : entry) (l : list entry) :
  Permutation (insert_by_ts h l) (h :: l).
Proof.
  induction l as [|x l IH]; cbn [insert_by_ts]; [reflexivity|].
  destruct (ts h <? ts x); [|reflexivity].
  rewrite IH. apply perm_swap.
Qed.

Lemma perm_sort (hist : list entry) : Permutation (sort_by_ts hist) hist.
Proof.
  induction hist as [|h hist IH]; [reflexivity|].
  cbn [sort_by_ts fold_right]. fold (sort_by_ts hist).
  now rewrite perm_insert, IH.
Qed.

Lemma filter_all (l : list entry) : List.filter (fun _ => true) l = l.
Proof. induction l as [|x l IH]; simpl; [reflexivity | now rewrite IH]. Qed.

Lemma filter_In_keep (f : entry -> bool) (l : list entry) (h : entry) :
  In h (List.filter f l) -> In h l.
Proof. intros H. now apply filter_In in H. Qed.

End History.

(** X21: the three tiles of [refreshStats] count the rows whose status
    is expired, expiring and ok; together with the rows that have no
    date they add up to the number of rows; and each tile shows the
    number of rows that [refreshHistory] lists under the filter of the
    same name when no search text is set. *)
Theorem refreshStats_counts (SOON tz now : Z) (hist : list App.entry) :
  let listed f :=
    Z.of_nat (List.length (App.refreshHistory SOON tz now f "" hist)) in
  exists exp soon ok,
    App.refreshStats SOON tz now hist = (exp, soon, ok)
    /\ exp = count (with_status SOON tz now GS1.expired) hist
    /\ soon = count (with_status SOON tz now GS1.expiring) hist
    /\ ok = count (with_status SOON tz now GS1.ok) hist
    /\ exp + soon + ok + count without_date hist
       = Z.of_nat (List.length hist)
    /\ exp = listed "expired" /\ soon = listed "expiring"
    /\ ok = listed "ok" /\ count without_date hist = listed "unknown".
Proof.
  cbv zeta. unfold App.refreshStats. rewrite refreshStats_loop.
  do 3 eexists. split; [reflexivity|]. rewrite !Z.add_0_l.
  split_and!; try reflexivity.
  - apply count_partition.
  - symmetry. apply (listed_count SOON tz now GS1.expired).
  - symmetry. apply (listed_count SOON tz now GS1.expiring).
  - symmetry. apply (listed_count SOON tz now GS1.ok).
  - change "unknown" with (App.status_name GS1.unknown).
    rewrite (listed_count SOON tz now GS1.unknown hist).
    unfold count. f_equal. apply filter_ext_length.
    apply without_date_status.
Qed.

(** X22: whatever the filter and the search text, the rows that
    [refreshHistory] lists are rows of the history, newest first; with
    the filter "all" and no search text they are all the rows of the
    history, each as often as it occurs there. *)
Theorem refreshHistory_listing (SOON tz now : Z) (filter search : string)
  (hist : list App.entry) :
  let rows := App.refreshHistory SOON tz now filter search hist in
  StronglySorted newer_first rows
  /\ (forall h, In h rows -> In h hist)
  /\ (List.length rows <= List.length hist)%nat
  /\ Permutation (App.refreshHistory SOON tz now "all" "" hist) hist.
Proof.
  cbv zeta.
  assert (Hrows : exists f g,
             App.refreshHistory SOON tz now filter search hist
             = List.filter g (List.filter f (App.sort_by_ts hist))).
  { unfold App.refreshHistory.
    destruct (negb (String.eqb filter "all")), (Master.truthy search).
    - eauto.
    - eexists _, (fun _ => true). symmetry. apply filter_all.
    - exists (fun _ => true). eexists.
      rewrite (filter_all (App.sort_by_ts hist)). reflexivity.
    - exists (fun _ => true), (fun _ => true). now rewrite !filter_all. }
  destruct Hrows as (f & g & ->). split_and!.
  - apply sorted_filter, sorted_filter, sorted_sort.
  - intros h Hin. apply filter_In_keep, filter_In_keep in Hin.
    apply (Permutation_in h (perm_sort hist) Hin).
  - rewrite <- (Permutation_length (perm_sort hist)).
    etransitivity; [apply filter_length_le|]. apply filter_length_le.
  - unfold App.refreshHistory. cbn [String.eqb Ascii.eqb Bool.eqb negb
                                     Master.truthy].
    apply perm_sort.
Qed.

(** ** The loop of the positional branch ends *)

Section ScanEnds.
Import JS GS1.

Lemma scan_fuel_mono (fuel : nat) :
  forall fuel' code pos r r',
    scan fuel code pos r = Some r' -> (fuel <= fuel')%nat ->
    scan fuel' code pos r = Some r'.
Proof.
  induction fuel as [|fuel IH]; intros fuel' code pos r r' H Hle;
    [discriminate|].
  destruct fuel' as [|fuel']; [lia|].
  cbn [scan] in *. cbv zeta in *.
  repeat match goal with
         | |- context [if ?b then _ else _] => destruct b
         end; try exact H; apply IH with (fuel' := fuel') in H; (exact H || lia).
Qed.

End ScanEnds.

(** X23: the loop of the positional branch of [GS1.parse] ends: from
    every position and with every intermediate result it delivers a
    result within as many iterations as there are characters left, plus
    one, and more iterations give the same result. *)
Theorem scan_ends (code : string) (pos fuel : nat) (r : GS1.result) :
  (JS.length code - pos < fuel)%nat ->
  exists r', GS1.scan fuel code pos r = Some r'
             /\ forall fuel', (fuel <= fuel')%nat ->
                              GS1.scan fuel' code pos r = Some r'.
Proof.
  intros H. destruct (scan_total code fuel pos r H) as [r' Hr'].
  exists r'. split; [exact Hr'|].
  intros fuel' Hle. exact (scan_fuel_mono fuel fuel' code pos r r' Hr' Hle).
Qed.

Lemma scan_ends_witness :
  exists r', GS1.scan 29 "01000123456789051726063010AB" 0 (GS1.init "")
             = Some r'.
Proof.
  destruct (scan_ends "01000123456789051726063010AB" 0 29 (GS1.init ""))
    as (r' & Hr' & _); [vm_compute; lia|].
  exists r'. exact Hr'.
Defined.

(** ** The two parsers on a parenthesised text *)

Section TwoParsers.
Import JS GS1.

Lemma startsWith_paren (s : string) :
  startsWith "(01)" s = true -> startsWith "(" s = true.
Proof.
  destruct s as [|c s]; [discriminate|]. cbn [startsWith].
  intros [H _]%andb_true_iff. now rewrite H.
Qed.

Lemma includes_paren (s : string) :
  includes "(01)" s = true -> includes "(" s = true.
Proof.
  induction s as [|c s IH]; cbn [includes].
  - rewrite !orb_false_r. apply startsWith_paren.
  - intros [H|H]%orb_true_iff; apply orb_true_iff;
      [left; now apply startsWith_paren | right; now apply IH].
Qed.

Lemma year_text (a b : ascii) :
  is_digit a = true -> is_digit b = true ->
  toString (Some (2000 + (10 * digit_of a + digit_of b)))
  = String "2" (String "0" (String a (String b EmptyString))).
Proof.
  intros Ha Hb. apply digit_cases in Ha, Hb. simpl in Ha, Hb.
  repeat (destruct Ha as [<-|Ha]; [|]); try contradiction;
    repeat (destruct Hb as [<-|Hb]; [|]); try contradiction;
    vm_compute; reflexivity.
Qed.

Lemma pad2_text (a b : ascii) :
  is_digit a = true -> is_digit b = true ->
  pad2 (Some (10 * digit_of a + digit_of b))
  = String a (String b EmptyString).
Proof.
  intros Ha Hb. apply digit_cases in Ha, Hb. simpl in Ha, Hb.
  repeat (destruct Ha as [<-|Ha]; [|]); try contradiction;
    repeat (destruct Hb as [<-|Hb]; [|]); try contradiction;
    vm_compute; reflexivity.
Qed.

(** With a day other than 00, [_expiry] writes the digits of the token. *)
Lemma expiry_iso_copy (tok : string) (r : result) :
  length tok = 6%nat -> all_chars is_digit tok = true ->
  two_digits (substring 4 6 tok) <> 0 ->
  Unified.formatExpiry tok = Some (expiryISO (_expiry tok r)).
Proof.
  intros Hlen Hdig.
  destruct tok as [|c1 [|c2 [|c3 [|c4 [|c5 [|c6 [|c7 tok]]]]]]];
    try discriminate Hlen.
  simpl in Hdig.
  repeat (apply andb_true_iff in Hdig; destruct Hdig as [? Hdig]).
  change (substring 4 6 _) with (String c5 (String c6 EmptyString)).
  unfold two_digits. intros Hd.
  unfold _expiry, Unified.formatExpiry.
  change (negb (length _ =? 6)%nat) with false. cbv iota.
  change (substring 0 2 _) with (String c1 (String c2 EmptyString)).
  change (substring 2 4 _) with (String c3 (String c4 EmptyString)).
  change (substring 4 6 _) with (String c5 (String c6 EmptyString)).
  rewrite !parseInt_two_digits by assumption. cbv zeta.
  cbn [expiryISO set_expiry].
  replace (match 10 * digit_of c5 + digit_of c6 with
           | 0 => Date_day0_getDate
                    (Some (2000 + (10 * digit_of c1 + digit_of c2)))
                    (Some (10 * digit_of c3 + digit_of c4))
           | _ => Some (10 * digit_of c5 + digit_of c6)
           end) with (Some (10 * digit_of c5 + digit_of c6))
    by (destruct (10 * digit_of c5 + digit_of c6); [contradiction | | ];
        reflexivity).
  now rewrite year_text, !pad2_text by assumption.
Qed.

Lemma expiry_token (tok : string) (r : result) :
  length tok = 6%nat -> expiry (_expiry tok r) = tok.
Proof.
  intros H. unfold _expiry. now rewrite H.
Qed.

Lemma gtin_batch_serial (b s : option string) (r : result) :
  gtin (opt_apply s (fun v => set_serial (clean v))
          (opt_apply b (fun v => set_batch (clean v)) r)) = gtin r
  /\ expiry (opt_apply s (fun v => set_serial (clean v))
               (opt_apply b (fun v => set_batch (clean v)) r)) = expiry r
  /\ expiryISO (opt_apply s (fun v => set_serial (clean v))
                  (opt_apply b (fun v => set_batch (clean v)) r))
     = expiryISO r.
Proof. destruct b, s; now split_and!. Qed.

Lemma all_chars_take_while_of (p q : ascii -> bool) (s : string) :
  all_chars p s = true -> all_chars p (take_while q s) = true.
Proof.
  induction s as [|c s IH]; [reflexivity|]. cbn [all_chars take_while].
  intros [Hc Hs]%andb_true_iff. destruct (q c); [|reflexivity].
  cbn [all_chars]. now rewrite Hc, IH.
Qed.

(** What a search up to the next "(" captures is part of the text. *)
Lemma match_to_paren_chars (p : ascii -> bool) (tag s m : string) :
  all_chars p s = true -> match_to_paren tag s = Some m ->
  all_chars p m = true.
Proof.
  intros Hs H. apply search_some in H as [k Hk].
  destruct (startsWith tag (drop k s)); [|discriminate].
  assert (Hrun : all_chars p (take_while not_paren
                                (drop (length tag) (drop k s))) = true).
  { apply all_chars_take_while_of. now do 2 apply all_chars_drop. }
  destruct (take_while not_paren (drop (length tag) (drop k s)));
    [discriminate|].
  now injection Hk as <-.
Qed.

Lemma clean_printable (m : string) :
  all_chars is_printable m = true -> clean m = substring 0 20 (trim m).
Proof. intros H. unfold clean. now rewrite keep_chars_all. Qed.

Lemma batch_serial_set (b s : option string) (e g : option string)
  (raw : string) :
  let base := opt_apply e _expiry
                (opt_apply g set_gtin (set_isGS1 true (init raw))) in
  let r := opt_apply s (fun v => set_serial (clean v))
             (opt_apply b (fun v => set_batch (clean v)) base) in
  batch r = default "" (option_map clean b)
  /\ serial r = default "" (option_map clean s).
Proof.
  cbv zeta. destruct b, s, e, g; cbn [opt_apply option_map default];
    cbn [batch serial set_serial set_batch set_gtin set_isGS1 init];
    rewrite ?batch_expiry, ?serial_expiry; now split.
Qed.

End TwoParsers.

(** X24: on a text that holds "(01)" and is its own cleaned text (no
    white space around it, no carriage return, line feed or tab), the
    two parsers agree on what they read: both take it for parenthesised
    GS1, [UnifiedBarcodeParser.parse] has a gtin exactly when
    [GS1.parse] has a non-empty one, and then the same; likewise for the
    expiry token; when the day of the token is not 00, both write the
    same date text; and when the text is printable ASCII, the batch and
    the serial of [GS1.parse] are the first 20 characters of those of
    [UnifiedBarcodeParser.parse]. *)
Theorem parsers_agree_parenthesised (raw : string) :
  GS1.code_of raw = raw -> JS.includes "(01)" raw = true ->
  let r := GS1.parse raw in
  let u := Unified.parse raw in
  GS1.isGS1 r = true
  /\ Unified.format u = Some Unified.GS1_PARENTHESIZED
  /\ (forall g, Unified.gtin u = Some g <-> GS1.gtin r = g /\ g <> "")
  /\ (forall e, Unified.expiryRaw u = Some e
                <-> GS1.expiry r = e /\ e <> "")
  /\ (forall e, Unified.expiryRaw u = Some e ->
                two_digits (JS.substring 4 6 e) <> 0 ->
                Unified.expiry u = Some (GS1.expiryISO r))
  /\ (JS.all_chars JS.is_printable raw = true ->
      GS1.batch r = JS.substring 0 20 (default "" (Unified.batch u))
      /\ GS1.serial r = JS.substring 0 20 (default "" (Unified.serial u))).
Proof.
  intros Hc Hinc r u.
  assert (Hraw : raw <> "") by (intros ->; discriminate Hinc).
  assert (Hp : hasParens raw = true).
  { unfold hasParens. rewrite Hc. now apply includes_paren. }
  assert (Ht : (JS.length (JS.trim raw) =? 0)%nat = false).
  { apply Nat.eqb_neq. intros H.
    assert (E : JS.trim raw = "") by (destruct (JS.trim raw); [reflexivity | discriminate]).
    apply Hraw. rewrite <- Hc. unfold GS1.code_of. now rewrite E. }
  assert (Hu : u = Unified.parseParenthesized raw).
  { subst u. unfold Unified.parse. rewrite Ht.
    now rewrite (proj2 (detect_parenthesized_iff raw) Hinc). }
  assert (Hr : r = GS1.opt_apply (JS.match_to_paren "(21)" raw)
                     (fun s => GS1.set_serial (GS1.clean s))
                     (GS1.opt_apply (JS.match_to_paren "(10)" raw)
                        (fun b => GS1.set_batch (GS1.clean b))
                        (GS1.opt_apply (JS.match_digits "(17)" 6 raw)
                           GS1._expiry
                           (GS1.opt_apply (JS.match_digits "(01)" 14 raw)
                              GS1.set_gtin
                              (GS1.set_isGS1 true (GS1.init raw)))))).
  { subst r. rewrite (parse_parens raw Hraw Hp). cbv zeta. now rewrite Hc. }
  split_and!.
  - subst r. rewrite isGS1_parse, Hp.
    apply String.eqb_neq in Hraw. now rewrite Hraw.
  - now rewrite Hu.
  - intros g. rewrite Hu, Hr.
    rewrite (proj1 (gtin_batch_serial _ _ _)).
    unfold Unified.parseParenthesized. cbn [Unified.gtin].
    destruct (JS.match_digits "(01)" 14 raw) as [g0|] eqn:Eg;
      destruct (JS.match_digits "(17)" 6 raw) as [e0|];
      cbn [GS1.opt_apply]; rewrite ?gtin_expiry; cbn [GS1.gtin GS1.set_gtin
                                                      GS1.set_isGS1 GS1.init];
      try (split; [discriminate | intros [<- H]; now contradiction H]);
      apply match_digits_some in Eg as [Hl _];
      (split; [intros [= <-]; split; [reflexivity | intros ->; discriminate Hl]
              | intros [<- _]; reflexivity]).
  - intros e. rewrite Hu, Hr.
    rewrite (proj1 (proj2 (gtin_batch_serial _ _ _))).
    unfold Unified.parseParenthesized. cbn [Unified.expiryRaw].
    destruct (JS.match_digits "(17)" 6 raw) as [e0|] eqn:Ee;
      cbn [GS1.opt_apply].
    + apply match_digits_some in Ee as [Hl _].
      rewrite (expiry_token e0 _ Hl).
      split; [intros [= <-]; split; [reflexivity | intros ->; discriminate Hl]
             | intros [<- _]; reflexivity].
    + destruct (JS.match_digits "(01)" 14 raw); cbn [GS1.opt_apply GS1.expiry
        GS1.set_gtin GS1.set_isGS1 GS1.init];
        (split; [discriminate | intros [<- H]; now contradiction H]).
  - intros e. rewrite Hu, Hr.
    rewrite (proj2 (proj2 (gtin_batch_serial _ _ _))).
    unfold Unified.parseParenthesized.
    cbn [Unified.expiryRaw Unified.expiry].
    destruct (JS.match_digits "(17)" 6 raw) as [e0|] eqn:Ee;
      [|discriminate].
    intros [= <-] Hd. cbn [GS1.opt_apply Unified.date_of].
    apply match_digits_some in Ee as [Hl Hdig].
    now apply expiry_iso_copy.
  - intros Hpr. rewrite Hu, Hr.
    destruct (batch_serial_set (JS.match_to_paren "(10)" raw)
                (JS.match_to_paren "(21)" raw)
                (JS.match_digits "(17)" 6 raw)
                (JS.match_digits "(01)" 14 raw) raw) as [Hb Hs].
    cbv zeta in Hb, Hs. rewrite Hb, Hs.
    unfold Unified.parseParenthesized. cbn [Unified.batch Unified.serial].
    split.
    + destruct (JS.match_to_paren "(10)" raw) as [m|] eqn:E; [|reflexivity].
      cbn [option_map default]. apply clean_printable.
      exact (match_to_paren_chars _ _ _ _ Hpr E).
    + destruct (JS.match_to_paren "(21)" raw) as [m|] eqn:E; [|reflexivity].
      cbn [option_map default]. apply clean_printable.
      exact (match_to_paren_chars _ _ _ _ Hpr E).
Qed.

Lemma parsers_agree_parenthesised_witness :
  Unified.gtin (Unified.parse "(01)00012345678905(17)260630(10)AB")
  = Some "00012345678905"
  <-> GS1.gtin (GS1.parse "(01)00012345678905(17)260630(10)AB")
      = "00012345678905" /\ "00012345678905" <> "".
Proof.
  destruct (parsers_agree_parenthesised "(01)00012345678905(17)260630(10)AB")
    as (_ & _ & H & _); [vm_compute; reflexivity | vm_compute; reflexivity|].
  exact (H "00012345678905").
Defined.

(** ** The product lookup of [PharmacyDatabase] *)

Section Lookup.
Import JS Unified PharmacyDatabase.

(** What [getProductId] returns is never the empty string. *)
Lemma getProductId_truthy (p : data) :
  truthy (getProductId p) = negb (bool_decide (getProductId p = None)).
Proof.
  unfold getProductId.
  destruct (truthy (gtin p)) eqn:E1;
    [rewrite E1; destruct (gtin p); [reflexivity | discriminate]|].
  destruct (truthy (code p)) eqn:E2;
    [rewrite E2; destruct (code p); [reflexivity | discriminate]|].
  destruct (truthy (ean13 p)) eqn:E3;
    [rewrite E3; destruct (ean13 p); [reflexivity | discriminate]|].
  destruct (truthy (legacy p)) eqn:E4;
    [rewrite E4; destruct (legacy p); [reflexivity | discriminate]|].
  reflexivity.
Qed.

Lemma no_index_barcode_value {R} (db : content R) (value : string) :
  getByIndex db barcode_lookup "barcode_value" value = rejected.
Proof. reflexivity. Qed.

End Lookup.

(** X25: in a database whose object stores are those that [init]
    creates, [lookupProduct] never answers with a product.  The store
    barcode_lookup has no index named barcode_value (that name is its
    key path), so the first lookup is rejected: whatever the stores
    hold, [lookupProduct] returns [null] when [getProductId] finds no
    identifier in the parsed barcode, and is rejected in every other
    case. *)
Theorem lookupProduct_never_answers {R : Type}
  (db : PharmacyDatabase.content R) (barcode : string) :
  let id := Unified.getProductId (Unified.parse barcode) in
  (id = None ->
   PharmacyDatabase.lookupProduct db barcode = PharmacyDatabase.resolved None)
  /\ (id <> None ->
      PharmacyDatabase.lookupProduct db barcode = PharmacyDatabase.rejected)
  /\ (forall found,
        PharmacyDatabase.lookupProduct db barcode
        <> PharmacyDatabase.resolved (Some found)).
Proof.
  cbv zeta. unfold PharmacyDatabase.lookupProduct. cbv zeta.
  rewrite getProductId_truthy, no_index_barcode_value.
  case_bool_decide as E; cbn [negb]; split_and!.
  - reflexivity.
  - intros H. contradiction.
  - discriminate.
  - intros H. contradiction.
  - reflexivity.
  - discriminate.
Qed.

Lemma lookupProduct_never_answers_witness :
  PharmacyDatabase.lookupProduct
    (PharmacyDatabase.mkContent string
       (fun _ _ => None) (fun _ _ v => Some v) (fun r => r))
    "6291107439358"
  = PharmacyDatabase.rejected.
Proof.
  apply (proj1 (proj2 (lookupProduct_never_answers
           (PharmacyDatabase.mkContent string
              (fun _ _ => None) (fun _ _ v => Some v) (fun r => r))
           "6291107439358"))).
  vm_compute. discriminate.
Defined.

(** ** The items read from a master file *)

Section MasterFile.
Import JS Master Upload.

Lemma cell_unquoted (l : list string) (i : nat) :
  all_chars not_quote (cell (map unquote l) i) = true.
Proof.
  unfold cell. revert i; induction l as [|x l IH]; intros [|i];
    cbn [map nth]; try reflexivity.
  - unfold unquote. apply all_chars_keep_self.
  - apply IH.
Qed.

Lemma item_of_some (delim : ascii) (bi : nat) (ni ri : option nat)
  (line : string) (it : item) :
  item_of delim bi ni ri line = Some it ->
  retained it /\ barcode it <> ""
  /\ all_chars not_quote (barcode it) = true.
Proof.
  unfold item_of. cbv zeta.
  set (row := map unquote (split delim line)).
  destruct (Master.truthy (cell row bi)) eqn:Ht; [|discriminate].
  destruct (8 <=? length (keep_chars is_digit (cell row bi)))%nat eqn:Hd;
    [|discriminate].
  intros [= <-]. cbn [barcode]. split_and!.
  - unfold retained, stripped. cbn [barcode]. now apply Nat.leb_le.
  - unfold Master.truthy in Ht. now apply negb_true_iff, String.eqb_neq in Ht.
  - subst row. apply cell_unquoted.
Qed.

Lemma omap_items (f : string -> option item) (lines : list string) (it : item) :
  it ∈ omap f lines -> exists line, f line = Some it.
Proof.
  induction lines as [|l lines IH]; cbn [omap list_omap]; [set_solver|].
  destruct (f l) as [x|] eqn:E; [|exact IH].
  intros [->|H]%elem_of_cons; [eauto | now apply IH].
Qed.

Lemma omap_length_le (f : string -> option item) (lines : list string) :
  (List.length (omap f lines) <= List.length lines)%nat.
Proof.
  induction lines as [|l lines IH]; cbn [omap list_omap]; [reflexivity|].
  destruct (f l); simpl; lia.
Qed.

Lemma bulkMaster_all (items : list item) :
  (forall it, it ∈ items -> barcode it <> "") ->
  bulkMaster items = List.length items.
Proof.
  unfold bulkMaster. induction items as [|x items IH]; intros H;
    [reflexivity|].
  cbn [List.filter].
  replace (Master.truthy (barcode x)) with true.
  - simpl. f_equal. apply IH. intros it Hin. apply H. set_solver.
  - symmetry. unfold Master.truthy. apply negb_true_iff, String.eqb_neq.
    apply H. set_solver.
Qed.

End MasterFile.

(** X26: every item that [uploadMaster] hands to the database passes
    the test by which [Master.build] skips rows: its barcode, which holds
    no quote, has at least 8 digits.  So [Master.build], given any list
    that holds a row with the barcode of such an item, registers the
    digits of the item padded to 14.  There is at most one item for each
    line after the header, and the count that [DB.bulkMaster] reports is
    the number of items. *)
Theorem uploadMaster_items_retained (text : string)
  (items : list Master.item) (n : nat) :
  Upload.uploadMaster text = Upload.items_stored items n ->
  n = List.length items
  /\ (List.length items
      < List.length (Upload.split_lines (JS.trim text)))%nat
  /\ forall it, it ∈ items ->
       retained it /\ Master.barcode it <> ""
       /\ JS.all_chars Upload.not_quote (Master.barcode it) = true
       /\ forall data row,
            row ∈ data -> Master.barcode row = Master.barcode it ->
            registered (Master.build data)
              (JS.padStart 14 "0" (stripped it)).
Proof.
  unfold Upload.uploadMaster. cbv zeta.
  set (lines := Upload.split_lines (JS.trim text)).
  destruct (List.length lines <? 2)%nat eqn:Hlen; [discriminate|].
  apply Nat.ltb_ge in Hlen.
  destruct (Upload.findIndex _ _) as [bi|]; [|discriminate].
  set (f := Upload.item_of _ bi _ _).
  intros [= <- <-].
  assert (Hitems : forall it, it ∈ omap f (List.tl lines) ->
            retained it /\ Master.barcode it <> ""
            /\ JS.all_chars Upload.not_quote (Master.barcode it) = true).
  { intros it (line & Hline)%omap_items. subst f.
    exact (item_of_some _ _ _ _ _ _ Hline). }
  split_and!.
  - apply bulkMaster_all. intros it Hin. now apply Hitems.
  - pose proof (omap_length_le f (List.tl lines)) as Hle.
    destruct lines as [|h rest]; simpl in *; lia.
  - intros it Hin. destruct (Hitems it Hin) as (Hr & Hb & Hq).
    split_and!; try assumption.
    intros data row Hrow Hbc.
    assert (Hs : stripped row = stripped it)
      by (unfold stripped; now rewrite Hbc).
    assert (Hrr : retained row) by (unfold retained; now rewrite Hs).
    apply registered_build. exists row. rewrite <- Hs.
    split_and!; [exact Hrow | exact Hrr | now apply padded_key].
Qed.

Lemma uploadMaster_items_retained_witness :
  let text := "barcode,name,rms" +:+ String "010" "06291107439358,Zyrtec,220155756" in
  exists items, Upload.uploadMaster text = Upload.items_stored items 1
                /\ 1%nat = List.length items.
Proof.
  intros text.
  destruct (Upload.uploadMaster text) as [| |items n] eqn:E;
    try (vm_compute in E; discriminate E).
  assert (Hn : n = 1%nat) by (vm_compute in E; now injection E as _ <-).
  subst n. exists items. split; [reflexivity|].
  exact (proj1 (uploadMaster_items_retained text items 1 E)).
Defined.

(** ** Where the fields of the positional branch come from *)

Section PositionalOrigin.
Import JS GS1.

Lemma expiry_kept_or_token (tok : string) (r : result) :
  expiry (_expiry tok r) = expiry r
  \/ (expiry (_expiry tok r) = tok /\ length tok = 6%nat).
Proof.
  unfold _expiry. destruct (Nat.eqb_spec (length tok) 6) as [E|E]; simpl.
  - right. now split.
  - now left.
Qed.

Lemma scan_origin (code : string) :
  forall fuel pos r r',
    scan fuel code pos r = Some r' ->
    (expiry r' = expiry r
     \/ (after_17 code (expiry r') /\ length (expiry r') = 6%nat))
    /\ (batch r' = batch r \/ after_var "10" code (batch r'))
    /\ (serial r' = serial r \/ after_var "21" code (serial r')).
Proof.
  induction fuel as [|fuel IH]; intros pos r r'; cbn [scan]; [discriminate|].
  destruct (negb (pos <? length code)%nat); [intros [= ->]; tauto|].
  destruct (bool_decide (charAt pos code = Some GS)); [apply IH|].
  cbv zeta.
  destruct (String.eqb (substring pos (pos + 2) code) "01").
  { intros H. apply IH in H. exact H. }
  destruct (String.eqb (substring pos (pos + 2) code) "17") eqn:E17.
  { intros H. apply IH in H as (He & Hb & Hs).
    rewrite batch_expiry in Hb. rewrite serial_expiry in Hs.
    split_and!; [|exact Hb | exact Hs].
    destruct He as [He|He]; [|now right]. rewrite He.
    destruct (expiry_kept_or_token (substring (pos + 2) (pos + 8) code) r)
      as [Hk|[Hk Hl]]; [now left|].
    right. rewrite Hk. split; [|exact Hl].
    exists pos. apply String.eqb_eq in E17. now split. }
  destruct (String.eqb (substring pos (pos + 2) code) "10") eqn:E10.
  { intros H. apply IH in H as (He & Hb & Hs).
    split_and!; [exact He | | exact Hs].
    destruct Hb as [Hb|Hb]; [|now right]. right. rewrite Hb.
    exists pos. apply String.eqb_eq in E10. now split. }
  destruct (String.eqb (substring pos (pos + 2) code) "21") eqn:E21.
  { intros H. apply IH in H as (He & Hb & Hs).
    split_and!; [exact He | exact Hb |].
    destruct Hs as [Hs|Hs]; [|now right]. right. rewrite Hs.
    exists pos. apply String.eqb_eq in E21. now split. }
  apply IH.
Qed.

End PositionalOrigin.

(** X27: in the positional branch of [GS1.parse] (no "(" in the cleaned
    text, which starts with "01" and 14 digits), every field that is set
    was read behind its application identifier: the expiry token is
    empty or the six characters that follow a "17" in the text; the
    batch is empty or the cleaned run from behind a "10" up to the next
    separator 0x1D or the end; the serial likewise behind a "21". *)
Theorem positional_fields_origin (raw : string) :
  raw <> "" -> hasParens raw = false -> hasRawGS1 raw = true ->
  let code := GS1.code_of raw in
  let r := GS1.parse raw in
  (GS1.expiry r = ""
   \/ (after_17 code (GS1.expiry r) /\ JS.length (GS1.expiry r) = 6%nat))
  /\ (GS1.batch r = "" \/ after_var "10" code (GS1.batch r))
  /\ (GS1.serial r = "" \/ after_var "21" code (GS1.serial r)).
Proof.
  intros Hraw Hp Hg. cbv zeta.
  destruct (parse_raw raw Hraw Hp Hg) as [fuel H].
  apply scan_origin in H. exact H.
Qed.

Lemma positional_fields_origin_witness :
  GS1.batch (GS1.parse ("01000123456789051726063010AB" +:+ GSs +:+ "21S1"))
  = ""
  \/ after_var "10"
       (GS1.code_of ("01000123456789051726063010AB" +:+ GSs +:+ "21S1"))
       (GS1.batch
          (GS1.parse ("01000123456789051726063010AB" +:+ GSs +:+ "21S1"))).
Proof.
  apply (positional_fields_origin
           ("01000123456789051726063010AB" +:+ GSs +:+ "21S1"));
    [discriminate | vm_compute; reflexivity | vm_compute; reflexivity].
Defined.

(** ** A shared ending is enough for a match *)

Section SharedSuffix.
Import JS Master.

Lemma last8_key (it : item) :
  retained it -> slice_last 8 (stripped it) ∈ keys_of (stripped it).
Proof.
  intros Hr. apply (keys_of_retained (stripped it) _ Hr).
  right. right. right. symmetry. apply slice_last_padStart. exact Hr.
Qed.

Lemma last8_candidate (g : string) :
  slice_last 8 g <> "" -> slice_last 8 g ∈ candidates g.
Proof.
  intros H. unfold candidates.
  assert (Ht : truthy (slice_last 8 g) = true)
    by (unfold truthy; now apply negb_true_iff, String.eqb_neq).
  cbn [List.filter]. rewrite Ht.
  destruct (truthy g);
    destruct (truthy (if startsWith "0" g then slice1 g else ""));
    set_solver.
Qed.

End SharedSuffix.

(** X28: the last 8 characters are enough for a match.  When the list
    holds a retained row, every non-empty text that ends with the last 8
    digits of that row's barcode is answered EXACT or PARTIAL by
    [Master.find], never NONE; when the text itself is not a registered
    key the answer is PARTIAL, with the name of a retained row. *)
Theorem find_shared_suffix
  (data : list Master.item) (it : Master.item) (g : string) :
  it ∈ data -> retained it ->
  JS.slice_last 8 g = JS.slice_last 8 (stripped it) ->
  let r := Master.find (Master.build data) g in
  Master.how r <> Master.NONE
  /\ (~ registered (Master.build data) g ->
      Master.how r = Master.PARTIAL
      /\ exists row, row ∈ data /\ retained row
                     /\ Master.f_name r = Master.name row).
Proof.
  intros Hin Hr Hsuf r.
  assert (Hlen : JS.length (JS.slice_last 8 g) = 8%nat).
  { rewrite Hsuf. apply length_slice_last. exact Hr. }
  assert (Hne : JS.slice_last 8 g <> "").
  { intros E. rewrite E in Hlen. discriminate Hlen. }
  assert (Hg : g <> "") by (intros ->; now apply Hne).
  assert (Hreg : registered (Master.build data) (JS.slice_last 8 g)).
  { apply registered_build. exists it. rewrite Hsuf.
    split_and!; [exact Hin | exact Hr | now apply last8_key]. }
  subst r. unfold Master.find.
  replace (Master.truthy g) with true
    by (symmetry; unfold Master.truthy;
        now apply negb_true_iff, String.eqb_neq).
  cbn [negb].
  destruct (find_loop_answer (Master.build data) g (Master.candidates g))
    as [[_ Hall]|(c & Hc & Hname & _ & Hhow)].
  { exfalso. exact (Hall _ (last8_candidate g Hne) Hreg). }
  rewrite Hhow. split.
  - destruct (String.eqb c g); discriminate.
  - intros Hnot. destruct (String.eqb_spec c g) as [->|Hcg].
    + exfalso. apply Hnot. unfold registered. rewrite Hname. eauto.
    + split; [reflexivity|].
      unfold Master.build in Hname.
      apply name_origin in Hname as [Hname|(row & Hrow & Hrr & _ & Hn)].
      { simpl in Hname. rewrite lookup_empty in Hname. discriminate. }
      exists row. now split_and!.
Qed.

Lemma find_shared_suffix_witness :
  Master.how
    (Master.find (Master.build [Master.mkItem "6291107439358" "Zyrtec" ""])
       "05000107439358")
  = Master.PARTIAL.
Proof.
  apply (proj2 (find_shared_suffix
                  [Master.mkItem "6291107439358" "Zyrtec" ""]
                  (Master.mkItem "6291107439358" "Zyrtec" "")
                  "05000107439358" ltac:(apply list_elem_of_here)
                  ltac:(unfold retained; vm_compute; lia) eq_refl)).
  unfold registered. vm_compute. intros [? ?]. discriminate.
Defined.
